(** * fetch_analysis: schema inference and the missing-reference ledger

    A shallow embedding of [assets/dw_modeler.py] (class
    [DataWarehouseModeler]) and of the loading routines of
    [assets/data_ingestor.py] (class [DatabaseIngester]), with the
    properties of the specification stated over them.

    Conventions of the embedding.
    - A Python [str] is a [string]; one [ascii] stands for one character,
      and [lower] acts on the letters A-Z (text outside ASCII is not
      modelled).
    - A document is a [json] value as [json.loads] builds it; a [dict] is
      an association list in insertion order, which is the order
      [items()] iterates in.
    - A Python [set] of strings is a duplicate-free [list] in insertion
      order.  Python does not fix the order in which a [set] is iterated,
      so the statement about the chosen storage type is made for an
      arbitrary sequence, and the other statements speak of membership.
    - The tables of the ledger are those that [exception_tables]
      describes, and the key columns of [users] and [brands] are
      [VARCHAR] columns.  What the code leaves to its environment is a
      part of the [store] that the loader runs against: which counts of
      milliseconds the platform converts to a [datetime], which strings
      the driver binds, and which rows of [receipts] and of the line
      items the store admits.
    - A raised exception is the [Raise] case of [result]. *)

From Stdlib Require Import String Ascii List ZArith Lia Bool Arith.
Import ListNotations.

Set Warnings "-register-all".

Local Open Scope list_scope.
Local Open Scope string_scope.

(* ================================================================= *)
(** ** Python strings *)

Module PyStr.

(** [c.lower()] on one character: the letters A-Z move to a-z. *)
Definition lower_ascii (c : ascii) : ascii :=
  let n := nat_of_ascii c in
  if andb (65 <=? n)%nat (n <=? 90)%nat then ascii_of_nat (n + 32) else c.

(** [s.lower()] *)
Fixpoint lower (s : string) : string :=
  match s with
  | EmptyString => EmptyString
  | String c s' => String (lower_ascii c) (lower s')
  end.

(** [s.replace(old, new)] for a pattern [old] of one character. *)
Fixpoint replace (old : ascii) (new : string) (s : string) : string :=
  match s with
  | EmptyString => EmptyString
  | String c s' =>
      if Ascii.eqb c old then new ++ replace old new s'
      else String c (replace old new s')
  end.

(** [sub in s] on strings: [sub] occurs in [s] as a substring. *)
Fixpoint contains (sub s : string) : bool :=
  if String.prefix sub s then true
  else match s with
       | EmptyString => false
       | String _ s' => contains sub s'
       end.

(** [s.split(sep)[0]] for a separator of one character: the text before
    the first [sep], or all of [s] when there is none. *)
Fixpoint split_head (sep : ascii) (s : string) : string :=
  match s with
  | EmptyString => EmptyString
  | String c s' =>
      if Ascii.eqb c sep then EmptyString else String c (split_head sep s')
  end.

(** [sep.join(parts)] *)
Fixpoint join (sep : string) (parts : list string) : string :=
  match parts with
  | [] => EmptyString
  | [p] => p
  | p :: rest => p ++ sep ++ join sep rest
  end.



End PyStr.

(* ================================================================= *)
(** ** Documents *)

(** A value as [json.loads] returns it.  A float is kept as a decimal
    [mantissa * 10 ^ exponent]; only its type and whether it is zero are
    ever inspected. *)
Inductive json : Type :=
| JNull
| JBool (b : bool)
| JInt (n : Z)
| JFloat (mantissa exponent : Z)
| JStr (s : string)
| JList (items : list json)
| JDict (fields : list (string * json)).

(** The nested induction principle: the elements of a list and the values
    of a mapping satisfy the property. *)
Section JsonInduction.
Variable P : json -> Prop.
Hypothesis Hnull : P JNull.
Hypothesis Hbool : forall b, P (JBool b).
Hypothesis Hint : forall n, P (JInt n).
Hypothesis Hfloat : forall m e, P (JFloat m e).
Hypothesis Hstr : forall s, P (JStr s).
Hypothesis Hlist : forall l, Forall P l -> P (JList l).
Hypothesis Hdict :
  forall kvs, Forall (fun kv => P (snd kv)) kvs -> P (JDict kvs).

Fixpoint json_nested_ind (j : json) : P j :=
  match j with
  | JNull => Hnull
  | JBool b => Hbool b
  | JInt n => Hint n
  | JFloat m e => Hfloat m e
  | JStr s => Hstr s
  | JList l =>
      Hlist l
        ((fix go (l : list json) : Forall P l :=
            match l with
            | [] => Forall_nil P
            | x :: tl => Forall_cons x (json_nested_ind x) (go tl)
            end) l)
  | JDict kvs =>
      Hdict kvs
        ((fix go (kvs : list (string * json))
            : Forall (fun kv => P (snd kv)) kvs :=
            match kvs with
            | [] => Forall_nil _
            | kv :: tl =>
                Forall_cons kv (json_nested_ind (snd kv)) (go tl)
            end) kvs)
  end.
End JsonInduction.

(** [key in d] and [d.get(key)] on a mapping. *)
Fixpoint dict_get {A : Type} (key : string) (d : list (string * A))
  : option A :=
  match d with
  | [] => None
  | (k, v) :: tl => if String.eqb k key then Some v else dict_get key tl
  end.

Definition dict_has {A : Type} (key : string) (d : list (string * A))
  : bool :=
  match dict_get key d with Some _ => true | None => false end.

(** Exceptions that the modelled code can raise. *)
Inductive exn : Type :=
| KeyError (key : string)
| ValueError
| TypeError
| AttributeError
| OverflowError
| OSError
| DatabaseError.

Inductive result (A : Type) : Type :=
| Ok (a : A)
| Raise (e : exn).
Arguments Ok {A} a.
Arguments Raise {A} e.

Definition bind {A B : Type} (r : result A) (f : A -> result B)
  : result B :=
  match r with
  | Ok a => f a
  | Raise e => Raise e
  end.

Notation "x <- r ;; k" := (bind r (fun x => k))
  (at level 61, r at next level, right associativity).

(* ================================================================= *)
(** ** The modeler: names and types *)

Module DataWarehouseModeler.

(** The instance: [current_file_stem], which both callers set before
    the analysis, and the one-shot flag [exception_tables_added]. *)
Record modeler : Type := {
  current_file_stem : string;
  exception_tables_added : bool
}.

(** [DataWarehouseModeler()] followed by the callers' assignment of the
    file stem. *)
Definition new (stem : string) : modeler :=
  {| current_file_stem := stem; exception_tables_added := false |}.

(** [clean_column_name]:
    [name.replace('$', '').replace('.', '_').lower()] *)
Definition clean_column_name (name : string) : string :=
  PyStr.lower (PyStr.replace "."%char "_" (PyStr.replace "$"%char "" name)).

(** [self.type_mapping.get(value_type, "VARCHAR(255)")] by the exact
    type of the value. *)
Definition type_mapping (value : json) : string :=
  match value with
  | JStr _ => "VARCHAR(255)"
  | JInt _ => "INTEGER"
  | JFloat _ _ => "DECIMAL(10,2)"
  | JBool _ => "BOOLEAN"
  | JNull => "NULL"
  | JDict _ => "NESTED"
  | JList _ => "ARRAY"
  end.

(** [infer_data_type(value, column_name)] *)
Definition infer_data_type (value : json) (column_name : string)
  : string :=
  match value with
  | JNull => "NULL"
  | JDict d =>
      if dict_has "$date" d then "TIMESTAMP"
      else if dict_has "$oid" d then "VARCHAR(24)"
      else type_mapping value
  | JStr s =>
      if PyStr.contains "date" (PyStr.lower column_name) then "TIMESTAMP"
      else if orb (PyStr.contains "price" (PyStr.lower column_name))
                  (PyStr.contains "spent" (PyStr.lower column_name))
      then "DECIMAL(10,2)"
      else if (255 <? String.length s)%nat then "TEXT" else "VARCHAR(255)"
  | _ => type_mapping value
  end.

(* --------------------------------------------------------------- *)
(** *** The model under construction *)

(** One entry of [structure["tables"]]: the columns with their observed
    type-sets, whether [columns] is a [defaultdict(set)] or a plain
    [dict] (the literal tables are plain), and the relationships. *)
Record table_info : Type := {
  columns : list (string * list string);
  columns_default : bool;
  relationships : list string
}.

(** [structure["tables"]], a [defaultdict] in insertion order. *)
Definition structure : Type := list (string * table_info).

(** What the [defaultdict] of tables creates for a missing name. *)
Definition fresh_table : table_info :=
  {| columns := []; columns_default := true; relationships := [] |}.

(** [s.add(x)] on a set. *)
Definition set_add (x : string) (s : list string) : list string :=
  if existsb (String.eqb x) s then s else s ++ [x].

(** [d[key] = value]: an existing key keeps its place. *)
Fixpoint dict_set {A : Type} (key : string) (value : A)
  (d : list (string * A)) : list (string * A) :=
  match d with
  | [] => [(key, value)]
  | (k, v) :: tl =>
      if String.eqb k key then (k, value) :: tl
      else (k, v) :: dict_set key value tl
  end.

(** [table["columns"][col].add(ty)]: a [defaultdict] creates the
    column, a plain [dict] raises [KeyError] for a column it lacks. *)
Definition add_type (col ty : string) (t : table_info)
  : result table_info :=
  match dict_get col (columns t) with
  | Some tys =>
      Ok {| columns := dict_set col (set_add ty tys) (columns t);
            columns_default := columns_default t;
            relationships := relationships t |}
  | None =>
      if columns_default t
      then Ok {| columns := columns t ++ [(col, [ty])];
                 columns_default := true;
                 relationships := relationships t |}
      else Raise (KeyError col)
  end.

(** [table["relationships"].add(rel)] *)
Definition add_rel (rel : string) (t : table_info) : result table_info :=
  Ok {| columns := columns t;
        columns_default := columns_default t;
        relationships := set_add rel (relationships t) |}.

(** [f(structure["tables"][name])]: the table is looked up, or created
    at the end of the mapping, and then updated in place. *)
Fixpoint with_table (name : string)
  (f : table_info -> result table_info) (st : structure)
  : result structure :=
  match st with
  | [] => t' <- f fresh_table ;; Ok [(name, t')]
  | (k, t) :: tl =>
      if String.eqb k name
      then t' <- f t ;; Ok ((k, t') :: tl)
      else tl' <- with_table name f tl ;; Ok ((k, t) :: tl')
  end.

Definition add_column (table_name col ty : string) (st : structure)
  : result structure :=
  with_table table_name (add_type col ty) st.

Definition add_relationship (table_name rel : string) (st : structure)
  : result structure :=
  with_table table_name (add_rel rel) st.

(** The literal assigned to [structure["tables"]["categories"]]. *)
Definition categories_table : table_info :=
  {| columns := [("category", ["VARCHAR(255)"]);
                 ("categorycode", ["VARCHAR(255)"])];
     columns_default := false;
     relationships :=
       ["one_to_many relationship with brands (category_id)"] |}.

(** The two entries of [self.exception_tables]. *)
Definition missing_brands_table : table_info :=
  {| columns := [("missing_brands_id", ["SERIAL PRIMARY KEY"]);
                 ("brandcode", ["VARCHAR(255) UNIQUE"]);
                 ("occurrence_count", ["INTEGER"]);
                 ("first_seen", ["TIMESTAMP"]);
                 ("last_seen", ["TIMESTAMP"])];
     columns_default := false;
     relationships :=
       ["tracks missing from relationship with rewardsreceiptitemlist"]
  |}.

Definition missing_users_table : table_info :=
  {| columns := [("missing_users_id", ["SERIAL PRIMARY KEY"]);
                 ("user_id", ["VARCHAR(24) UNIQUE"]);
                 ("occurrence_count", ["INTEGER"]);
                 ("first_seen", ["TIMESTAMP"]);
                 ("last_seen", ["TIMESTAMP"])];
     columns_default := false;
     relationships :=
       ["tracks missing from relationship with receipts"] |}.

(** [self.exception_tables], in the order of the literal. *)
Definition exception_tables : list (string * table_info) :=
  [("missing_brands", missing_brands_table);
   ("missing_users", missing_users_table)].

(* --------------------------------------------------------------- *)
(** *** Structure analysis *)

(** The table a mapping at [current_path] belongs to:
    [current_path.split('.')[0] if current_path else
    self.current_file_stem]. *)
Definition table_name_of (self : modeler) (current_path : string)
  : string :=
  match current_path with
  | EmptyString => current_file_stem self
  | _ => PyStr.split_head "."%char current_path
  end.

(** The fields that never reach the generic classification. *)
Definition is_userid (clean_key table_name : string) : bool :=
  String.eqb clean_key "userid" && String.eqb table_name "receipts".
Definition is_brandcode (clean_key table_name : string) : bool :=
  String.eqb clean_key "brandcode"
  && String.eqb table_name "rewardsreceiptitemlist".
Definition is_category (clean_key table_name : string) : bool :=
  String.eqb clean_key "category" && String.eqb table_name "brands".
Definition is_categorycode (clean_key table_name : string) : bool :=
  String.eqb clean_key "categorycode" && String.eqb table_name "brands".
Definition is_cpg (clean_key : string) : bool :=
  String.eqb clean_key "cpg".

Definition special_cased (clean_key table_name : string) : bool :=
  is_userid clean_key table_name || is_brandcode clean_key table_name
  || is_category clean_key table_name
  || is_categorycode clean_key table_name || is_cpg clean_key.

(** The body of the loop [for key, value in item.items()] of
    [_analyze_recursive]; [recurse] is [self._analyze_recursive]. *)
Definition analyze_field
  (recurse : json -> string -> structure -> result structure)
  (table_name : string) (field : string * json) (st : structure)
  : result structure :=
  let '(key, value) := field in
  let clean_key := clean_column_name key in
  if is_userid clean_key table_name then
    st <- add_column table_name clean_key "VARCHAR(24)" st ;;
    st <- add_relationship table_name
            ("foreign key relationship: " ++ table_name ++ "."
             ++ clean_key ++ " -> users._id") st ;;
    add_relationship table_name
      "tracked by missing_users when not in users table" st
  else if is_brandcode clean_key table_name then
    st <- add_column table_name clean_key "VARCHAR(255)" st ;;
    st <- add_relationship table_name
            ("foreign key relationship: " ++ table_name ++ "."
             ++ clean_key ++ " -> brands.brandcode") st ;;
    add_relationship table_name
      "tracked by missing_brands when not in brands table" st
  else if is_category clean_key table_name then
    add_relationship table_name
      ("foreign key relationship: " ++ table_name
       ++ ".category_id -> categories.category_id")
      (dict_set "categories" categories_table st)
  else if is_categorycode clean_key table_name then Ok st
  else if is_cpg clean_key then Ok st
  else
    let generic :=
      add_column table_name clean_key (infer_data_type value clean_key) st
    in
    match value with
    | JDict d =>
        if dict_has "$date" d || dict_has "$oid" d
        then generic
        else if negb (String.eqb clean_key "cpg")
             then recurse value clean_key st
             else Ok st
    | JList (first :: _) =>
        match first with
        | JDict _ =>
            st <- (if String.eqb clean_key "rewardsreceiptitemlist"
                   then add_relationship table_name
                          "one_to_many relationship with rewardsreceiptitemlist (receipt_id)"
                          st
                   else Ok st) ;;
            recurse first clean_key st
        | _ => generic
        end
    | _ => generic
    end.

(** The loop [for key, value in item.items()]. *)
Section Fields.
Variable recurse : json -> string -> structure -> result structure.
Variable table_name : string.

Fixpoint analyze_fields (fields : list (string * json))
  (st : structure) : result structure :=
  match fields with
  | [] => Ok st
  | field :: rest =>
      st' <- analyze_field recurse table_name field st ;;
      analyze_fields rest st'
  end.
End Fields.

(** [_analyze_recursive(item, current_path, structure)] *)
Fixpoint analyze_recursive (self : modeler) (item : json)
  (current_path : string) (st : structure) {struct item}
  : result structure :=
  match item with
  | JDict fields =>
      analyze_fields (analyze_recursive self)
        (table_name_of self current_path) fields st
  | _ => Ok st
  end.

(** The loop [for item in data: self._analyze_recursive(item, "",
    structure)]. *)
Fixpoint analyze_items (self : modeler) (items : list json)
  (st : structure) : result structure :=
  match items with
  | [] => Ok st
  | item :: rest =>
      st' <- analyze_recursive self item "" st ;;
      analyze_items self rest st'
  end.

(** The loop [for table_name, table_info in
    self.exception_tables.items(): structure["tables"][table_name] =
    table_info]. *)
Definition add_exception_tables (st : structure) : structure :=
  fold_left (fun st entry => dict_set (fst entry) (snd entry) st)
    exception_tables st.

(** The first part of [analyze_structure]: the documents are analyzed
    into an empty model. *)
Definition analyze_documents (self : modeler) (data : json)
  : result structure :=
  match data with
  | JList items => analyze_items self items []
  | _ => analyze_recursive self data "" []
  end.

(** [analyze_structure(data)]: the model and the instance after the
    call. *)
Definition analyze_structure (self : modeler) (data : json)
  : result (structure * modeler) :=
  st <- analyze_documents self data ;;
  if negb (exception_tables_added self)
  then Ok (add_exception_tables st,
           {| current_file_stem := current_file_stem self;
              exception_tables_added := true |})
  else Ok (st, self).

(* --------------------------------------------------------------- *)
(** *** DDL generation *)

Definition nl : string := String (ascii_of_nat 10) EmptyString.

(** [max(xs, key=key)]: the first element whose key is largest;
    [ValueError] on an empty sequence. *)
Fixpoint max_from {A : Type} (key : A -> nat) (best : A) (xs : list A)
  : A :=
  match xs with
  | [] => best
  | x :: tl =>
      if (key best <? key x)%nat then max_from key x tl
      else max_from key best tl
  end.

Definition py_max {A : Type} (key : A -> nat) (xs : list A) : result A :=
  match xs with
  | [] => Raise ValueError
  | x :: tl => Ok (max_from key x tl)
  end.

(** [lambda x: 0 if x == "NULL" else 1] *)
Definition null_last (x : string) : nat :=
  if String.eqb x "NULL" then 0 else 1.

(** The storage type of a regular column:
    [max(data_types, key=lambda x: 0 if x == "NULL" else 1)]. *)
Definition storage_type (data_types : list string) : result string :=
  py_max null_last data_types.

(** ["NULL" in data_types] *)
Definition nullable (data_types : list string) : bool :=
  existsb (String.eqb "NULL") data_types.

(** The line of a column under [# Regular table handling], built from
    its observed type-set: [f"{col_name} {data_type}"] followed by
    [" NULL"] or [" NOT NULL"]. *)
Definition column_line (col_name : string) (data_types : list string)
  : result string :=
  data_type <- storage_type data_types ;;
  Ok (col_name ++ " " ++ data_type
      ++ (if nullable data_types then " NULL" else " NOT NULL")).

Fixpoint column_lines (cols : list (string * list string))
  : result (list string) :=
  match cols with
  | [] => Ok []
  | (col_name, data_types) :: tl =>
      line <- column_line col_name data_types ;;
      lines <- column_lines tl ;;
      Ok (line :: lines)
  end.

(** The list [columns] that [generate_ddl] builds for one table. *)
Definition table_columns (table_name : string) (t : table_info)
  : result (list string) :=
  if dict_has table_name exception_tables
  then Ok (map (fun c => fst c ++ " " ++ PyStr.join " " (snd c))
             (columns t))
  else
    lines <- column_lines (columns t) ;;
    Ok ((table_name ++ "_id SERIAL PRIMARY KEY") :: lines).

(** The text of the [CREATE TABLE] statement. *)
Definition create_table (table_name : string) (cols : list string)
  : string :=
  "CREATE TABLE " ++ table_name ++ " (" ++ nl
  ++ "    " ++ PyStr.join ("," ++ nl ++ "    ") cols
  ++ nl ++ ");".

(** The statements one iteration of the loop of [generate_ddl] appends
    to [ddl]. *)
Definition table_statements (entry : string * table_info)
  : result (list string) :=
  let '(table_name, t) := entry in
  cols <- table_columns table_name t ;;
  Ok (create_table table_name cols
      :: (if String.eqb table_name "missing_brands"
          then ["CREATE INDEX idx_" ++ table_name ++ "_brandcode ON "
                ++ table_name ++ "(brandcode);"]
          else if String.eqb table_name "missing_users"
          then ["CREATE INDEX idx_" ++ table_name ++ "_user_id ON "
                ++ table_name ++ "(user_id);"]
          else [])).

(** The list [ddl] at the end of the loop. *)
Fixpoint ddl_statements (st : structure) : result (list string) :=
  match st with
  | [] => Ok []
  | entry :: tl =>
      stmts <- table_statements entry ;;
      rest <- ddl_statements tl ;;
      Ok (stmts ++ rest)%list
  end.

(** [generate_ddl(structure)]; the method neither reads nor writes the
    instance apart from the constant [exception_tables]. *)
Definition generate_ddl (st : structure) : result string :=
  ddl <- ddl_statements st ;;
  Ok (PyStr.join (nl ++ nl) ddl).

End DataWarehouseModeler.

(* ================================================================= *)
(** ** The loader and the ledger of missing references *)

Module DatabaseIngester.

(** A value bound to a statement parameter: a document value, or the
    [datetime] that [process_timestamp] builds from a count of
    milliseconds [mantissa * 10 ^ exponent]. *)
Inductive pyval : Type :=
| PJson (j : json)
| PDatetime (mantissa exponent : Z).

(** Truth value of a Python object, as [if x:] tests it. *)
Definition truthy (v : pyval) : bool :=
  match v with
  | PJson JNull => false
  | PJson (JBool b) => b
  | PJson (JInt n) => negb (Z.eqb n 0)
  | PJson (JFloat m _) => negb (Z.eqb m 0)
  | PJson (JStr s) => negb (String.eqb s "")
  | PJson (JList l) => match l with [] => false | _ => true end
  | PJson (JDict d) => match d with [] => false | _ => true end
  | PDatetime _ _ => true
  end.

(** [obj.get(key)]: [None] for a missing key, [AttributeError] when
    [obj] is not a mapping. *)
Definition py_get (obj : json) (key : string) : result json :=
  match obj with
  | JDict d =>
      Ok (match dict_get key d with Some v => v | None => JNull end)
  | _ => Raise AttributeError
  end.

(** A row of [missing_brands] or [missing_users] without its surrogate
    key; a [None] timestamp is SQL [NULL]. *)
Record ledger_entry : Type := {
  occurrence_count : Z;
  first_seen : option Z;
  last_seen : option Z
}.

Definition ledger : Type := list (string * ledger_entry).

(** A stored row: column names with the values bound to them. *)
Definition row : Type := list (string * pyval).

(** The committed content of the store.  [users] and [brands] hold the
    keys that the loader looks up ([users._id], [brands.brandcode]). *)
Record tables : Type := {
  users : list string;
  brands : list string;
  receipts : list row;
  rewardsreceiptitemlist : list row;
  missing_brands : ledger;
  missing_users : ledger
}.

(** The store as the ingester reaches it: the content, and what the
    code leaves to the platform, the driver and the store.
    - [datetime_error m e] is the exception that [value / 1000] or
      [datetime.fromtimestamp] raises for the count [m * 10 ^ e] of
      milliseconds, if any; the range of [fromtimestamp] depends on the
      platform and on the local time zone.
    - [binds s] tells whether the driver can bind the string [s] as a
      parameter (psycopg2 refuses a string with a NUL character).
    - [admits_receipt c r] is the [receipts_id] that the store returns
      when [INSERT INTO receipts ... RETURNING receipts_id] stores the
      row [r] in the content [c], and [None] when the store refuses the
      row (a constraint, a value that does not fit its column, a
      sequence that is exhausted).
    - [admits_item c r] tells whether the store accepts the row [r] of
      [INSERT INTO rewardsreceiptitemlist]. *)
Record store : Type := {
  content :> tables;
  datetime_error : Z -> Z -> option exn;
  binds : string -> bool;
  admits_receipt : tables -> row -> option Z;
  admits_item : tables -> row -> bool
}.

(** The same platform, driver and store with another content. *)
Definition with_content (db : store) (c : tables) : store :=
  {| content := c;
     datetime_error := datetime_error db;
     binds := binds db;
     admits_receipt := admits_receipt db;
     admits_item := admits_item db |}.

Definition int_max : Z := 2147483647.

(** A platform whose local time is UTC: the counts from 0001-01-02 to
    the end of the year 9999 are converted, the others are out of
    range. *)
Definition utc_datetime_error (mantissa exponent : Z) : option exn :=
  let ms := if (0 <=? exponent)%Z then (mantissa * 10 ^ exponent)%Z
            else (mantissa / 10 ^ (- exponent))%Z in
  if (ms <? -62135510400000)%Z || (253402300800000 <=? ms)%Z
  then Some (if (Z.abs ms <? 9223372036854775807000)%Z
             then ValueError else OverflowError)
  else None.

Fixpoint has_nul (s : string) : bool :=
  match s with
  | EmptyString => false
  | String c s' => Ascii.eqb c (ascii_of_nat 0) || has_nul s'
  end.

(** A store that refuses no row and numbers the receipts from 1 as a
    [SERIAL] column does, behind a driver that binds the strings
    without NUL, on a platform in UTC. *)
Definition accepting (c : tables) : store :=
  {| content := c;
     datetime_error := utc_datetime_error;
     binds := fun s => negb (has_nul s);
     admits_receipt :=
       fun c _ =>
         let id := (Z.of_nat (List.length (receipts c)) + 1)%Z in
         if (id <=? int_max)%Z then Some id else None;
     admits_item := fun _ _ => true |}.

Definition empty_store : store :=
  accepting
    {| users := []; brands := []; receipts := [];
       rewardsreceiptitemlist := []; missing_brands := [];
       missing_users := [] |}.

(** [datetime.fromtimestamp(count / 1000)] *)
Definition fromtimestamp (self : store) (mantissa exponent : Z)
  : result pyval :=
  match datetime_error self mantissa exponent with
  | Some e => Raise e
  | None => Ok (PDatetime mantissa exponent)
  end.

(** [process_timestamp(value)]:
    [datetime.fromtimestamp(value['$date'] / 1000)] for a mapping with
    the key [$date]; the division raises [TypeError] unless the entry
    is a number. *)
Definition process_timestamp (self : store) (value : json) : result pyval :=
  match value with
  | JDict d =>
      match dict_get "$date" d with
      | Some (JInt n) => fromtimestamp self n 0
      | Some (JFloat m e) => fromtimestamp self m e
      | Some (JBool b) => fromtimestamp self (if b then 1 else 0) 0
      | Some _ => Raise TypeError
      | None => Ok (PJson value)
      end
  | _ => Ok (PJson value)
  end.

(** [process_value(value)] *)
Definition process_value (self : store) (value : json) : result pyval :=
  match value with
  | JDict d =>
      if dict_has "$date" d then process_timestamp self value
      else match dict_get "$oid" d with
           | Some oid => Ok (PJson oid)
           | None => Ok (PJson value)
           end
  | _ => Ok (PJson value)
  end.

(** What the driver can turn into a literal: [None], booleans, numbers,
    the strings that it binds, [datetime] values, and lists of such
    values; it adapts no mapping. *)
Fixpoint adaptable_json (binds : string -> bool) (j : json) : bool :=
  match j with
  | JStr s => binds s
  | JList l => forallb (adaptable_json binds) l
  | JDict _ => false
  | _ => true
  end.

Definition adaptable (self : store) (v : pyval) : bool :=
  match v with
  | PJson j => adaptable_json (binds self) j
  | PDatetime _ _ => true
  end.

Fixpoint all_spaces (s : string) : bool :=
  match s with
  | EmptyString => true
  | String c s' => Ascii.eqb c " " && all_spaces s'
  end.

(** The value that a column [VARCHAR(width)] stores for [key]: a longer
    value is an error, unless all the characters in excess are spaces,
    which the store cuts off. *)
Definition stored_key (width : nat) (key : string) : result string :=
  if (String.length key <=? width)%nat then Ok key
  else if all_spaces
            (String.substring width (String.length key - width) key)
       then Ok (String.substring 0 width key)
       else Raise DatabaseError.

(** The statement
    [INSERT INTO t (key, occurrence_count) VALUES (%s, 1)
     ON CONFLICT (key) DO UPDATE SET occurrence_count =
     t.occurrence_count + 1, last_seen = CURRENT_TIMESTAMP]
    on a table created from [exception_tables]: the key column is
    [VARCHAR(width) UNIQUE], [occurrence_count] is [INTEGER], and
    [first_seen] and [last_seen] are [TIMESTAMP] columns that declare
    no default, so that a new row holds [NULL] in both. *)
Definition upsert (width : nat) (now : Z) (key : string) (l : ledger)
  : result ledger :=
  k <- stored_key width key ;;
  match dict_get k l with
  | None =>
      Ok (l ++ [(k, {| occurrence_count := 1;
                       first_seen := None;
                       last_seen := None |})])%list
  | Some e =>
      if (int_max <? occurrence_count e + 1)%Z then Raise DatabaseError
      else
        Ok (DataWarehouseModeler.dict_set k
              {| occurrence_count := occurrence_count e + 1;
                 first_seen := first_seen e;
                 last_seen := Some now |} l)
  end.

(** [track_missing_brand(brandcode)]: the upsert is committed, or
    rolled back when the driver or the statement fails; [now] is the
    value of [CURRENT_TIMESTAMP]. *)
Definition track_missing_brand (now : Z) (brandcode : string)
  (db : store) : store :=
  if binds db brandcode then
    match upsert 255 now brandcode (missing_brands db) with
    | Ok l =>
        with_content db
          {| users := users db; brands := brands db;
             receipts := receipts db;
             rewardsreceiptitemlist := rewardsreceiptitemlist db;
             missing_brands := l; missing_users := missing_users db |}
    | Raise _ => db
    end
  else db.

(** [track_missing_user(user_id)] *)
Definition track_missing_user (now : Z) (user_id : string)
  (db : store) : store :=
  if binds db user_id then
    match upsert 24 now user_id (missing_users db) with
    | Ok l =>
        with_content db
          {| users := users db; brands := brands db;
             receipts := receipts db;
             rewardsreceiptitemlist := rewardsreceiptitemlist db;
             missing_brands := missing_brands db; missing_users := l |}
    | Raise _ => db
    end
  else db.

Definition receipt_columns : list string :=
  ["_id"; "bonuspointsearned"; "bonuspointsearnedreason"; "createdate";
   "datescanned"; "finisheddate"; "modifydate"; "pointsawardeddate";
   "pointsearned"; "purchasedate"; "purchaseditemcount";
   "rewardsreceiptstatus"; "totalspent"; "userid"].

(** [receipt.get(key)] and [self.process_value(receipt.get(key))] *)
Definition plain (obj : json) (key : string) : result pyval :=
  v <- py_get obj key ;; Ok (PJson v).
Definition processed (self : store) (obj : json) (key : string)
  : result pyval :=
  v <- py_get obj key ;; process_value self v.

Fixpoint sequence {A : Type} (rs : list (result A)) : result (list A) :=
  match rs with
  | [] => Ok []
  | r :: tl => a <- r ;; rest <- sequence tl ;; Ok (a :: rest)
  end.

(** The list [receipt_values]. *)
Definition receipt_values (self : store) (receipt : json)
  (user_id : pyval) : result (list pyval) :=
  sequence
    [processed self receipt "_id"; plain receipt "bonusPointsEarned";
     plain receipt "bonusPointsEarnedReason";
     processed self receipt "createDate";
     processed self receipt "dateScanned";
     processed self receipt "finishedDate";
     processed self receipt "modifyDate";
     processed self receipt "pointsAwardedDate";
     plain receipt "pointsEarned";
     processed self receipt "purchaseDate";
     plain receipt "purchasedItemCount";
     plain receipt "rewardsReceiptStatus"; plain receipt "totalSpent";
     Ok user_id].

(** The first part of [insert_receipt_without_items]: the user is
    looked up with [SELECT _id FROM users WHERE _id = %s], and a
    missing one is recorded and replaced by [None].  The statement
    fails for a string that the driver cannot bind, and for a parameter
    that is not a string, which the driver cannot adapt or the store
    cannot compare with the [VARCHAR] key. *)
Definition resolve_user (now : Z) (receipt : json) (db : store)
  : result (store * pyval) :=
  user_id <- processed db receipt "userId" ;;
  if truthy user_id then
    match user_id with
    | PJson (JStr s) =>
        if binds db s then
          if existsb (String.eqb s) (users db) then Ok (db, user_id)
          else Ok (track_missing_user now s db, PJson JNull)
        else Raise DatabaseError
    | _ => Raise DatabaseError
    end
  else Ok (db, user_id).

(** [INSERT INTO receipts (...) VALUES (...) RETURNING receipts_id]
    with the commit: the store with the new row and the returned
    [receipts_id], or [None] when [execute] raises, because the driver
    cannot adapt a value or the store refuses the row. *)
Definition insert_receipt_row (values : list pyval) (db : store)
  : option (store * Z) :=
  let r := combine receipt_columns values in
  if forallb (adaptable db) values then
    match admits_receipt db (content db) r with
    | Some id =>
        Some (with_content db
                {| users := users db; brands := brands db;
                   receipts := (receipts db ++ [r])%list;
                   rewardsreceiptitemlist := rewardsreceiptitemlist db;
                   missing_brands := missing_brands db;
                   missing_users := missing_users db |}, id)
    | None => None
    end
  else None.

(** [insert_receipt_without_items(receipt)]: the store after the call
    and the returned [receipts_id], [None] after an exception.  The
    upsert of the ledger has its own commit, so it survives a later
    rollback. *)
Definition insert_receipt_without_items (now : Z) (receipt : json)
  (db : store) : store * option Z :=
  match resolve_user now receipt db with
  | Raise _ => (db, None)
  | Ok (db1, user_id) =>
      match receipt_values db1 receipt user_id with
      | Raise _ => (db1, None)
      | Ok values =>
          match insert_receipt_row values db1 with
          | Some (db2, id) => (db2, Some id)
          | None => (db1, None)
          end
      end
  end.

Definition item_columns : list string :=
  ["barcode"; "description"; "finalprice"; "itemprice";
   "needsfetchreview"; "partneritemid"; "preventtargetgappoints";
   "quantitypurchased"; "userflaggedbarcode"; "userflaggednewitem";
   "userflaggedprice"; "userflaggedquantity";
   "originalmetabritebarcode"; "originalmetabritedescription";
   "pointsnotawardedreason"; "pointspayerid"; "rewardsgroup";
   "rewardsproductpartnerid"; "brandcode"; "competitorrewardsgroup";
   "discounteditemprice"; "originalreceiptitemtext"; "itemnumber";
   "needsfetchreviewreason"; "originalmetabritequantitypurchased";
   "pointsearned"; "targetprice"; "competitiveproduct";
   "userflaggeddescription"; "deleted"; "priceaftercoupon";
   "metabritecampaignid"; "receipt_id"].

(** The list [item_values]. *)
Definition item_values (item : json) (brandcode : pyval)
  (receipt_id : Z) : result (list pyval) :=
  sequence
    [plain item "barcode"; plain item "description";
     plain item "finalPrice"; plain item "itemPrice";
     plain item "needsFetchReview"; plain item "partnerItemId";
     plain item "preventTargetGapPoints"; plain item "quantityPurchased";
     plain item "userFlaggedBarcode"; plain item "userFlaggedNewItem";
     plain item "userFlaggedPrice"; plain item "userFlaggedQuantity";
     plain item "originalMetaBriteBarcode";
     plain item "originalMetaBriteDescription";
     plain item "pointsNotAwardedReason"; plain item "pointsPayerId";
     plain item "rewardsGroup"; plain item "rewardsProductPartnerId";
     Ok brandcode;
     plain item "competitorRewardsGroup";
     plain item "discountedItemPrice";
     plain item "originalReceiptItemText"; plain item "itemNumber";
     plain item "needsFetchReviewReason";
     plain item "originalMetaBriteQuantityPurchased";
     plain item "pointsEarned"; plain item "targetPrice";
     plain item "competitiveProduct"; plain item "userFlaggedDescription";
     plain item "deleted"; plain item "priceAfterCoupon";
     plain item "metabriteCampaignId";
     Ok (PJson (JInt receipt_id))].

(** The first part of the loop body of [insert_receipt_items]: the
    brand is looked up with [SELECT brandcode FROM brands WHERE
    brandcode = %s] and a missing one is recorded; [brandcode] itself
    is left as it is. *)
Definition resolve_brand (now : Z) (item : json) (db : store)
  : result (store * pyval) :=
  brandcode <- plain item "brandCode" ;;
  if truthy brandcode then
    match brandcode with
    | PJson (JStr s) =>
        if binds db s then
          if existsb (String.eqb s) (brands db) then Ok (db, brandcode)
          else Ok (track_missing_brand now s db, brandcode)
        else Raise DatabaseError
    | _ => Raise DatabaseError
    end
  else Ok (db, brandcode).

(** [INSERT INTO rewardsreceiptitemlist (...) VALUES (...)] with the
    commit, or [None] when [execute] raises, because the driver cannot
    adapt a value or the store refuses the row. *)
Definition insert_item_row (values : list pyval) (db : store)
  : option store :=
  let r := combine item_columns values in
  if forallb (adaptable db) values && admits_item db (content db) r then
    Some (with_content db
            {| users := users db; brands := brands db;
               receipts := receipts db;
               rewardsreceiptitemlist :=
                 (rewardsreceiptitemlist db ++ [r])%list;
               missing_brands := missing_brands db;
               missing_users := missing_users db |})
  else None.

(** One iteration of the loop of [insert_receipt_items]; an exception
    is caught and the loop goes on with the committed store. *)
Definition insert_receipt_item (now : Z) (item : json) (receipt_id : Z)
  (db : store) : store :=
  match resolve_brand now item db with
  | Raise _ => db
  | Ok (db1, brandcode) =>
      match item_values item brandcode receipt_id with
      | Raise _ => db1
      | Ok values =>
          match insert_item_row values db1 with
          | Some db2 => db2
          | None => db1
          end
      end
  end.

(** What [for item in receipt.get('rewardsReceiptItemList', [])]
    iterates over: the elements of a list, the keys of a mapping, the
    characters of a string; any other value is not iterable. *)
Definition items_of (receipt : json) : result (list json) :=
  match receipt with
  | JDict d =>
      match dict_get "rewardsReceiptItemList" d with
      | None => Ok []
      | Some (JList l) => Ok l
      | Some (JDict kvs) => Ok (map (fun kv => JStr (fst kv)) kvs)
      | Some (JStr s) =>
          Ok (map (fun c => JStr (String c EmptyString))
                (list_ascii_of_string s))
      | Some _ => Raise TypeError
      end
  | _ => Raise AttributeError
  end.

(** [insert_receipt_items(receipt, receipt_id)]; [clock i] is the value
    of [CURRENT_TIMESTAMP] while the item at position [i] is loaded. *)
Fixpoint insert_items_from (clock : nat -> Z) (i : nat)
  (items : list json) (receipt_id : Z) (db : store) : store :=
  match items with
  | [] => db
  | item :: rest =>
      insert_items_from clock (S i) rest receipt_id
        (insert_receipt_item (clock i) item receipt_id db)
  end.

Definition insert_receipt_items (clock : nat -> Z) (receipt : json)
  (receipt_id : Z) (db : store) : result store :=
  items <- items_of receipt ;;
  Ok (insert_items_from clock 0 items receipt_id db).




(** The third step of [main]: every receipt is inserted without its
    items; [receipts_with_ids] collects the receipts that returned a
    true [receipts_id], and [skipped_receipts] counts the others. *)
Fixpoint insert_receipts (clock : nat -> Z) (i : nat)
  (receipts : list json) (db : store)
  (receipts_with_ids : list (json * Z)) (skipped_receipts : nat)
  : store * list (json * Z) * nat :=
  match receipts with
  | [] => (db, receipts_with_ids, skipped_receipts)
  | receipt :: rest =>
      let '(db', receipt_id) :=
        insert_receipt_without_items (clock i) receipt db in
      match receipt_id with
      | Some id =>
          if negb (Z.eqb id 0)
          then insert_receipts clock (S i) rest db'
                 (receipts_with_ids ++ [(receipt, id)])%list
                 skipped_receipts
          else insert_receipts clock (S i) rest db' receipts_with_ids
                 (S skipped_receipts)
      | None =>
          insert_receipts clock (S i) rest db' receipts_with_ids
            (S skipped_receipts)
      end
  end.

(** The fourth step of [main]: the items of every receipt of
    [receipts_with_ids] are inserted; an exception of
    [insert_receipt_items] ends the run.  [clock j i] is the value of
    [CURRENT_TIMESTAMP] at item [i] of the receipt at position [j]. *)
Fixpoint insert_all_items (clock : nat -> nat -> Z) (j : nat)
  (receipts_with_ids : list (json * Z)) (db : store) : result store :=
  match receipts_with_ids with
  | [] => Ok db
  | (receipt, receipt_id) :: rest =>
      db' <- insert_receipt_items (clock j) receipt receipt_id db ;;
      insert_all_items clock (S j) rest db'
  end.

End DatabaseIngester.

(* ================================================================= *)
(** * Vocabulary of the properties *)

Import DataWarehouseModeler.
Import DatabaseIngester.

(** [sub] occurs in [s]. *)
Definition Substring (sub s : string) : Prop :=
  exists before after, s = before ++ sub ++ after.

(** The cleaned name in the words of the specification: lower-cased, with
    every [$] and every [.] removed. *)
Definition clean_column_name_stripped (name : string) : string :=
  PyStr.lower (PyStr.replace "."%char "" (PyStr.replace "$"%char "" name)).

(** What [clean_column_name] does to one character. *)
Definition clean_char (c : ascii) : string :=
  if Ascii.eqb c "$" then ""
  else if Ascii.eqb c "." then "_"
  else String (PyStr.lower_ascii c) "".

Fixpoint clean_chars (name : string) : string :=
  match name with
  | EmptyString => EmptyString
  | String c rest => clean_char c ++ clean_chars rest
  end.

(** The storage type of a string value held in a column [name] (already
    lower-cased), in the words of the claim. *)
Inductive string_column_type (name value : string) : string -> Prop :=
| by_date :
    Substring "date" name ->
    string_column_type name value "TIMESTAMP"
| by_amount :
    ~ Substring "date" name ->
    Substring "price" name \/ Substring "spent" name ->
    string_column_type name value "DECIMAL(10,2)"
| by_long_text :
    ~ Substring "date" name ->
    ~ Substring "price" name -> ~ Substring "spent" name ->
    255 < String.length value ->
    string_column_type name value "TEXT"
| by_short_text :
    ~ Substring "date" name ->
    ~ Substring "price" name -> ~ Substring "spent" name ->
    String.length value <= 255 ->
    string_column_type name value "VARCHAR(255)".

(** The population of the brands scenario. *)
Definition brands_population : json :=
  JList [JDict [("_id", JDict [("$oid", JStr "a1")]);
                ("brandCode", JStr "X1");
                ("category", JStr "SNACK")]].

(** The table that [structure["tables"][name]] yields. *)
Definition table_or_fresh (name : string) (st : structure) : table_info :=
  match dict_get name st with Some t => t | None => fresh_table end.

(** The type [ty] is in the type-set of column [col] of table [name]. *)
Definition column_has (st : structure) (name col ty : string) : Prop :=
  exists t tys,
    dict_get name st = Some t
    /\ dict_get col (columns t) = Some tys
    /\ In ty tys.

(** The first line item of the receipt used as an example for lists. *)
Definition first_item : list (string * json) :=
  [("barcode", JStr "4011")].

(** [j] is what the analysis of a field with value [v] may recurse
    into: the value itself, or the first element of a list. *)
Definition sampled (j v : json) : Prop :=
  j = v \/ exists tl, v = JList (j :: tl).

(** Every type recorded for a column of table [name] in [a] is still
    recorded for it in [b]. *)
Definition grows (name : string) (a b : structure) : Prop :=
  forall col ty, column_has a name col ty -> column_has b name col ty.

(** Every type-set of every table is non-empty. *)
Definition typed_columns (t : table_info) : Prop :=
  Forall (fun c => snd c <> []) (columns t).

Definition all_typed (st : structure) : Prop :=
  Forall (fun e => typed_columns (snd e)) st.






(** The model of the brands scenario and the instance after its
    analysis. *)
Definition brands_model : structure * modeler :=
  Eval vm_compute in
    match analyze_structure (new "brands") brands_population with
    | Ok r => r
    | Raise _ => ([], new "brands")
    end.

(** The ledger after the sightings of one key at the given times, oldest
    first. *)
Definition sightings (width : nat) (times : list Z) (key : string)
  (l : ledger) : ledger :=
  fold_left (fun l now =>
               match upsert width now key l with
               | Ok l' => l'
               | Raise _ => l
               end) times l.

(** A receipt with one line item of brand [X1], and a store that knows
    the user [u1] and the brand [B1] only. *)
Definition receipt_with_unknown_brand : json :=
  JDict [("_id", JDict [("$oid", JStr "r1")]);
         ("userId", JStr "u1");
         ("rewardsReceiptItemList",
          JList [JDict [("barcode", JStr "4011");
                        ("brandCode", JStr "X1")]])].

Definition store_with_one_brand : store :=
  accepting
    {| users := ["u1"]; brands := ["B1"]; receipts := [];
       rewardsreceiptitemlist := []; missing_brands := [];
       missing_users := [] |}.

(** The characters of a string. *)
Definition chars (s : string) : list ascii := list_ascii_of_string s.

(** A character that a cleaned column name can hold: neither [$] nor
    [.], and no capital letter. *)
Definition clean_ascii (c : ascii) : Prop :=
  c <> "$"%char /\ c <> "."%char /\ PyStr.lower_ascii c = c.

(** The relationship [rel] is recorded for table [name]. *)
Definition relationship_has (st : structure) (name rel : string) : Prop :=
  exists t, dict_get name st = Some t /\ In rel (relationships t).

(** Table [name], when the model has it, has no column [col]. *)
Definition lacks (name col : string) (st : structure) : Prop :=
  forall t, dict_get name st = Some t -> dict_get col (columns t) = None.

(** A value that the analysis classifies by [infer_data_type]: a
    mapping with [$date] or [$oid], or anything that is neither a mapping
    nor a list that starts with a mapping. *)
Definition classified (value : json) : bool :=
  match value with
  | JDict d => dict_has "$date" d || dict_has "$oid" d
  | JList (JDict _ :: _) => false
  | _ => true
  end.

(** The calls of [add_column] that the analysis makes: the two
    hard-wired columns, and the classification of a value of a field that
    is not special-cased. *)
Inductive column_update (name col ty : string) : Prop :=
| update_userid :
    is_userid col name = true -> ty = "VARCHAR(24)" ->
    column_update name col ty
| update_brandcode :
    is_brandcode col name = true -> ty = "VARCHAR(255)" ->
    column_update name col ty
| update_classified (value : json) :
    special_cased col name = false -> classified value = true ->
    ty = infer_data_type value col ->
    column_update name col ty.

(** Every type recorded in the model satisfies [ok]. *)
Definition all_columns (ok : string -> string -> string -> Prop)
  (st : structure) : Prop :=
  forall name col ty, column_has st name col ty -> ok name col ty.

(** The storage types that a model can hold. *)
Definition known_types : list string :=
  ["NULL"; "TIMESTAMP"; "VARCHAR(24)"; "VARCHAR(255)"; "DECIMAL(10,2)";
   "TEXT"; "INTEGER"; "BOOLEAN"; "ARRAY"; "SERIAL PRIMARY KEY";
   "VARCHAR(255) UNIQUE"; "VARCHAR(24) UNIQUE"].

(** A brand as the source data has it, with a [cpg] reference and a
    category, and the model of its analysis. *)
Definition brand_with_cpg : json :=
  JDict [("_id", JDict [("$oid", JStr "601ac115be37ce2ead437551")]);
         ("barcode", JStr "511111019862");
         ("category", JStr "Baking");
         ("categoryCode", JStr "BAKING");
         ("cpg", JDict [("$id", JDict [("$oid", JStr "601ac114be37ce2ead437550")]);
                        ("$ref", JStr "Cogs")]);
         ("name", JStr "test brand @1612366101024");
         ("topBrand", JBool false)].

Definition brand_with_cpg_model : structure * modeler :=
  Eval vm_compute in
    match analyze_structure (new "brands") (JList [brand_with_cpg]) with
    | Ok r => r
    | Raise _ => ([], new "brands")
    end.

(** A receipt as the source data has it, with a plain user identifier and
    one line item, and the model of its analysis. *)
Definition receipt_document : json :=
  JDict [("_id", JDict [("$oid", JStr "5ff1e1eb0a720f0523000575")]);
         ("bonusPointsEarned", JInt 500);
         ("createDate", JDict [("$date", JInt 1609687531000)]);
         ("pointsEarned", JStr "500.0");
         ("rewardsReceiptItemList",
          JList [JDict [("barcode", JStr "4011");
                        ("brandCode", JStr "X1");
                        ("finalPrice", JStr "26.00")]]);
         ("totalSpent", JStr "26.00");
         ("userId", JStr "5ff1e1eacfcf6c399c274ae6")].

Definition receipt_model : structure * modeler :=
  Eval vm_compute in
    match analyze_structure (new "receipts") (JList [receipt_document]) with
    | Ok r => r
    | Raise _ => ([], new "receipts")
    end.

(** Table [name] keeps in [b] every type and every relationship that it
    has in [a]. *)
Definition keeps (name : string) (a b : structure) : Prop :=
  grows name a b
  /\ forall rel, relationship_has a name rel -> relationship_has b name rel.

(** [isinstance(item, dict)] *)
Definition is_dict (item : json) : bool :=
  match item with JDict _ => true | _ => false end.

(** A first user, and the same user followed by one whose [state] is
    null, with the models of the two populations before the exception
    tables are added. *)
Definition first_user : json :=
  JDict [("_id", JDict [("$oid", JStr "u1")]); ("state", JStr "WI")].

Definition second_user : json :=
  JDict [("_id", JDict [("$oid", JStr "u2")]); ("state", JNull)].

Definition first_user_model : structure :=
  Eval vm_compute in
    match analyze_documents (new "users") (JList [first_user]) with
    | Ok st => st
    | Raise _ => []
    end.

Definition both_users_model : structure :=
  Eval vm_compute in
    match analyze_documents (new "users")
            (JList ([first_user] ++ [second_user])) with
    | Ok st => st
    | Raise _ => []
    end.

(** The model after the [category] field of a brand has been analyzed:
    the literal table [categories] and the relationship on [brands]. *)
Definition model_with_categories : structure :=
  Eval vm_compute in
    match analyze_documents (new "brands")
            (JList [JDict [("category", JStr "Baking")]]) with
    | Ok st => st
    | Raise _ => []
    end.

(** The three records of the hard-wired user reference of a receipt. *)
Definition userid_recorded (st : structure) : Prop :=
  column_has st "receipts" "userid" "VARCHAR(24)"
  /\ relationship_has st "receipts"
       "foreign key relationship: receipts.userid -> users._id"
  /\ relationship_has st "receipts"
       "tracked by missing_users when not in users table".

(** [occurrence_count] of [key] in a ledger, [0] for a key that has no
    entry. *)
Definition count_of (key : string) (l : ledger) : Z :=
  match dict_get key l with
  | Some e => occurrence_count e
  | None => 0%Z
  end.

(** The user that [insert_receipt_without_items] records as missing for
    a receipt: the non-empty string that [userId] unwraps to, when the
    driver binds it and [users] lacks it. *)
Definition missing_user_of (db : store) (receipt : json) : option string :=
  match processed db receipt "userId" with
  | Ok (PJson (JStr s)) =>
      if negb (String.eqb s "") && binds db s
         && negb (existsb (String.eqb s) (users db))
      then Some s else None
  | _ => None
  end.

(** The brand that [insert_receipt_items] records as missing for an item:
    the non-empty string under [brandCode], when the driver binds it and
    [brands] lacks it. *)
Definition missing_brand_of (db : store) (item : json) : option string :=
  match item with
  | JDict d =>
      match dict_get "brandCode" d with
      | Some (JStr s) =>
          if negb (String.eqb s "") && binds db s
             && negb (existsb (String.eqb s) (brands db))
          then Some s else None
      | _ => None
      end
  | _ => None
  end.

(** The keys of an item that [insert_receipt_items] reads, in the order
    of the columns. *)
Definition item_fields : list string :=
  ["barcode"; "description"; "finalPrice"; "itemPrice";
   "needsFetchReview"; "partnerItemId"; "preventTargetGapPoints";
   "quantityPurchased"; "userFlaggedBarcode"; "userFlaggedNewItem";
   "userFlaggedPrice"; "userFlaggedQuantity";
   "originalMetaBriteBarcode"; "originalMetaBriteDescription";
   "pointsNotAwardedReason"; "pointsPayerId"; "rewardsGroup";
   "rewardsProductPartnerId"; "brandCode"; "competitorRewardsGroup";
   "discountedItemPrice"; "originalReceiptItemText"; "itemNumber";
   "needsFetchReviewReason"; "originalMetaBriteQuantityPurchased";
   "pointsEarned"; "targetPrice"; "competitiveProduct";
   "userFlaggedDescription"; "deleted"; "priceAfterCoupon";
   "metabriteCampaignId"].

(** [d.get(key)] *)
Definition get_or_none (d : list (string * json)) (key : string) : json :=
  match dict_get key d with
  | Some v => v
  | None => JNull
  end.

(** The items whose row [insert_receipt_items] hands to the store: the
    mappings whose [brandCode] is absent, false in the sense of
    [if brandcode:], or a string, and whose values the driver can
    adapt. *)
Definition item_accepted (db : store) (item : json) : bool :=
  match item with
  | JDict d =>
      match dict_get "brandCode" d with
      | None => true
      | Some (JStr _) => true
      | Some v => negb (truthy (PJson v))
      end
      && forallb (fun key => adaptable db (PJson (get_or_none d key)))
           item_fields
  | _ => false
  end.

(** The row of an item. *)
Definition item_row (receipt_id : Z) (item : json) : row :=
  match plain item "brandCode" with
  | Ok brandcode =>
      match item_values item brandcode receipt_id with
      | Ok values => combine item_columns values
      | Raise _ => []
      end
  | Raise _ => []
  end.

(** The user of the row of a receipt: what [userId] unwraps to,
    replaced by null when it is a non-empty string that [users]
    lacks. *)
Definition stored_user (db : store) (receipt : json) : pyval :=
  match processed db receipt "userId" with
  | Ok (PJson (JStr s)) =>
      if String.eqb s "" || existsb (String.eqb s) (users db)
      then PJson (JStr s) else PJson JNull
  | Ok v => v
  | Raise _ => PJson JNull
  end.

(** The row of a receipt. *)
Definition receipt_row (db : store) (receipt : json) : row :=
  match receipt_values db receipt (stored_user db receipt) with
  | Ok values => combine receipt_columns values
  | Raise _ => []
  end.

(** [key] is the key under which the ledger stores the missing user of
    the receipt, or the missing brand of the item. *)
Definition is_missing_user (db : store) (key : string) (receipt : json)
  : bool :=
  match missing_user_of db receipt with
  | Some s =>
      match stored_key 24 s with
      | Ok k => String.eqb k key
      | Raise _ => false
      end
  | None => false
  end.

Definition is_missing_brand (db : store) (key : string) (item : json)
  : bool :=
  match missing_brand_of db item with
  | Some s =>
      match stored_key 255 s with
      | Ok k => String.eqb k key
      | Raise _ => false
      end
  | None => false
  end.

(** [kept] holds elements of [all], in their order. *)
Inductive Subsequence {A : Type} : list A -> list A -> Prop :=
| Subsequence_nil : Subsequence [] []
| Subsequence_keep (x : A) (kept all : list A) :
    Subsequence kept all -> Subsequence (x :: kept) (x :: all)
| Subsequence_skip (x : A) (kept all : list A) :
    Subsequence kept all -> Subsequence kept (x :: all).

(** The store accepts every row of a line item. *)
Definition admits_every_item (db : store) : Prop :=
  forall c r, admits_item db c r = true.

(** The count of milliseconds under [$date], when it is a number. *)
Definition milliseconds (millis : json) : option (Z * Z) :=
  match millis with
  | JInt n => Some (n, 0%Z)
  | JFloat m e => Some (m, e)
  | JBool b => Some (if b then 1%Z else 0%Z, 0%Z)
  | _ => None
  end.

(** The platform, the driver and the rules of the store are the same. *)
Definition same_rules (a b : store) : Prop :=
  datetime_error b = datetime_error a
  /\ binds b = binds a
  /\ admits_receipt b = admits_receipt a
  /\ admits_item b = admits_item a.

(** A receipt with a plain user identifier, as the source data has
    it. *)
Definition plain_user_receipt : json :=
  JDict [("_id", JDict [("$oid", JStr "r1")]);
         ("userId", JStr "u1")].

(** A receipt of an unknown user whose [createDate] cannot be
    converted. *)
Definition receipt_with_bad_date : json :=
  JDict [("_id", JDict [("$oid", JStr "r3")]);
         ("createDate", JDict [("$date", JStr "yesterday")]);
         ("userId", JStr "u9")].


(** A value that a [for] loop cannot iterate over. *)
Definition not_iterable (v : json) : bool :=
  match v with
  | JNull | JBool _ | JInt _ | JFloat _ _ => true
  | _ => false
  end.

(** The rows that the fourth step of [main] inserts for one receipt with
    its [receipts_id]. *)
Definition rows_of_receipt (db : store) (entry : json * Z) : list row :=
  match items_of (fst entry) with
  | Ok items => map (item_row (snd entry)) (filter (item_accepted db) items)
  | Raise _ => []
  end.

(** Two receipts with their identifiers, as the third step of [main]
    hands them to the fourth. *)
Definition receipts_with_items : list (json * Z) :=
  [(receipt_with_unknown_brand, 1%Z);
   (JDict [("_id", JDict [("$oid", JStr "r2")]); ("userId", JStr "u1")], 2%Z)].

(** The entry of [key] is kept from ledger [a] to ledger [b]: it is
    still there, with the same [first_seen] and a count that is not
    smaller. *)
Definition entry_kept (key : string) (a b : ledger) : Prop :=
  forall e,
    dict_get key a = Some e ->
    exists e',
      dict_get key b = Some e'
      /\ first_seen e' = first_seen e
      /\ (occurrence_count e <= occurrence_count e')%Z.


(** The mappings that the analysis of [item] under [path] visits, each
    with the table that its fields are recorded in: the item itself, and
    what the analysis recurses into under a field that is not
    special-cased, that is a nested mapping without [$date] and [$oid],
    and the first element of a list when that is a mapping. *)
Inductive visits (self : modeler)
  : json -> string -> list (string * json) -> string -> Prop :=
| visits_item (fields : list (string * json)) (path : string) :
    visits self (JDict fields) path fields (table_name_of self path)
| visits_mapping (fields : list (string * json)) (path key : string)
    (d sub : list (string * json)) (table : string) :
    In (key, JDict d) fields ->
    special_cased (clean_column_name key) (table_name_of self path) = false ->
    dict_has "$date" d || dict_has "$oid" d = false ->
    visits self (JDict d) (clean_column_name key) sub table ->
    visits self (JDict fields) path sub table
| visits_first (fields : list (string * json)) (path key : string)
    (d : list (string * json)) (rest : list json)
    (sub : list (string * json)) (table : string) :
    In (key, JList (JDict d :: rest)) fields ->
    special_cased (clean_column_name key) (table_name_of self path) = false ->
    visits self (JDict d) (clean_column_name key) sub table ->
    visits self (JDict fields) path sub table.

(** Column [col] of table [table] is the cleaned name of a key of a
    mapping that the analysis of [item] visits for that table. *)
Definition column_sampled (self : modeler) (item : json) (path : string)
  (table col : string) : Prop :=
  exists fields key value,
    visits self item path fields table
    /\ In (key, value) fields
    /\ clean_column_name key = col.

(** A column of the literal table [categories]. *)
Definition categories_column (table col ty : string) : Prop :=
  column_has [("categories", categories_table)] table col ty.

(** A brand whose [cpg] is a list of mappings, and a receipt whose
    [userId] is one. *)
Definition brand_with_cpg_list : json :=
  JDict [("name", JStr "Dole");
         ("cpg", JList [JDict [("ref", JStr "Cogs")]])].

Definition receipt_with_user_list : json :=
  JDict [("totalSpent", JStr "26.00");
         ("userId", JList [JDict [("state", JStr "WI")]])].

(** A receipt with two line items, the second with a key of its own. *)
Definition receipt_with_two_items : list (string * json) :=
  [("_id", JDict [("$oid", JStr "r1")])]
  ++ ("rewardsReceiptItemList",
      JList (JDict first_item
             :: [JDict [("barcode", JStr "4012");
                        ("description", JStr "Bananas")]]))
  :: [].

(** The model of a population in a file named [missing_users], analyzed
    by an instance that has analyzed another file before. *)
Definition second_analysis : modeler :=
  {| current_file_stem := "missing_users"; exception_tables_added := true |}.

Definition missing_users_file : json :=
  JList [JDict [("user_id", JStr "5ff1e194b6a9d73a3a9f1052")]].

Definition missing_users_file_model : structure :=
  Eval vm_compute in
    match analyze_structure second_analysis missing_users_file with
    | Ok r => fst r
    | Raise _ => []
    end.

(** A model with one regular table. *)
Definition items_model : structure :=
  [("items",
    {| columns := [("description", ["NULL"; "TEXT"]);
                   ("barcode", ["VARCHAR(255)"])];
       columns_default := true;
       relationships := [] |})].



(** A receipt of a user that [users] lacks, and one with the same
    identifier followed by a space. *)
Definition receipt_of_unknown_user : json :=
  JDict [("_id", JDict [("$oid", JStr "r4")]);
         ("userId", JStr "5ff1e1eacfcf6c399c274ae6")].

Definition receipt_with_padded_user : json :=
  JDict [("_id", JDict [("$oid", JStr "r5")]);
         ("userId", JStr "5ff1e1eacfcf6c399c274ae6 ")].

(** The lookup of the user of a receipt raises no exception: the value
    is false in the sense of [if user_id:], or a string that the driver
    binds. *)
Definition user_resolves (db : store) (v : pyval) : bool :=
  match v with
  | PJson (JStr s) => String.eqb s "" || binds db s
  | _ => negb (truthy v)
  end.

(** The receipts whose row [insert_receipt_without_items] hands to the
    store: [userId] unwraps to a value whose lookup raises no exception,
    the dates convert, and the driver can adapt every value. *)
Definition receipt_storable (db : store) (receipt : json) : bool :=
  match processed db receipt "userId" with
  | Ok v =>
      user_resolves db v
      && match receipt_values db receipt (stored_user db receipt) with
         | Ok values => forallb (adaptable db) values
         | Raise _ => false
         end
  | Raise _ => false
  end.

(** The content of [db] with the ledger [l] of missing users. *)
Definition with_missing_users (db : store) (l : ledger) : tables :=
  {| users := users db; brands := brands db; receipts := receipts db;
     rewardsreceiptitemlist := rewardsreceiptitemlist db;
     missing_brands := missing_brands db; missing_users := l |}.

(** The receipts of a run that are inserted, each with the identifier
    that is returned for it: receipts of the run in their order, whose
    row is handed to the store and admitted under that identifier, and
    all the receipts whose row is handed to the store when the store
    refuses none. *)
Definition inserted_receipts (db : store) (receipts : list json)
  (inserted : list (json * Z)) : Prop :=
  Subsequence (map fst inserted) receipts
  /\ Forall (fun p => receipt_storable db (fst p) = true
                      /\ exists c,
                           admits_receipt db c (receipt_row db (fst p))
                           = Some (snd p)) inserted
  /\ ((forall c x, admits_receipt db c x <> None) ->
      map fst inserted = filter (receipt_storable db) receipts).

(* ================================================================= *)
(** * Properties of the modeler *)

(** ** Strings *)

Lemma prefix_true_iff (a b : string) :
  String.prefix a b = true <-> exists rest, b = a ++ rest.
Proof.
  revert b; induction a as [|c a IH]; intros b.
  - split; [intros _; exists b; reflexivity | intros _; now destruct b].
  - destruct b as [|c' b]; simpl.
    + split; [discriminate | intros [rest H]; discriminate].
    + destruct (ascii_dec c c') as [->|Hne].
      * rewrite IH. split; intros [rest H]; exists rest.
        -- now rewrite H.
        -- now inversion H.
      * split; [discriminate|].
        intros [rest H]. simpl in H. congruence.
Qed.

Lemma contains_unfold (sub s : string) :
  PyStr.contains sub s =
  if String.prefix sub s then true
  else match s with
       | EmptyString => false
       | String _ s' => PyStr.contains sub s'
       end.
Proof. destruct s; reflexivity. Qed.

Lemma contains_true_iff (sub s : string) :
  PyStr.contains sub s = true <-> Substring sub s.
Proof.
  induction s as [|c s IH]; rewrite contains_unfold.
  - destruct (String.prefix sub "") eqn:Hp.
    + split; [intros _|intros _; reflexivity].
      apply prefix_true_iff in Hp. destruct Hp as [rest H].
      exists "", rest. exact H.
    + split; [discriminate|].
      intros [before [after H]].
      destruct before; [|discriminate].
      assert (String.prefix sub "" = true)
        by (apply prefix_true_iff; exists after; exact H).
      congruence.
  - destruct (String.prefix sub (String c s)) eqn:Hp.
    + split; [intros _|intros _; reflexivity].
      apply prefix_true_iff in Hp. destruct Hp as [rest H].
      exists "", rest. exact H.
    + rewrite IH. split.
      * intros [before [after H]].
        exists (String c before), after. simpl. now rewrite H.
      * intros [before [after H]].
        destruct before as [|c' before].
        -- assert (String.prefix sub (String c s) = true)
             by (apply prefix_true_iff; exists after; exact H).
           congruence.
        -- simpl in H. inversion H. exists before, after. reflexivity.
Qed.

Lemma contains_false_iff (sub s : string) :
  PyStr.contains sub s = false <-> ~ Substring sub s.
Proof.
  rewrite <- contains_true_iff.
  destruct (PyStr.contains sub s); split; congruence.
Qed.

(** ** Column names (C6) *)

(** C6, as stated, fails: a dot is not removed but turned into an
    underscore. *)
Lemma clean_column_name_keeps_dot_as_underscore :
  clean_column_name "Item.Price" = "item_price"
  /\ clean_column_name_stripped "Item.Price" = "itemprice"
  /\ clean_column_name "Item.Price" <> clean_column_name_stripped "Item.Price".
Proof.
  repeat split; try reflexivity. discriminate.
Qed.

(** C6, amended: the cleaned name is the raw name read character by
    character, where [$] is dropped, [.] becomes [_] and every other
    character is lower-cased. *)
Theorem clean_column_name_by_char (name : string) :
  clean_column_name name = clean_chars name.
Proof.
  unfold clean_column_name.
  induction name as [|c rest IH]; [reflexivity|].
  cbn [PyStr.replace clean_chars]. unfold clean_char.
  destruct (Ascii.eqb c "$") eqn:Hd; [exact IH|].
  cbn [PyStr.replace].
  destruct (Ascii.eqb c ".") eqn:Hp.
  - cbn [append PyStr.lower]. now rewrite IH.
  - cbn [append PyStr.lower]. now rewrite IH.
Qed.

(** ** Strings and column names (C10) *)

(** C10: the type inferred for a string value is decided by the
    lower-cased column name: [TIMESTAMP] when it contains [date],
    otherwise [DECIMAL(10,2)] when it contains [price] or [spent],
    otherwise [TEXT] for more than 255 characters and [VARCHAR(255)] for
    at most 255. *)
Theorem infer_data_type_string (value column_name : string) :
  string_column_type (PyStr.lower column_name) value
    (infer_data_type (JStr value) column_name).
Proof.
  unfold infer_data_type.
  destruct (PyStr.contains "date" (PyStr.lower column_name)) eqn:Hd.
  - apply by_date. now apply contains_true_iff.
  - apply contains_false_iff in Hd.
    destruct (PyStr.contains "price" (PyStr.lower column_name)) eqn:Hp.
    + apply by_amount; [exact Hd|left; now apply contains_true_iff].
    + destruct (PyStr.contains "spent" (PyStr.lower column_name)) eqn:Hs.
      * apply by_amount; [exact Hd|right; now apply contains_true_iff].
      * apply contains_false_iff in Hp, Hs. simpl.
        destruct (255 <? String.length value)%nat eqn:Hl.
        -- apply by_long_text; auto. now apply Nat.ltb_lt.
        -- apply by_short_text; auto. apply Nat.ltb_ge in Hl. exact Hl.
Qed.

(** ** The storage type of a column *)

Lemma null_last_lt (a b : string) :
  (null_last a <? null_last b)%nat = true <-> a = "NULL" /\ b <> "NULL".
Proof.
  unfold null_last.
  destruct (String.eqb_spec a "NULL"), (String.eqb_spec b "NULL");
    simpl; split; try discriminate; try tauto; intros [? ?]; congruence.
Qed.

Lemma max_from_in (best : string) (xs : list string) :
  In (max_from null_last best xs) (best :: xs).
Proof.
  revert best; induction xs as [|x xs IH]; intros best; simpl.
  - now left.
  - destruct (null_last best <? null_last x)%nat.
    + right. apply IH.
    + destruct (IH best) as [H|H]; [now left | right; now right].
Qed.

Lemma max_from_non_null (best : string) (xs : list string) :
  (exists t, In t (best :: xs) /\ t <> "NULL") ->
  max_from null_last best xs <> "NULL".
Proof.
  revert best; induction xs as [|x xs IH]; intros best [t [Hin Hne]]; simpl.
  - destruct Hin as [<-|[]]. exact Hne.
  - destruct (null_last best <? null_last x)%nat eqn:Hlt.
    + apply null_last_lt in Hlt. destruct Hlt as [_ Hx].
      apply IH. exists x. split; [now left | exact Hx].
    + destruct (String.eqb_spec best "NULL") as [Hb|Hb].
      * destruct (String.eqb_spec x "NULL") as [Hx|Hx].
        -- apply IH. exists t. split; [|exact Hne].
           destruct Hin as [<-|[<-|Hin]]; [congruence|congruence|now right].
        -- assert ((null_last best <? null_last x)%nat = true)
             by (apply null_last_lt; now split).
           congruence.
      * apply IH. exists best. split; [now left | exact Hb].
Qed.

Lemma nullable_true_iff (tys : list string) :
  nullable tys = true <-> In "NULL" tys.
Proof.
  unfold nullable. rewrite existsb_exists. split.
  - intros [x [Hin Heq]]. apply String.eqb_eq in Heq. now subst.
  - intros H. exists "NULL". split; [exact H | apply String.eqb_refl].
Qed.

(** When the type-set of a column holds a type other than ["NULL"], the
    storage type is a member of the set other than ["NULL"], and the
    column line ends in [NULL] when ["NULL"] is in the set and in
    [NOT NULL] when it is not; this holds for every order in which the
    set is iterated. *)
Lemma storage_type_prefers_non_null
  (col_name : string) (data_types : list string) (t : string) :
  In t data_types -> t <> "NULL" ->
  exists data_type,
    storage_type data_types = Ok data_type
    /\ In data_type data_types
    /\ data_type <> "NULL"
    /\ (In "NULL" data_types ->
        column_line col_name data_types
        = Ok (col_name ++ " " ++ data_type ++ " NULL"))
    /\ (~ In "NULL" data_types ->
        column_line col_name data_types
        = Ok (col_name ++ " " ++ data_type ++ " NOT NULL")).
Proof.
  intros Hin Hne.
  destruct data_types as [|x xs]; [destruct Hin|].
  exists (max_from null_last x xs).
  split; [reflexivity|].
  split; [apply max_from_in|].
  split; [apply max_from_non_null; now exists t|].
  unfold column_line, storage_type, py_max, bind.
  split; intros Hnull.
  - apply nullable_true_iff in Hnull. now rewrite Hnull.
  - destruct (nullable (x :: xs)) eqn:Hn; [|reflexivity].
    apply nullable_true_iff in Hn. contradiction.
Qed.

(** ** The brands scenario (C9) *)

(** C9: for the population
    [[{"_id":{"$oid":"a1"},"brandCode":"X1","category":"SNACK"}]] and the
    file stem [brands], the model holds a table [brands] with a column
    [brandcode] whose type-set contains [VARCHAR(255)], a table
    [categories], and on [brands] the relationship
    [foreign key relationship: brands.category_id ->
    categories.category_id]. *)
Theorem brands_scenario :
  exists st self' brands_table data_types,
    analyze_structure (new "brands") brands_population = Ok (st, self')
    /\ dict_get "brands" st = Some brands_table
    /\ dict_get "brandcode" (columns brands_table) = Some data_types
    /\ In "VARCHAR(255)" data_types
    /\ dict_has "categories" st = true
    /\ In "foreign key relationship: brands.category_id -> categories.category_id"
         (relationships brands_table).
Proof.
  do 4 eexists.
  split; [vm_compute; reflexivity|].
  split; [reflexivity|].
  split; [reflexivity|].
  split; [now left|].
  split; [reflexivity|now left].
Qed.

(** ** Mappings, sets and tables *)

Lemma dict_get_set_same {A : Type} (k : string) (v : A) d :
  dict_get k (dict_set k v d) = Some v.
Proof.
  induction d as [|[k' v'] d IH]; simpl.
  - now rewrite String.eqb_refl.
  - destruct (String.eqb k' k) eqn:E; simpl; now rewrite E.
Qed.

Lemma dict_get_set_other {A : Type} (k k' : string) (v : A) d :
  k' <> k -> dict_get k' (dict_set k v d) = dict_get k' d.
Proof.
  intros Hne. induction d as [|[k0 v0] d IH]; simpl.
  - destruct (String.eqb_spec k k'); [congruence | reflexivity].
  - destruct (String.eqb_spec k0 k) as [->|Hk]; simpl.
    + destruct (String.eqb_spec k k'); [congruence | reflexivity].
    + now rewrite IH.
Qed.

Lemma dict_get_app_new {A : Type} (k : string) (v : A) d :
  dict_get k d = None -> dict_get k (d ++ [(k, v)])%list = Some v.
Proof.
  induction d as [|[k0 v0] d IH]; simpl; intros H.
  - now rewrite String.eqb_refl.
  - destruct (String.eqb k0 k); [discriminate | auto].
Qed.

Lemma dict_get_app_other {A : Type} (k k' : string) (v : A) d :
  k' <> k -> dict_get k' (d ++ [(k, v)])%list = dict_get k' d.
Proof.
  intros Hne. induction d as [|[k0 v0] d IH]; simpl.
  - destruct (String.eqb_spec k k'); [congruence | reflexivity].
  - now rewrite IH.
Qed.

Lemma set_add_in (x y : string) (s : list string) :
  In x (set_add y s) <-> x = y \/ In x s.
Proof.
  unfold set_add. destruct (existsb (String.eqb y) s) eqn:E.
  - split; [now right|]. intros [->|H]; [|exact H].
    apply existsb_exists in E. destruct E as [z [Hz Heq]].
    apply String.eqb_eq in Heq. now subst.
  - rewrite in_app_iff. simpl. intuition congruence.
Qed.

Lemma with_table_ok name f st st' :
  with_table name f st = Ok st' ->
  exists t', f (table_or_fresh name st) = Ok t'
             /\ dict_get name st' = Some t'
             /\ forall other, other <> name ->
                  dict_get other st' = dict_get other st.
Proof.
  unfold table_or_fresh.
  revert st'; induction st as [|[k t] st IH]; intros st'; simpl.
  - destruct (f fresh_table) as [t'|e] eqn:Hf; simpl; [|discriminate].
    intros H; inversion H; subst; clear H.
    exists t'. simpl. rewrite String.eqb_refl.
    repeat split; auto.
    intros other Hne. destruct (String.eqb_spec name other); congruence.
  - destruct (String.eqb_spec k name) as [->|Hk].
    + destruct (f t) as [t'|e] eqn:Hf; simpl; [|discriminate].
      intros H; inversion H; subst; clear H.
      exists t'. simpl. rewrite String.eqb_refl.
      repeat split; auto.
      intros other Hne. destruct (String.eqb_spec name other); congruence.
    + destruct (with_table name f st) as [tl'|e] eqn:Hw; simpl;
        [|discriminate].
      intros H; inversion H; subst; clear H.
      destruct (IH tl' eq_refl) as [t' [Hf [Hget Hother]]].
      exists t'. simpl.
      destruct (String.eqb_spec k name); [congruence|].
      repeat split; auto.
      intros other Hne. destruct (String.eqb k other); auto.
Qed.

Lemma with_table_succeeds name f st t' :
  f (table_or_fresh name st) = Ok t' ->
  exists st', with_table name f st = Ok st'.
Proof.
  unfold table_or_fresh.
  induction st as [|[k t] st IH]; simpl; intros Hf.
  - rewrite Hf. simpl. eauto.
  - destruct (String.eqb k name).
    + rewrite Hf. simpl. eauto.
    + destruct (IH Hf) as [st' ->]. simpl. eauto.
Qed.

Lemma add_type_ok col ty t t' :
  add_type col ty t = Ok t' ->
  (exists tys, dict_get col (columns t') = Some tys /\ In ty tys)
  /\ (forall c tys x, dict_get c (columns t) = Some tys -> In x tys ->
        exists tys', dict_get c (columns t') = Some tys' /\ In x tys')
  /\ columns_default t' = columns_default t
  /\ relationships t' = relationships t.
Proof.
  unfold add_type.
  destruct (dict_get col (columns t)) as [tys0|] eqn:Hget.
  - intros H; inversion H; subst; clear H. simpl.
    split; [|split; [|split; reflexivity]].
    + exists (set_add ty tys0). rewrite dict_get_set_same.
      split; [reflexivity | apply set_add_in; now left].
    + intros c tys x Hc Hx.
      destruct (String.eqb_spec c col) as [->|Hne].
      * rewrite dict_get_set_same. eexists; split; [reflexivity|].
        apply set_add_in. right. congruence.
      * rewrite dict_get_set_other by exact Hne. eauto.
  - destruct (columns_default t) eqn:Hdef; [|discriminate].
    intros H; inversion H; subst; clear H. simpl.
    split; [|split; [|split; auto]].
    + exists [ty]. rewrite dict_get_app_new by exact Hget.
      split; [reflexivity | now left].
    + intros c tys x Hc Hx.
      destruct (String.eqb_spec c col) as [->|Hne]; [congruence|].
      rewrite dict_get_app_other by exact Hne. eauto.
Qed.

Lemma add_column_records name col ty st st' :
  add_column name col ty st = Ok st' -> column_has st' name col ty.
Proof.
  unfold add_column. intros H.
  apply with_table_ok in H. destruct H as [t' [Hf [Hget _]]].
  apply add_type_ok in Hf. destruct Hf as [[tys [Hc Hin]] _].
  exists t', tys. auto.
Qed.

Lemma add_column_succeeds name col ty st :
  (forall t, dict_get name st = Some t ->
             columns_default t = true \/ dict_has col (columns t) = true) ->
  exists st', add_column name col ty st = Ok st'.
Proof.
  intros Hplain. unfold add_column.
  assert (exists t', add_type col ty (table_or_fresh name st) = Ok t')
    as [t' Ht'].
  { unfold table_or_fresh, add_type.
    destruct (dict_get name st) as [t|] eqn:Hget.
    - destruct (Hplain t eq_refl) as [Hd|Hc].
      + destruct (dict_get col (columns t)); rewrite ?Hd; eauto.
      + unfold dict_has in Hc.
        destruct (dict_get col (columns t)); [eauto | discriminate].
    - simpl. eauto. }
  eapply with_table_succeeds. exact Ht'.
Qed.

(** Where a recorded type comes from. *)

Lemma dict_get_app_inv {A : Type} (k k' : string) (v v' : A) d :
  dict_get k' (d ++ [(k, v)])%list = Some v' ->
  dict_get k' d = Some v' \/ (dict_get k' d = None /\ k' = k /\ v' = v).
Proof.
  induction d as [|[k0 v0] d IH]; simpl.
  - destruct (String.eqb_spec k k') as [->|]; [|discriminate].
    intros H; inversion H; subst. right. auto.
  - destruct (String.eqb k0 k'); auto.
Qed.

Lemma add_type_inv c ty t t' col tys' x :
  add_type c ty t = Ok t' ->
  dict_get col (columns t') = Some tys' -> In x tys' ->
  (col = c /\ x = ty)
  \/ exists tys, dict_get col (columns t) = Some tys /\ In x tys.
Proof.
  unfold add_type.
  destruct (dict_get c (columns t)) as [tys0|] eqn:Hget.
  - intros H; inversion H; subst; clear H. simpl.
    destruct (String.eqb_spec col c) as [->|Hne].
    + rewrite dict_get_set_same. intros E Hin; inversion E; subst.
      apply set_add_in in Hin. destruct Hin as [->|Hin]; eauto.
    + rewrite dict_get_set_other by exact Hne. eauto.
  - destruct (columns_default t); [|discriminate].
    intros H; inversion H; subst; clear H. simpl.
    intros E Hin. apply dict_get_app_inv in E.
    destruct E as [E|[_ [-> E]]]; [eauto|]. subst tys'.
    destruct Hin as [<-|[]]. now left.
Qed.

Lemma add_column_inv n c ty st st' name col x :
  add_column n c ty st = Ok st' ->
  column_has st' name col x ->
  (name = n /\ col = c /\ x = ty) \/ column_has st name col x.
Proof.
  unfold add_column. intros H [t' [tys' [Hget [Hcol Hin]]]].
  apply with_table_ok in H. destruct H as [t1 [Hf [Hget1 Hother]]].
  destruct (String.eqb_spec name n) as [->|Hne].
  - rewrite Hget1 in Hget. inversion Hget; subst t1.
    destruct (add_type_inv _ _ _ _ _ _ _ Hf Hcol Hin) as [[-> ->]|[tys [Hc Hx]]];
      [now left|].
    right. unfold table_or_fresh in Hc.
    destruct (dict_get n st) as [t0|] eqn:E; [|discriminate].
    exists t0, tys. auto.
  - right. exists t', tys'. rewrite <- Hother by exact Hne. auto.
Qed.

Lemma add_relationship_inv n rel st st' name col x :
  add_relationship n rel st = Ok st' ->
  column_has st' name col x -> column_has st name col x.
Proof.
  unfold add_relationship. intros H [t' [tys' [Hget [Hcol Hin]]]].
  apply with_table_ok in H. destruct H as [t1 [Hf [Hget1 Hother]]].
  destruct (String.eqb_spec name n) as [->|Hne].
  - rewrite Hget1 in Hget. inversion Hget; subst t1.
    unfold add_rel in Hf. inversion Hf; subst; clear Hf. simpl in Hcol.
    unfold table_or_fresh in Hcol.
    destruct (dict_get n st) as [t0|] eqn:E; [|discriminate].
    exists t0, tys'. auto.
  - exists t', tys'. rewrite <- Hother by exact Hne. auto.
Qed.

Lemma dict_set_inv n (v : table_info) st name col x :
  column_has (dict_set n v st) name col x ->
  (name = n /\ exists tys, dict_get col (columns v) = Some tys /\ In x tys)
  \/ column_has st name col x.
Proof.
  intros [t' [tys' [Hget [Hcol Hin]]]].
  destruct (String.eqb_spec name n) as [->|Hne].
  - rewrite dict_get_set_same in Hget. inversion Hget; subst. left. eauto.
  - rewrite dict_get_set_other in Hget by exact Hne.
    right. exists t', tys'. auto.
Qed.

(** ** The later elements of a list *)

Lemma analyze_field_list_tail recurse table_name key first rest rest' st :
  analyze_field recurse table_name (key, JList (first :: rest)) st
  = analyze_field recurse table_name (key, JList (first :: rest')) st.
Proof.
  unfold analyze_field.
  repeat match goal with
         | |- context [if ?c then _ else _] => destruct c; try reflexivity
         end.
Qed.

Lemma analyze_fields_list_tail recurse table_name before key first rest rest'
  after st :
  analyze_fields recurse table_name
    (before ++ (key, JList (first :: rest)) :: after)%list st
  = analyze_fields recurse table_name
      (before ++ (key, JList (first :: rest')) :: after)%list st.
Proof.
  revert st; induction before as [|f before IH]; intros st;
    cbn [app analyze_fields].
  - now rewrite (analyze_field_list_tail _ _ _ _ rest rest').
  - destruct (analyze_field recurse table_name f st); cbn [bind]; auto.
Qed.

(** ** Wrapped dates and identifiers (C8) *)

(** C8, as stated, fails on the fields that are dropped before the
    classification: a [cpg] field holding an identifier wrapper adds no
    column at all. *)
Lemma cpg_wrapper_adds_no_column :
  analyze_recursive (new "brands")
    (JDict [("cpg", JDict [("$oid", JStr "601ac114be37ce2ead437550")])])
    "" []
  = Ok []
  /\ ~ column_has [] "brands" "cpg" "VARCHAR(24)".
Proof.
  split; [reflexivity|].
  intros [t [tys [H _]]]. discriminate.
Qed.

(** C8, amended: for a field that is not special-cased (not [userid] of
    [receipts], [brandcode] of [rewardsreceiptitemlist], [category] or
    [categorycode] of [brands], nor [cpg]) and whose value is a mapping
    with the key [$date], or with [$oid] and without [$date], the
    analysis does nothing but add [TIMESTAMP], or [VARCHAR(24)], to the
    type-set of the field's column in the owning table, whatever the
    recursion would do; the type is in the type-set whenever that
    addition returns, and it returns when the owning table is not a
    literal table that lacks the column. *)
Theorem wrapper_recorded_as_scalar
  (recurse : json -> string -> structure -> result structure)
  (table_name key : string) (d : list (string * json)) (st : structure) :
  special_cased (clean_column_name key) table_name = false ->
  dict_has "$date" d = true \/ dict_has "$oid" d = true ->
  let data_type :=
    if dict_has "$date" d then "TIMESTAMP" else "VARCHAR(24)" in
  analyze_field recurse table_name (key, JDict d) st
  = add_column table_name (clean_column_name key) data_type st
  /\ (forall st',
        add_column table_name (clean_column_name key) data_type st = Ok st' ->
        column_has st' table_name (clean_column_name key) data_type)
  /\ ((forall t, dict_get table_name st = Some t ->
         columns_default t = true
         \/ dict_has (clean_column_name key) (columns t) = true) ->
      exists st',
        add_column table_name (clean_column_name key) data_type st = Ok st').
Proof.
  intros Hs Hw data_type.
  split; [|split].
  - unfold special_cased in Hs.
    repeat (apply orb_false_iff in Hs; destruct Hs as [Hs ?]).
    unfold analyze_field.
    repeat match goal with H : _ = false |- _ => rewrite H; clear H end.
    unfold infer_data_type, data_type.
    destruct (dict_has "$date" d); [reflexivity|].
    destruct Hw as [Hw|Hw]; [discriminate|]. now rewrite Hw.
  - intros st'. apply add_column_records.
  - apply add_column_succeeds.
Qed.

Lemma wrapper_recorded_as_scalar_witness :
  analyze_field (analyze_recursive (new "receipts")) "receipts"
    ("createDate", JDict [("$date", JInt 1609687531000)]) []
  = add_column "receipts" "createdate" "TIMESTAMP" []
  /\ (forall st',
        add_column "receipts" "createdate" "TIMESTAMP" [] = Ok st' ->
        column_has st' "receipts" "createdate" "TIMESTAMP")
  /\ exists st', add_column "receipts" "createdate" "TIMESTAMP" [] = Ok st'.
Proof.
  destruct (wrapper_recorded_as_scalar (analyze_recursive (new "receipts"))
              "receipts" "createDate" [("$date", JInt 1609687531000)] [])
    as [Hfield [Hrec Hok]].
  - reflexivity.
  - left. reflexivity.
  - split; [exact Hfield|]. split; [exact Hrec|].
    apply Hok. intros t Ht. discriminate.
Defined.

(** ** What the analysis preserves *)

(** A relation between the model before and after that every primitive
    update satisfies is satisfied by the whole analysis. *)
Section Preservation.
Variable R : structure -> structure -> Prop.
Hypothesis R_refl : forall st, R st st.
Hypothesis R_trans : forall a b c, R a b -> R b c -> R a c.
Hypothesis R_add_column :
  forall name col ty st st', add_column name col ty st = Ok st' -> R st st'.
Hypothesis R_add_relationship :
  forall name rel st st', add_relationship name rel st = Ok st' -> R st st'.
Hypothesis R_categories :
  forall st, R st (dict_set "categories" categories_table st).

Lemma analyze_field_preserves recurse table_name key value st st' :
  (forall j path a b, sampled j value -> recurse j path a = Ok b -> R a b) ->
  analyze_field recurse table_name (key, value) st = Ok st' -> R st st'.
Proof.
  intros Hrec. unfold analyze_field.
  assert (forall name col ty s s', add_column name col ty s = Ok s' ->
                                   R s s') as Hcol by eauto.
  assert (forall name rel s s', add_relationship name rel s = Ok s' ->
                                R s s') as Hrel by eauto.
  destruct (is_userid _ _).
  { destruct (add_column _ _ _ st) as [s1|] eqn:H1; cbn [bind];
      [|discriminate].
    destruct (add_relationship _ _ s1) as [s2|] eqn:H2; cbn [bind];
      [|discriminate].
    intros H3. apply R_trans with s1; [eauto|].
    apply R_trans with s2; eauto. }
  destruct (is_brandcode _ _).
  { destruct (add_column _ _ _ st) as [s1|] eqn:H1; cbn [bind];
      [|discriminate].
    destruct (add_relationship _ _ s1) as [s2|] eqn:H2; cbn [bind];
      [|discriminate].
    intros H3. apply R_trans with s1; [eauto|].
    apply R_trans with s2; eauto. }
  destruct (is_category _ _).
  { intros H.
    apply R_trans with (dict_set "categories" categories_table st); eauto. }
  destruct (is_categorycode _ _).
  { intros H; inversion H; subst; auto. }
  destruct (is_cpg _).
  { intros H; inversion H; subst; auto. }
  destruct value as [| | | | |l|d]; eauto.
  - destruct l as [|first tl]; eauto.
    destruct first; eauto.
    match goal with
    | |- context [if ?c then _ else _] => destruct c
    end.
    + destruct (add_relationship _ _ st) as [s1|] eqn:H1; cbn [bind];
        [|discriminate].
      intros H. apply R_trans with s1; [eauto|].
      eapply Hrec; [|exact H]. right. eauto.
    + cbn [bind]. intros H. eapply Hrec; [|exact H]. right. eauto.
  - destruct (dict_has "$date" d || dict_has "$oid" d); eauto.
    destruct (negb _).
    + intros H. eapply Hrec; [|exact H]. now left.
    + intros H; inversion H; subst; auto.
Qed.

Lemma analyze_fields_preserves recurse table_name fields :
  Forall (fun field =>
            forall j path a b, sampled j (snd field) ->
                               recurse j path a = Ok b -> R a b) fields ->
  forall st st',
    analyze_fields recurse table_name fields st = Ok st' -> R st st'.
Proof.
  induction 1 as [|[key value] fields Hf _ IH]; intros st st';
    cbn [analyze_fields].
  - intros H; inversion H; subst; auto.
  - destruct (analyze_field recurse table_name (key, value) st)
      as [s1|] eqn:H1; cbn [bind]; [|discriminate].
    intros H2. eapply R_trans.
    + eapply analyze_field_preserves; [exact Hf | exact H1].
    + eapply IH; exact H2.
Qed.

Lemma analyze_recursive_preserves self item :
  forall path st st',
    analyze_recursive self item path st = Ok st' -> R st st'.
Proof.
  pose (Q := fun j => forall path st st',
               analyze_recursive self j path st = Ok st' -> R st st').
  assert (forall j, Q j /\ forall first tl, j = JList (first :: tl) -> Q first)
    as Hall.
  { induction j as [| | | | |l Hl|kvs Hkvs] using json_nested_ind;
      try solve [split; [intros path st st' H; inversion H; subst; auto
                        | intros first tl H; discriminate]].
    - split; [intros path st st' H; inversion H; subst; auto|].
      intros first tl H. inversion H; subst.
      inversion Hl; subst. tauto.
    - split; [|intros first tl H; discriminate].
      intros path st st'. cbn [analyze_recursive].
      apply analyze_fields_preserves.
      eapply Forall_impl; [|exact Hkvs].
      intros [key value] [HQ Hfirst] j p a b Hs Hr. simpl in *.
      destruct Hs as [->|[tl ->]].
      + eapply HQ. exact Hr.
      + eapply Hfirst; [reflexivity | exact Hr]. }
  apply Hall.
Qed.

Lemma analyze_fields_preserves_all self table_name fields st st' :
  analyze_fields (analyze_recursive self) table_name fields st = Ok st' ->
  R st st'.
Proof.
  apply analyze_fields_preserves.
  apply Forall_forall. intros field _ j path a b _.
  apply analyze_recursive_preserves.
Qed.

Lemma analyze_items_preserves self items :
  forall st st', analyze_items self items st = Ok st' -> R st st'.
Proof.
  induction items as [|item items IH]; intros st st'; cbn [analyze_items].
  - intros H; inversion H; subst; auto.
  - destruct (analyze_recursive self item "" st) as [s1|] eqn:H1;
      cbn [bind]; [|discriminate].
    intros H2. eapply R_trans.
    + eapply analyze_recursive_preserves. exact H1.
    + eapply IH. exact H2.
Qed.
End Preservation.

(** ** Type-sets only grow *)

Lemma add_column_mono n c t st st' :
  add_column n c t st = Ok st' ->
  forall name col ty, column_has st name col ty -> column_has st' name col ty.
Proof.
  unfold add_column. intros H name col ty [t0 [tys [Hget [Hcol Hin]]]].
  apply with_table_ok in H. destruct H as [t' [Hf [Hget' Hother]]].
  destruct (String.eqb_spec name n) as [->|Hne].
  - unfold table_or_fresh in Hf. rewrite Hget in Hf.
    apply add_type_ok in Hf. destruct Hf as [_ [Hkeep _]].
    destruct (Hkeep col tys ty Hcol Hin) as [tys' [Hc' Hin']].
    exists t', tys'. auto.
  - exists t0, tys. rewrite Hother by exact Hne. auto.
Qed.

Lemma add_relationship_mono n rel st st' :
  add_relationship n rel st = Ok st' ->
  forall name col ty, column_has st name col ty -> column_has st' name col ty.
Proof.
  unfold add_relationship. intros H name col ty [t0 [tys [Hget [Hcol Hin]]]].
  apply with_table_ok in H. destruct H as [t' [Hf [Hget' Hother]]].
  destruct (String.eqb_spec name n) as [->|Hne].
  - unfold table_or_fresh in Hf. rewrite Hget in Hf.
    unfold add_rel in Hf. inversion Hf; subst; clear Hf.
    eexists; exists tys. split; [exact Hget'|]. simpl. auto.
  - exists t0, tys. rewrite Hother by exact Hne. auto.
Qed.

Lemma dict_set_mono n (v : table_info) st name col ty :
  name <> n -> column_has st name col ty ->
  column_has (dict_set n v st) name col ty.
Proof.
  intros Hne [t0 [tys [Hget H]]].
  exists t0, tys. rewrite dict_get_set_other by exact Hne. auto.
Qed.

Lemma analyze_fields_grows self name table_name fields st st' :
  name <> "categories" ->
  analyze_fields (analyze_recursive self) table_name fields st = Ok st' ->
  grows name st st'.
Proof.
  intros Hne. apply (analyze_fields_preserves_all (grows name));
    unfold grows; auto.
  - intros; eapply add_column_mono; eauto.
  - intros; eapply add_relationship_mono; eauto.
  - intros; apply dict_set_mono; auto.
Qed.


(** ** Lists are sampled by their first element (C7) *)

Lemma special_cased_false_parts (clean_key table_name : string) :
  special_cased clean_key table_name = false ->
  is_userid clean_key table_name = false
  /\ is_brandcode clean_key table_name = false
  /\ is_category clean_key table_name = false
  /\ is_categorycode clean_key table_name = false
  /\ is_cpg clean_key = false.
Proof.
  unfold special_cased. intros Hs.
  repeat (apply orb_false_iff in Hs; destruct Hs as [Hs ?]). auto.
Qed.

Ltac not_special H :=
  apply special_cased_false_parts in H;
  destruct H as [?Hu [?Hb [?Hc [?Hcc ?Hcpg]]]];
  unfold analyze_field;
  repeat match goal with
         | E : _ = false |- _ => rewrite E
         end.

Lemma analyze_field_classified recurse table_name key value st :
  special_cased (clean_column_name key) table_name = false ->
  classified value = true ->
  analyze_field recurse table_name (key, value) st
  = add_column table_name (clean_column_name key)
      (infer_data_type value (clean_column_name key)) st.
Proof.
  intros Hs Hcl. not_special Hs.
  destruct value as [| | | | |l|d]; try reflexivity.
  - destruct l as [|first tl]; [reflexivity|].
    destruct first; try reflexivity. discriminate.
  - cbn [classified] in Hcl. now rewrite Hcl.
Qed.

Lemma analyze_field_mapping recurse table_name key d st :
  special_cased (clean_column_name key) table_name = false ->
  dict_has "$date" d || dict_has "$oid" d = false ->
  analyze_field recurse table_name (key, JDict d) st
  = recurse (JDict d) (clean_column_name key) st.
Proof.
  intros Hs Hw. not_special Hs.
  unfold is_cpg in Hcpg. now rewrite Hcpg.
Qed.

Lemma analyze_field_first recurse table_name key d rest st :
  special_cased (clean_column_name key) table_name = false ->
  analyze_field recurse table_name (key, JList (JDict d :: rest)) st
  = (st' <- (if String.eqb (clean_column_name key) "rewardsreceiptitemlist"
             then add_relationship table_name
                    "one_to_many relationship with rewardsreceiptitemlist (receipt_id)"
                    st
             else Ok st) ;;
     recurse (JDict d) (clean_column_name key) st').
Proof. intros Hs. now not_special Hs. Qed.

Lemma analyze_fields_at recurse table_name field fields :
  In field fields ->
  forall st st',
    analyze_fields recurse table_name fields st = Ok st' ->
    exists s0 s1 rest,
      analyze_field recurse table_name field s0 = Ok s1
      /\ analyze_fields recurse table_name rest s1 = Ok st'.
Proof.
  induction fields as [|f fields IH]; intros Hin st st'; [destruct Hin|].
  cbn [analyze_fields].
  destruct (analyze_field recurse table_name f st) as [s1|] eqn:H1;
    cbn [bind]; [|discriminate].
  intros H2. destruct Hin as [->|Hin].
  - exists st, s1, fields. auto.
  - eapply IH; eauto.
Qed.

(** A classified field of a visited mapping is recorded in the table of
    that mapping. *)
Lemma visited_field_recorded self item path fields table :
  visits self item path fields table ->
  forall key value st st',
    In (key, value) fields ->
    classified value = true ->
    special_cased (clean_column_name key) table = false ->
    table <> "categories" ->
    analyze_recursive self item path st = Ok st' ->
    column_has st' table (clean_column_name key)
      (infer_data_type value (clean_column_name key)).
Proof.
  induction 1 as [fields path
                 |fields path key0 d sub table Hin0 Hs0 Hw Hv IH
                 |fields path key0 d rest sub table Hin0 Hs0 Hv IH];
    intros key value st st' Hin Hcl Hs Hne; cbn [analyze_recursive];
    intros Han.
  - destruct (analyze_fields_at _ _ _ _ Hin _ _ Han)
      as [s0 [s1 [rest [H1 H2]]]].
    rewrite analyze_field_classified in H1 by assumption.
    apply add_column_records in H1.
    eapply analyze_fields_grows; eauto.
  - destruct (analyze_fields_at _ _ _ _ Hin0 _ _ Han)
      as [s0 [s1 [tl [H1 H2]]]].
    rewrite analyze_field_mapping in H1 by assumption.
    eapply analyze_fields_grows; [exact Hne | exact H2 |].
    eapply IH; eauto.
  - destruct (analyze_fields_at _ _ _ _ Hin0 _ _ Han)
      as [s0 [s1 [tl [H1 H2]]]].
    rewrite analyze_field_first in H1 by assumption.
    eapply analyze_fields_grows; [exact Hne | exact H2 |].
    destruct (if String.eqb (clean_column_name key0) "rewardsreceiptitemlist"
              then _ else _) as [s|]; cbn [bind] in H1; [|discriminate].
    eapply IH; eauto.
Qed.

(** Every recorded type is there before the field is analyzed, belongs
    to the literal table [categories], is recorded for the key of the
    field itself, or comes from the recursion. *)
Lemma analyze_field_provenance self table_name key value st st' table c ty :
  (forall j path a b,
     sampled j value ->
     analyze_recursive self j path a = Ok b ->
     column_has b table c ty ->
     column_has a table c ty \/ categories_column table c ty
     \/ column_sampled self j path table c) ->
  analyze_field (analyze_recursive self) table_name (key, value) st = Ok st' ->
  column_has st' table c ty ->
  column_has st table c ty \/ categories_column table c ty
  \/ (table = table_name /\ clean_column_name key = c)
  \/ (special_cased (clean_column_name key) table_name = false
      /\ exists d,
           ((value = JDict d
             /\ dict_has "$date" d || dict_has "$oid" d = false)
            \/ exists rest, value = JList (JDict d :: rest))
           /\ column_sampled self (JDict d) (clean_column_name key) table c).
Proof.
  intros Hrec. unfold analyze_field.
  assert (forall a b,
            add_column table_name (clean_column_name key) b a = Ok st' ->
            column_has st' table c ty ->
            column_has a table c ty
            \/ categories_column table c ty
            \/ (table = table_name /\ clean_column_name key = c)
            \/ (special_cased (clean_column_name key) table_name = false
                /\ exists d,
                     ((value = JDict d
                       /\ dict_has "$date" d || dict_has "$oid" d = false)
                      \/ exists rest, value = JList (JDict d :: rest))
                     /\ column_sampled self (JDict d) (clean_column_name key)
                          table c)) as Hcol.
  { intros a b H Hx.
    destruct (add_column_inv _ _ _ _ _ _ _ _ H Hx) as [[-> [-> _]]|Hx'];
      auto. }
  destruct (is_userid _ _) eqn:Hu.
  { destruct (add_column _ _ _ st) as [s1|] eqn:H1; cbn [bind];
      [|discriminate].
    destruct (add_relationship _ _ s1) as [s2|] eqn:H2; cbn [bind];
      [|discriminate].
    intros H3 Hx.
    apply (add_relationship_inv _ _ _ _ _ _ _ H3) in Hx.
    apply (add_relationship_inv _ _ _ _ _ _ _ H2) in Hx.
    destruct (add_column_inv _ _ _ _ _ _ _ _ H1 Hx) as [[-> [-> _]]|Hx'];
      auto. }
  destruct (is_brandcode _ _) eqn:Hb.
  { destruct (add_column _ _ _ st) as [s1|] eqn:H1; cbn [bind];
      [|discriminate].
    destruct (add_relationship _ _ s1) as [s2|] eqn:H2; cbn [bind];
      [|discriminate].
    intros H3 Hx.
    apply (add_relationship_inv _ _ _ _ _ _ _ H3) in Hx.
    apply (add_relationship_inv _ _ _ _ _ _ _ H2) in Hx.
    destruct (add_column_inv _ _ _ _ _ _ _ _ H1 Hx) as [[-> [-> _]]|Hx'];
      auto. }
  destruct (is_category _ _) eqn:Hc.
  { intros H Hx.
    apply (add_relationship_inv _ _ _ _ _ _ _ H) in Hx.
    destruct (dict_set_inv _ _ _ _ _ _ Hx) as [[-> [tys [Hg Hin]]]|Hx'];
      [|auto].
    right. left. exists categories_table, tys. auto. }
  destruct (is_categorycode _ _) eqn:Hcc.
  { intros H; inversion H; subst; auto. }
  destruct (is_cpg _) eqn:Hcpg.
  { intros H; inversion H; subst; auto. }
  assert (special_cased (clean_column_name key) table_name = false) as Hs
    by (unfold special_cased; now rewrite Hu, Hb, Hc, Hcc, Hcpg).
  destruct value as [| | | | |l|d]; eauto.
  - destruct l as [|first tl]; eauto.
    destruct first as [| | | | | |d]; eauto.
    intros H Hx.
    assert (exists s1,
              (s1 = st
               \/ exists rel, add_relationship table_name rel st = Ok s1)
              /\ analyze_recursive self (JDict d) (clean_column_name key) s1
                 = Ok st') as [s1 [Hs1 Hr]].
    { destruct (String.eqb (clean_column_name key) "rewardsreceiptitemlist").
      - destruct (add_relationship _ _ st) as [s1|] eqn:H1; cbn [bind] in H;
          [|discriminate].
        exists s1. split; [right; eauto | exact H].
      - exists st. split; [now left | exact H]. }
    destruct (Hrec (JDict d) _ _ _ (or_intror (ex_intro _ tl eq_refl)) Hr Hx)
      as [Hx'|[Hx'|Hx']]; auto.
    + left. destruct Hs1 as [->|[rel Hrel]]; [exact Hx'|].
      eapply add_relationship_inv; eauto.
    + right. right. right. split; [exact Hs|].
      exists d. split; [right; eauto | exact Hx'].
  - destruct (dict_has "$date" d || dict_has "$oid" d) eqn:Hw; eauto.
    destruct (negb _).
    + intros H Hx.
      destruct (Hrec (JDict d) _ _ _ (or_introl eq_refl) H Hx)
        as [Hx'|[Hx'|Hx']]; auto.
      right. right. right. split; [exact Hs|].
      exists d. split; [left; auto | exact Hx'].
    + intros H; inversion H; subst; auto.
Qed.

Lemma analyze_fields_provenance self path fields table c ty :
  (forall key value j p a b,
     In (key, value) fields ->
     sampled j value ->
     analyze_recursive self j p a = Ok b ->
     column_has b table c ty ->
     column_has a table c ty \/ categories_column table c ty
     \/ column_sampled self j p table c) ->
  forall fs, incl fs fields ->
  forall st st',
    analyze_fields (analyze_recursive self) (table_name_of self path) fs st
    = Ok st' ->
    column_has st' table c ty ->
    column_has st table c ty \/ categories_column table c ty
    \/ column_sampled self (JDict fields) path table c.
Proof.
  intros Hrec.
  induction fs as [|[key value] fs IH]; intros Hincl st st';
    cbn [analyze_fields].
  - intros H; inversion H; subst; auto.
  - destruct (analyze_field (analyze_recursive self)
                (table_name_of self path) (key, value) st)
      as [s1|] eqn:H1; cbn [bind]; [|discriminate].
    intros H2 Hx.
    assert (In (key, value) fields) as Hin by (apply Hincl; now left).
    assert (incl fs fields) as Hincl'
      by (intros x Hx0; apply Hincl; now right).
    destruct (IH Hincl' _ _ H2 Hx) as [Hx1|[Hx1|Hx1]]; auto.
    destruct (analyze_field_provenance self _ _ _ _ _ _ _ _
                (fun j p a b => Hrec key value j p a b Hin) H1 Hx1)
      as [Hx0|[Hx0|[[-> Hk]|[Hs [d [Hv [sub [k [v [Hvis [Hkv Hk]]]]]]]]]]];
      auto; right; right.
    + exists fields, key, value. split; [constructor | auto].
    + exists sub, k, v. split; [|auto].
      destruct Hv as [[-> Hw]|[rest ->]].
      * eapply visits_mapping; eauto.
      * eapply visits_first; eauto.
Qed.

(** Every type that the analysis of an item records is the type of a
    column of the literal table [categories], or of a column named after
    a key of a mapping that the analysis visits. *)
Lemma analyze_recursive_provenance self table c ty item :
  forall path st st',
    analyze_recursive self item path st = Ok st' ->
    column_has st' table c ty ->
    column_has st table c ty \/ categories_column table c ty
    \/ column_sampled self item path table c.
Proof.
  pose (Q := fun j => forall path st st',
               analyze_recursive self j path st = Ok st' ->
               column_has st' table c ty ->
               column_has st table c ty \/ categories_column table c ty
               \/ column_sampled self j path table c).
  assert (forall j, Q j /\ forall first tl, j = JList (first :: tl) -> Q first)
    as Hall.
  { induction j as [| | | | |l Hl|kvs Hkvs] using json_nested_ind;
      try solve [split; [intros path st st' H; inversion H; subst; auto
                        | intros first tl H; discriminate]].
    - split; [intros path st st' H; inversion H; subst; auto|].
      intros first tl H. inversion H; subst.
      inversion Hl; subst. tauto.
    - split; [|intros first tl H; discriminate].
      intros path st st'. cbn [analyze_recursive].
      apply analyze_fields_provenance; [|apply incl_refl].
      intros key value j p a b Hin Hsam.
      rewrite Forall_forall in Hkvs.
      destruct (Hkvs _ Hin) as [HQ Hfirst]. simpl in *.
      destruct Hsam as [->|[tl ->]].
      + apply HQ.
      + eapply Hfirst. reflexivity. }
  apply Hall.
Qed.

(** C7, as stated, fails: a list under a special-cased field is not
    sampled at all.  The mapping in the list under [cpg] adds no table
    and no column, and neither does the one under [userId] of a
    receipt, whose column is hard-wired. *)
Lemma special_cased_list_not_sampled :
  analyze_recursive (new "brands") brand_with_cpg_list "" []
  = analyze_recursive (new "brands") (JDict [("name", JStr "Dole")]) "" []
  /\ (exists st,
        analyze_recursive (new "brands") brand_with_cpg_list "" [] = Ok st
        /\ dict_get "cpg" st = None
        /\ forall table ty, ~ column_has st table "ref" ty)
  /\ (exists st,
        analyze_recursive (new "receipts") receipt_with_user_list "" []
        = Ok st
        /\ dict_get "userid" st = None
        /\ forall table ty, ~ column_has st table "state" ty).
Proof.
  split; [reflexivity|].
  split.
  - eexists. split; [vm_compute; reflexivity|].
    split; [reflexivity|].
    intros table ty [t [tys [Hget [Hcol _]]]].
    cbn [dict_get] in Hget.
    destruct (String.eqb "brands" table); [|discriminate].
    inversion Hget; subst. discriminate.
  - eexists. split; [vm_compute; reflexivity|].
    split; [reflexivity|].
    intros table ty [t [tys [Hget [Hcol _]]]].
    cbn [dict_get] in Hget.
    destruct (String.eqb "receipts" table); [|discriminate].
    inversion Hget; subst. discriminate.
Qed.

(** C7, amended: for a list-valued field that is not special-cased and
    whose first element is a mapping, the analysis of the field is the
    recursion into that first element, after the relationship of
    [rewardsreceiptitemlist] when the field has that name; every
    classified field of the first element that is not special-cased is
    recorded in the child table, unless that is the literal table
    [categories]; the model does not depend on the later elements; and
    every column of the model was there before, is a column of the
    literal [categories], or is named after a key that the analysis
    visits in the document with the list cut down to its first element,
    so that a key that occurs only in later elements adds no column. *)
Theorem list_sampled_by_first_element
  (self : modeler) (before after : list (string * json)) (key : string)
  (d : list (string * json)) (rest : list json) (path : string) :
  special_cased (clean_column_name key) (table_name_of self path) = false ->
  (forall st,
     analyze_field (analyze_recursive self) (table_name_of self path)
       (key, JList (JDict d :: rest)) st
     = (st' <- (if String.eqb (clean_column_name key)
                     "rewardsreceiptitemlist"
                then add_relationship (table_name_of self path)
                       "one_to_many relationship with rewardsreceiptitemlist (receipt_id)"
                       st
                else Ok st) ;;
        analyze_recursive self (JDict d) (clean_column_name key) st'))
  /\ (forall st st' k v,
        analyze_recursive self
          (JDict (before ++ (key, JList (JDict d :: rest)) :: after)%list)
          path st = Ok st' ->
        In (k, v) d ->
        classified v = true ->
        special_cased (clean_column_name k)
          (table_name_of self (clean_column_name key)) = false ->
        table_name_of self (clean_column_name key) <> "categories" ->
        column_has st' (table_name_of self (clean_column_name key))
          (clean_column_name k) (infer_data_type v (clean_column_name k)))
  /\ (forall st,
        analyze_recursive self
          (JDict (before ++ (key, JList (JDict d :: rest)) :: after)%list)
          path st
        = analyze_recursive self
            (JDict (before ++ (key, JList [JDict d]) :: after)%list) path st)
  /\ (forall st st' table c ty,
        analyze_recursive self
          (JDict (before ++ (key, JList (JDict d :: rest)) :: after)%list)
          path st = Ok st' ->
        column_has st' table c ty ->
        column_has st table c ty \/ categories_column table c ty
        \/ column_sampled self
             (JDict (before ++ (key, JList [JDict d]) :: after)%list)
             path table c).
Proof.
  intros Hs.
  assert (forall st,
            analyze_recursive self
              (JDict (before ++ (key, JList (JDict d :: rest)) :: after)%list)
              path st
            = analyze_recursive self
                (JDict (before ++ (key, JList [JDict d]) :: after)%list)
                path st) as Htail
    by (intros st; cbn [analyze_recursive]; apply analyze_fields_list_tail).
  split; [intros st; now apply analyze_field_first|].
  split; [|split; [exact Htail|]].
  - intros st st' k v Han Hin Hcl Hsk Hne.
    eapply visited_field_recorded; [| exact Hin | exact Hcl | exact Hsk
                                    | exact Hne | exact Han].
    eapply visits_first;
      [apply in_elt | exact Hs | apply visits_item].
  - intros st st' table c ty Han Hx. rewrite Htail in Han.
    eapply analyze_recursive_provenance; eauto.
Qed.

Lemma list_sampled_by_first_element_witness :
  (forall st,
     analyze_field (analyze_recursive (new "receipts"))
       (table_name_of (new "receipts") "")
       ("rewardsReceiptItemList",
        JList (JDict first_item
               :: [JDict [("barcode", JStr "4012");
                          ("description", JStr "Bananas")]])) st
     = (st' <- (if String.eqb (clean_column_name "rewardsReceiptItemList")
                     "rewardsreceiptitemlist"
                then add_relationship (table_name_of (new "receipts") "")
                       "one_to_many relationship with rewardsreceiptitemlist (receipt_id)"
                       st
                else Ok st) ;;
        analyze_recursive (new "receipts") (JDict first_item)
          (clean_column_name "rewardsReceiptItemList") st'))
  /\ (forall st st' k v,
        analyze_recursive (new "receipts") (JDict receipt_with_two_items)
          "" st = Ok st' ->
        In (k, v) first_item ->
        classified v = true ->
        special_cased (clean_column_name k)
          (table_name_of (new "receipts")
             (clean_column_name "rewardsReceiptItemList")) = false ->
        table_name_of (new "receipts")
          (clean_column_name "rewardsReceiptItemList") <> "categories" ->
        column_has st'
          (table_name_of (new "receipts")
             (clean_column_name "rewardsReceiptItemList"))
          (clean_column_name k) (infer_data_type v (clean_column_name k)))
  /\ (forall st,
        analyze_recursive (new "receipts") (JDict receipt_with_two_items)
          "" st
        = analyze_recursive (new "receipts")
            (JDict ([("_id", JDict [("$oid", JStr "r1")])]
                    ++ ("rewardsReceiptItemList", JList [JDict first_item])
                    :: [])%list) "" st)
  /\ (forall st st' table c ty,
        analyze_recursive (new "receipts") (JDict receipt_with_two_items)
          "" st = Ok st' ->
        column_has st' table c ty ->
        column_has st table c ty \/ categories_column table c ty
        \/ column_sampled (new "receipts")
             (JDict ([("_id", JDict [("$oid", JStr "r1")])]
                     ++ ("rewardsReceiptItemList", JList [JDict first_item])
                     :: [])%list) "" table c).
Proof.
  apply (list_sampled_by_first_element (new "receipts")
           [("_id", JDict [("$oid", JStr "r1")])] []
           "rewardsReceiptItemList" first_item
           [JDict [("barcode", JStr "4012");
                   ("description", JStr "Bananas")]] "").
  reflexivity.
Defined.

(** ** The DDL of an analyzed model *)

Lemma dict_set_Forall {A : Type} (P : A -> Prop) k v d :
  P v -> Forall (fun e => P (snd e)) d ->
  Forall (fun e => P (snd e)) (dict_set k v d).
Proof.
  intros Hv. induction 1 as [|[k0 v0] d H0 Hd IH]; simpl.
  - constructor; auto.
  - destruct (String.eqb k0 k); constructor; auto.
Qed.

Lemma with_table_Forall (P : table_info -> Prop) name f st st' :
  P fresh_table ->
  (forall t t', P t -> f t = Ok t' -> P t') ->
  Forall (fun e => P (snd e)) st ->
  with_table name f st = Ok st' ->
  Forall (fun e => P (snd e)) st'.
Proof.
  intros Hfresh Hf Hst. revert st'.
  induction Hst as [|[k t] st Ht Hst IH]; intros st'; simpl.
  - destruct (f fresh_table) as [t'|] eqn:E; cbn [bind]; [|discriminate].
    intros H; inversion H; subst. constructor; eauto.
  - destruct (String.eqb k name).
    + destruct (f t) as [t'|] eqn:E; cbn [bind]; [|discriminate].
      intros H; inversion H; subst. constructor; eauto.
    + destruct (with_table name f st) as [tl'|] eqn:E; cbn [bind];
        [|discriminate].
      intros H; inversion H; subst. constructor; eauto.
Qed.

Lemma set_add_nonempty x s : set_add x s <> [].
Proof.
  intros H. assert (In x (set_add x s)) by (apply set_add_in; now left).
  rewrite H in *. contradiction.
Qed.

Lemma add_type_typed col ty t t' :
  typed_columns t -> add_type col ty t = Ok t' -> typed_columns t'.
Proof.
  unfold typed_columns, add_type. intros Ht.
  destruct (dict_get col (columns t)) as [tys|].
  - intros H; inversion H; subst; simpl.
    apply (dict_set_Forall (fun tys => tys <> [])); auto.
    apply set_add_nonempty.
  - destruct (columns_default t); [|discriminate].
    intros H; inversion H; subst; simpl.
    apply Forall_app. split; [exact Ht|].
    constructor; [discriminate | constructor].
Qed.

Lemma fresh_table_typed : typed_columns fresh_table.
Proof. constructor. Qed.

Lemma analyze_items_typed self items st st' :
  analyze_items self items st = Ok st' -> all_typed st -> all_typed st'.
Proof.
  apply (analyze_items_preserves (fun a b => all_typed a -> all_typed b));
    auto.
  - unfold add_column. intros name col ty a b H Ha.
    eapply with_table_Forall; [apply fresh_table_typed | | exact Ha | exact H].
    intros; eapply add_type_typed; eauto.
  - unfold add_relationship. intros name rel a b H Ha.
    eapply with_table_Forall; [apply fresh_table_typed | | exact Ha | exact H].
    unfold add_rel. intros t t' Ht E. inversion E; subst. exact Ht.
  - intros a Ha. apply (dict_set_Forall typed_columns); auto.
    repeat constructor; discriminate.
Qed.

Lemma analyze_recursive_typed self item path st st' :
  analyze_recursive self item path st = Ok st' ->
  all_typed st -> all_typed st'.
Proof.
  apply (analyze_recursive_preserves (fun a b => all_typed a -> all_typed b));
    auto.
  - unfold add_column. intros name col ty a b H Ha.
    eapply with_table_Forall; [apply fresh_table_typed | | exact Ha | exact H].
    intros; eapply add_type_typed; eauto.
  - unfold add_relationship. intros name rel a b H Ha.
    eapply with_table_Forall; [apply fresh_table_typed | | exact Ha | exact H].
    unfold add_rel. intros t t' Ht E. inversion E; subst. exact Ht.
  - intros a Ha. apply (dict_set_Forall typed_columns); auto.
    repeat constructor; discriminate.
Qed.

Lemma add_exception_tables_typed st :
  all_typed st -> all_typed (add_exception_tables st).
Proof.
  intros H. unfold add_exception_tables, exception_tables. simpl.
  apply (dict_set_Forall typed_columns);
    [repeat constructor; discriminate|].
  apply (dict_set_Forall typed_columns);
    [repeat constructor; discriminate | exact H].
Qed.

Lemma analyze_structure_typed self data st self' :
  analyze_structure self data = Ok (st, self') -> all_typed st.
Proof.
  unfold analyze_structure.
  destruct (analyze_documents self data) as [s1|] eqn:H1; cbn [bind];
    [|discriminate].
  assert (all_typed s1) as Hs1.
  { unfold analyze_documents in H1. destruct data;
      try (eapply analyze_recursive_typed; [exact H1 | constructor]).
    eapply analyze_items_typed; [exact H1 | constructor]. }
  destruct (negb (exception_tables_added self));
    intros H; inversion H; subst; auto.
  now apply add_exception_tables_typed.
Qed.

Lemma dict_get_in {A : Type} (k : string) (v : A) d :
  dict_get k d = Some v -> In (k, v) d.
Proof.
  induction d as [|[k0 v0] d IH]; simpl; [discriminate|].
  destruct (String.eqb_spec k0 k) as [->|Hne].
  - intros H; inversion H; subst. now left.
  - intros H. right. auto.
Qed.

Lemma column_lines_ok cols :
  Forall (fun c : string * list string => snd c <> []) cols ->
  exists lines, column_lines cols = Ok lines.
Proof.
  induction 1 as [|[c tys] cols Hc _ [lines IH]]; simpl.
  - eauto.
  - unfold column_line, storage_type, py_max.
    destruct tys as [|x xs]; [now contradiction Hc|].
    cbn [bind]. rewrite IH. cbn [bind]. eauto.
Qed.


Lemma table_statements_ok name t :
  typed_columns t -> exists stmts, table_statements (name, t) = Ok stmts.
Proof.
  intros Ht. unfold table_statements, table_columns.
  destruct (dict_has name exception_tables); cbn [bind]; [eauto|].
  destruct (column_lines_ok _ Ht) as [lines ->]. cbn [bind]. eauto.
Qed.

Lemma ddl_statements_ok st :
  all_typed st -> exists stmts, ddl_statements st = Ok stmts.
Proof.
  induction 1 as [|[name t] st Ht _ [rest IH]]; cbn [ddl_statements];
    [eauto|].
  destruct (table_statements_ok name t Ht) as [stmts Hs].
  rewrite Hs. cbn [bind]. rewrite IH. cbn [bind]. eauto.
Qed.


(** ** The columns of a regular table in the DDL (C5) *)

Lemma string_app_assoc (a b c : string) : (a ++ b) ++ c = a ++ b ++ c.
Proof. induction a as [|x a IH]; simpl; [reflexivity | now rewrite IH]. Qed.

Lemma string_app_empty (a : string) : a ++ "" = a.
Proof. induction a as [|x a IH]; simpl; [reflexivity | now rewrite IH]. Qed.

Lemma join_holds_part (sep x : string) (parts : list string) :
  In x parts -> Substring x (PyStr.join sep parts).
Proof.
  induction parts as [|p parts IH]; intros Hin; [destruct Hin|].
  destruct parts as [|q parts].
  - destruct Hin as [->|[]]. exists "", "". simpl.
    now rewrite string_app_empty.
  - change (PyStr.join sep (p :: q :: parts))
      with (p ++ sep ++ PyStr.join sep (q :: parts)).
    destruct Hin as [->|Hin].
    + exists "", (sep ++ PyStr.join sep (q :: parts)). reflexivity.
    + destruct (IH Hin) as [before [after ->]].
      exists (p ++ sep ++ before), after.
      now rewrite !string_app_assoc.
Qed.

Lemma column_lines_of cols lines c tys :
  column_lines cols = Ok lines -> In (c, tys) cols ->
  exists line, column_line c tys = Ok line /\ In line lines.
Proof.
  revert lines; induction cols as [|[c0 tys0] cols IH]; intros lines;
    simpl; [intros _ []|].
  destruct (column_line c0 tys0) as [l0|] eqn:H0; cbn [bind]; [|discriminate].
  destruct (column_lines cols) as [ls|] eqn:H1; cbn [bind]; [|discriminate].
  intros H [Heq|Hin]; inversion H; subst.
  - inversion Heq; subst. exists l0. split; [exact H0 | now left].
  - destruct (IH _ eq_refl Hin) as [line [Hl Hi]].
    exists line. split; [exact Hl | now right].
Qed.

Lemma ddl_statements_of st stmts entry :
  ddl_statements st = Ok stmts -> In entry st ->
  exists ss, table_statements entry = Ok ss /\ incl ss stmts.
Proof.
  revert stmts; induction st as [|e st IH]; intros stmts;
    cbn [ddl_statements]; [intros _ []|].
  destruct (table_statements e) as [s0|] eqn:H0; cbn [bind]; [|discriminate].
  destruct (ddl_statements st) as [rest|] eqn:H1; cbn [bind]; [|discriminate].
  intros H [->|Hin]; inversion H; subst.
  - exists s0. split; [exact H0 | now apply incl_appl].
  - destruct (IH _ eq_refl Hin) as [ss [Hss Hi]].
    exists ss. split; [exact Hss | now apply incl_appr].
Qed.

(** The [CREATE TABLE] statement of every table of the model is in the
    generated text. *)
Lemma generate_ddl_holds_table st ddl table_name t :
  generate_ddl st = Ok ddl -> In (table_name, t) st ->
  exists cols stmts,
    table_columns table_name t = Ok cols
    /\ ddl_statements st = Ok stmts
    /\ In (create_table table_name cols) stmts
    /\ ddl = PyStr.join (nl ++ nl) stmts
    /\ Substring (create_table table_name cols) ddl.
Proof.
  unfold generate_ddl.
  destruct (ddl_statements st) as [stmts|] eqn:Hst; cbn [bind];
    [|discriminate].
  intros H Hin. inversion H; subst; clear H.
  destruct (ddl_statements_of _ _ _ Hst Hin) as [ss [Hss Hincl]].
  unfold table_statements in Hss.
  destruct (table_columns table_name t) as [cols|] eqn:Hcols;
    cbn [bind] in Hss; [|discriminate].
  inversion Hss; subst; clear Hss.
  assert (In (create_table table_name cols) stmts) as Hc
    by (apply Hincl; now left).
  exists cols, stmts. repeat split; auto.
  now apply join_holds_part.
Qed.

(** C5, as stated, fails: the columns of a table named [missing_users]
    (or [missing_brands]) take the other branch of [generate_ddl].  For
    a file of that name, analyzed by an instance that has analyzed
    another file before, the observed type-set of [user_id] holds one
    type, which is not ["NULL"], and the column is emitted with the
    members of the set and without [NOT NULL]. *)
Lemma exception_table_column_without_modifier :
  analyze_structure second_analysis missing_users_file
  = Ok (missing_users_file_model, second_analysis)
  /\ exists t ddl,
       dict_get "missing_users" missing_users_file_model = Some t
       /\ dict_get "user_id" (columns t) = Some ["VARCHAR(255)"]
       /\ table_columns "missing_users" t = Ok ["user_id VARCHAR(255)"]
       /\ generate_ddl missing_users_file_model = Ok ddl
       /\ ddl = "CREATE TABLE missing_users (" ++ nl
                ++ "    user_id VARCHAR(255)" ++ nl ++ ");" ++ nl ++ nl
                ++ "CREATE INDEX idx_missing_users_user_id ON missing_users(user_id);"
       /\ ~ Substring "NOT NULL" ddl.
Proof.
  split; [vm_compute; reflexivity|].
  do 2 eexists.
  split; [reflexivity|].
  split; [reflexivity|].
  split; [reflexivity|].
  split; [vm_compute; reflexivity|].
  split; [reflexivity|].
  apply contains_false_iff. vm_compute. reflexivity.
Qed.

(** C5, amended: for every table of the model that is not named
    [missing_brands] or [missing_users], and every column of it whose
    type-set holds a type other than ["NULL"], whatever the order in
    which the set is iterated: the storage type is a member of the set
    other than ["NULL"]; the line of the column is its name, the storage
    type and [NULL] when ["NULL"] is in the set, [NOT NULL] when it is
    not; and that line is among the columns of the table's
    [CREATE TABLE] statement, which is part of every DDL text that
    [generate_ddl] returns for the model. *)
Theorem regular_column_in_ddl
  (st : structure) (table_name : string) (t : table_info)
  (col_name : string) (data_types : list string) (ty ddl : string) :
  In (table_name, t) st ->
  dict_has table_name exception_tables = false ->
  In (col_name, data_types) (columns t) ->
  In ty data_types -> ty <> "NULL" ->
  generate_ddl st = Ok ddl ->
  exists data_type cols stmts,
    storage_type data_types = Ok data_type
    /\ In data_type data_types
    /\ data_type <> "NULL"
    /\ table_columns table_name t = Ok cols
    /\ (In "NULL" data_types ->
        In (col_name ++ " " ++ data_type ++ " NULL") cols)
    /\ (~ In "NULL" data_types ->
        In (col_name ++ " " ++ data_type ++ " NOT NULL") cols)
    /\ ddl_statements st = Ok stmts
    /\ In (create_table table_name cols) stmts
    /\ ddl = PyStr.join (nl ++ nl) stmts
    /\ Substring (create_table table_name cols) ddl.
Proof.
  intros Hentry Hex Hcol Hin Hne Hddl.
  destruct (generate_ddl_holds_table _ _ _ _ Hddl Hentry)
    as [cols [stmts [Hcols [Hstmts [Hcreate [Hjoin Hsub]]]]]].
  destruct (storage_type_prefers_non_null col_name data_types ty Hin Hne)
    as [data_type [Hst [Hmem [Hnn [Hnull Hnot]]]]].
  exists data_type, cols, stmts.
  unfold table_columns in Hcols. rewrite Hex in Hcols.
  destruct (column_lines (columns t)) as [lines|] eqn:Hlines;
    cbn [bind] in Hcols; [|discriminate].
  inversion Hcols; subst cols.
  destruct (column_lines_of _ _ _ _ Hlines Hcol) as [line [Hline Hl]].
  repeat split; auto.
  - unfold table_columns. now rewrite Hex, Hlines.
  - intros Hn. rewrite (Hnull Hn) in Hline. inversion Hline; subst.
    now right.
  - intros Hn. rewrite (Hnot Hn) in Hline. inversion Hline; subst.
    now right.
Qed.

Lemma regular_column_in_ddl_witness :
  exists data_type cols stmts,
    storage_type ["NULL"; "TEXT"] = Ok data_type
    /\ In data_type ["NULL"; "TEXT"]
    /\ data_type <> "NULL"
    /\ table_columns "items"
         {| columns := [("description", ["NULL"; "TEXT"]);
                        ("barcode", ["VARCHAR(255)"])];
            columns_default := true;
            relationships := [] |} = Ok cols
    /\ (In "NULL" ["NULL"; "TEXT"] ->
        In ("description" ++ " " ++ data_type ++ " NULL") cols)
    /\ (~ In "NULL" ["NULL"; "TEXT"] ->
        In ("description" ++ " " ++ data_type ++ " NOT NULL") cols)
    /\ ddl_statements items_model = Ok stmts
    /\ In (create_table "items" cols) stmts
    /\ "CREATE TABLE items (" ++ nl
       ++ "    items_id SERIAL PRIMARY KEY," ++ nl
       ++ "    description TEXT NULL," ++ nl
       ++ "    barcode VARCHAR(255) NOT NULL" ++ nl ++ ");"
       = PyStr.join (nl ++ nl) stmts
    /\ Substring (create_table "items" cols)
         ("CREATE TABLE items (" ++ nl
          ++ "    items_id SERIAL PRIMARY KEY," ++ nl
          ++ "    description TEXT NULL," ++ nl
          ++ "    barcode VARCHAR(255) NOT NULL" ++ nl ++ ");").
Proof.
  apply (regular_column_in_ddl items_model "items"
           {| columns := [("description", ["NULL"; "TEXT"]);
                          ("barcode", ["VARCHAR(255)"])];
              columns_default := true;
              relationships := [] |}
           "description" ["NULL"; "TEXT"] "TEXT").
  - left. reflexivity.
  - reflexivity.
  - left. reflexivity.
  - right. left. reflexivity.
  - discriminate.
  - vm_compute. reflexivity.
Defined.

(** ** Nullable columns (C2) *)





(** ** The exception tables (C4) *)














(* ================================================================= *)
(** * Properties of the loader *)

(** ** The ledger (C1) *)

(** C1 fails at the first sighting: the upsert inserts the key with
    [occurrence_count = 1] and writes neither [first_seen] nor
    [last_seen], which stay [NULL]; [first_seen] is never written
    afterwards, and [last_seen] is written from the second sighting
    on. *)
Theorem first_sighting_leaves_timestamps_null :
  missing_brands (track_missing_brand 1612137600 "X1" empty_store)
  = [("X1", {| occurrence_count := 1; first_seen := None;
               last_seen := None |})]
  /\ missing_users
       (track_missing_user 1612137600 "5ff1e1eacfcf6c399c274ae6" empty_store)
     = [("5ff1e1eacfcf6c399c274ae6",
         {| occurrence_count := 1; first_seen := None; last_seen := None |})]
  /\ missing_brands
       (track_missing_brand 30 "X1"
          (track_missing_brand 20 "X1"
             (track_missing_brand 10 "X1" empty_store)))
     = [("X1", {| occurrence_count := 3; first_seen := None;
                  last_seen := Some 30%Z |})].
Proof.
  repeat split; reflexivity.
Qed.

Lemma stored_key_fits width key :
  (String.length key <= width)%nat -> stored_key width key = Ok key.
Proof.
  intros Hw. unfold stored_key. apply Nat.leb_le in Hw. now rewrite Hw.
Qed.

Lemma sightings_of_known_key width times key l e :
  (String.length key <= width)%nat ->
  dict_get key l = Some e ->
  (occurrence_count e + Z.of_nat (List.length times) <= int_max)%Z ->
  dict_get key (sightings width times key l)
  = Some {| occurrence_count :=
              occurrence_count e + Z.of_nat (List.length times);
            first_seen := first_seen e;
            last_seen := match times with
                         | [] => last_seen e
                         | _ => Some (last times 0%Z)
                         end |}.
Proof.
  intros Hw. revert l e.
  induction times as [|now times IH]; intros l e Hget Hmax.
  - simpl. rewrite Hget, Z.add_0_r. now destruct e.
  - cbn [sightings fold_left]. unfold upsert at 2.
    rewrite (stored_key_fits _ _ Hw). cbn [bind]. rewrite Hget.
    assert ((int_max <? occurrence_count e + 1)%Z = false) as ->
      by (apply Z.ltb_ge; cbn [List.length] in Hmax; lia).
    change (fold_left _ times ?l0) with (sightings width times key l0).
    rewrite (IH _ _ (dict_get_set_same key _ l)).
    + cbn [occurrence_count first_seen last_seen List.length].
      f_equal. f_equal; [lia|].
      destruct times; reflexivity.
    + cbn [occurrence_count List.length] in *. lia.
Qed.

(** The part of C1 that holds, and the part that does not: after [N >= 1]
    sightings of a key that was not in the ledger, [occurrence_count] is
    [N], [first_seen] is [NULL], and [last_seen] is [NULL] for [N = 1]
    and the time of the last sighting from [N = 2] on. *)
Lemma sightings_of_new_key width now times key l :
  (String.length key <= width)%nat ->
  dict_get key l = None ->
  (Z.of_nat (S (List.length times)) <= int_max)%Z ->
  dict_get key (sightings width (now :: times) key l)
  = Some {| occurrence_count := Z.of_nat (S (List.length times));
            first_seen := None;
            last_seen := match times with
                         | [] => None
                         | _ => Some (last times 0%Z)
                         end |}.
Proof.
  intros Hw Hget Hmax.
  cbn [sightings fold_left]. unfold upsert at 2.
  rewrite (stored_key_fits _ _ Hw). cbn [bind]. rewrite Hget.
  change (fold_left _ times ?l0) with (sightings width times key l0).
  rewrite (sightings_of_known_key width times key _ _ Hw
             (dict_get_app_new key _ l Hget)).
  - cbn [occurrence_count first_seen last_seen]. f_equal. f_equal. lia.
  - cbn [occurrence_count]. lia.
Qed.

Lemma track_missing_brand_ledger now key db :
  binds db key = true ->
  missing_brands (track_missing_brand now key db)
  = sightings 255 [now] key (missing_brands db).
Proof.
  intros Hb. unfold track_missing_brand, sightings. rewrite Hb.
  cbn [fold_left].
  now destruct (upsert 255 now key (missing_brands db)).
Qed.

Lemma track_missing_user_ledger now key db :
  binds db key = true ->
  missing_users (track_missing_user now key db)
  = sightings 24 [now] key (missing_users db).
Proof.
  intros Hb. unfold track_missing_user, sightings. rewrite Hb.
  cbn [fold_left].
  now destruct (upsert 24 now key (missing_users db)).
Qed.

(** A key with spaces beyond the width of the column is counted under
    the key that the store cuts it to; a key with other characters
    beyond the width is not recorded. *)
Lemma padded_key_is_cut :
  stored_key 24 "5ff1e1eacfcf6c399c274ae6 " = Ok "5ff1e1eacfcf6c399c274ae6"
  /\ stored_key 24 "5ff1e1eacfcf6c399c274ae6x" = Raise DatabaseError
  /\ missing_users
       (track_missing_user 30 "5ff1e1eacfcf6c399c274ae6x"
          (track_missing_user 20 "5ff1e1eacfcf6c399c274ae6 "
             (track_missing_user 10 "5ff1e1eacfcf6c399c274ae6"
                empty_store)))
     = [("5ff1e1eacfcf6c399c274ae6",
         {| occurrence_count := 2; first_seen := None;
            last_seen := Some 20%Z |})].
Proof.
  repeat split; reflexivity.
Qed.

(** ** Records with a missing parent (C3) *)

(** C3 fails for line items: an item whose brand code is not in [brands]
    is recorded in the ledger and inserted, but with its [brandcode]
    left as it is, not set to null. *)
Theorem unknown_brand_is_not_nulled :
  exists db' item_row,
    insert_receipt_items (fun _ => 1612137600%Z) receipt_with_unknown_brand 1
      store_with_one_brand = Ok db'
    /\ rewardsreceiptitemlist db' = [item_row]
    /\ dict_get "brandcode" item_row = Some (PJson (JStr "X1"))
    /\ dict_get "brandcode" item_row <> Some (PJson JNull)
    /\ missing_brands db'
       = [("X1", {| occurrence_count := 1; first_seen := None;
                    last_seen := None |})].
Proof.
  do 2 eexists.
  split; [reflexivity|].
  split; [reflexivity|].
  split; [reflexivity|].
  split; [discriminate | reflexivity].
Qed.

Lemma sequence_split {A : Type} (r : result A) (rs : list (result A)) vs :
  sequence (r :: rs) = Ok vs ->
  exists v rest, r = Ok v /\ sequence rs = Ok rest /\ vs = v :: rest.
Proof.
  cbn [sequence]. destruct r as [v|]; cbn [bind]; [|discriminate].
  destruct (sequence rs) as [rest|]; cbn [bind]; [|discriminate].
  intros H; inversion H; subst. eauto.
Qed.

Ltac split_sequence H :=
  repeat (apply sequence_split in H;
          let v := fresh "v" in
          let rest := fresh "rest" in
          let Hv := fresh "Hv" in
          destruct H as [v [rest [Hv [H ->]]]]).

Lemma receipt_values_userid db receipt user_id values :
  receipt_values db receipt user_id = Ok values ->
  dict_get "userid" (combine receipt_columns values) = Some user_id.
Proof.
  unfold receipt_values. intros H. split_sequence H.
  cbn [sequence] in H. inversion H; subst.
  match goal with Hu : Ok user_id = Ok _ |- _ => inversion Hu; subst end.
  reflexivity.
Qed.

Lemma item_values_brandcode item brandcode receipt_id values :
  item_values item brandcode receipt_id = Ok values ->
  dict_get "brandcode" (combine item_columns values) = Some brandcode.
Proof.
  unfold item_values. intros H. split_sequence H.
  cbn [sequence] in H. inversion H; subst.
  match goal with Hu : Ok brandcode = Ok _ |- _ => inversion Hu; subst end.
  reflexivity.
Qed.

(** What [track_missing_user] and [track_missing_brand] leave as it
    is. *)
Lemma track_missing_user_frame now s db :
  let db' := track_missing_user now s db in
  users db' = users db
  /\ brands db' = brands db
  /\ receipts db' = receipts db
  /\ rewardsreceiptitemlist db' = rewardsreceiptitemlist db
  /\ missing_brands db' = missing_brands db
  /\ same_rules db db'.
Proof.
  unfold track_missing_user, same_rules.
  destruct (binds db s); [|repeat split].
  destruct (upsert 24 now s (missing_users db)); repeat split.
Qed.

Lemma track_missing_brand_frame now s db :
  let db' := track_missing_brand now s db in
  users db' = users db
  /\ brands db' = brands db
  /\ receipts db' = receipts db
  /\ rewardsreceiptitemlist db' = rewardsreceiptitemlist db
  /\ missing_users db' = missing_users db
  /\ same_rules db db'.
Proof.
  unfold track_missing_brand, same_rules.
  destruct (binds db s); [|repeat split].
  destruct (upsert 255 now s (missing_brands db)); repeat split.
Qed.

Lemma forallb_ext_eq {A : Type} (f g : A -> bool) (l : list A) :
  (forall x, f x = g x) -> forallb f l = forallb g l.
Proof.
  intros H. induction l as [|x l IH]; cbn [forallb]; [reflexivity|].
  now rewrite H, IH.
Qed.

Lemma adaptable_rules db1 db2 values :
  binds db1 = binds db2 ->
  forallb (adaptable db1) values = forallb (adaptable db2) values.
Proof.
  intros H. apply forallb_ext_eq. intros v. unfold adaptable. now rewrite H.
Qed.

Lemma receipt_values_rules db1 db2 receipt user_id :
  datetime_error db1 = datetime_error db2 ->
  receipt_values db1 receipt user_id = receipt_values db2 receipt user_id.
Proof.
  intros H. unfold receipt_values, processed, process_value,
    process_timestamp, fromtimestamp. now rewrite H.
Qed.

(** The receipt path does what C3 says: for a receipt whose user is not
    in [users], the user is recorded in the ledger and, when the driver
    binds the values and the store admits the row, the row is inserted
    with [userid] null. *)
Lemma unknown_user_is_nulled now receipt user_id db values id :
  processed db receipt "userId" = Ok (PJson (JStr user_id)) ->
  user_id <> "" ->
  binds db user_id = true ->
  existsb (String.eqb user_id) (users db) = false ->
  receipt_values db receipt (PJson JNull) = Ok values ->
  forallb (adaptable db) values = true ->
  admits_receipt db (track_missing_user now user_id db)
    (combine receipt_columns values) = Some id ->
  exists db',
    insert_receipt_without_items now receipt db = (db', Some id)
    /\ receipts db'
       = (receipts db ++ [combine receipt_columns values])%list
    /\ dict_get "userid" (combine receipt_columns values)
       = Some (PJson JNull)
    /\ missing_users db'
       = sightings 24 [now] user_id (missing_users db).
Proof.
  intros Hu Hne Hb Hmiss Hvals Had Hadm.
  destruct (track_missing_user_frame now user_id db)
    as [F1 [F2 [F3 [F4 [F5 [R1 [R2 [R3 R4]]]]]]]]. cbn zeta in *.
  unfold insert_receipt_without_items, resolve_user.
  rewrite Hu. cbn [bind truthy].
  assert (String.eqb user_id "" = false) as -> by now apply String.eqb_neq.
  cbn [negb]. rewrite Hb, Hmiss.
  rewrite (receipt_values_rules _ db receipt (PJson JNull) R1), Hvals.
  unfold insert_receipt_row.
  rewrite (adaptable_rules _ db values R2), Had.
  rewrite R3, Hadm.
  eexists. split; [reflexivity|].
  split; [cbn [receipts content with_content]; now rewrite F3|].
  split; [now apply (receipt_values_userid db receipt)|].
  cbn [missing_users content with_content].
  now apply track_missing_user_ledger.
Qed.

(** The item path records the brand and keeps the code: whatever
    non-empty brand code is missing from [brands], the row that is
    handed to the store carries it. *)
Lemma unknown_brand_is_kept now item brandcode receipt_id db values :
  plain item "brandCode" = Ok (PJson (JStr brandcode)) ->
  brandcode <> "" ->
  binds db brandcode = true ->
  existsb (String.eqb brandcode) (brands db) = false ->
  item_values item (PJson (JStr brandcode)) receipt_id = Ok values ->
  forallb (adaptable db) values = true ->
  admits_item db (track_missing_brand now brandcode db)
    (combine item_columns values) = true ->
  rewardsreceiptitemlist (insert_receipt_item now item receipt_id db)
  = (rewardsreceiptitemlist db ++ [combine item_columns values])%list
  /\ dict_get "brandcode" (combine item_columns values)
     = Some (PJson (JStr brandcode))
  /\ missing_brands (insert_receipt_item now item receipt_id db)
     = sightings 255 [now] brandcode (missing_brands db).
Proof.
  intros Hb Hne Hbind Hmiss Hvals Had Hadm.
  destruct (track_missing_brand_frame now brandcode db)
    as [F1 [F2 [F3 [F4 [F5 [R1 [R2 [R3 R4]]]]]]]]. cbn zeta in *.
  unfold insert_receipt_item, resolve_brand.
  rewrite Hb. cbn [bind truthy].
  assert (String.eqb brandcode "" = false) as -> by now apply String.eqb_neq.
  cbn [negb]. rewrite Hbind, Hmiss, Hvals.
  unfold insert_item_row.
  rewrite (adaptable_rules _ db values R2), Had.
  rewrite R4, Hadm. cbn [andb].
  split; [|split].
  - cbn [rewardsreceiptitemlist content with_content]. now rewrite F4.
  - now apply (item_values_brandcode item _ receipt_id).
  - cbn [missing_brands content with_content].
    now apply track_missing_brand_ledger.
Qed.

(* ================================================================= *)
(** * Further properties of the modeler *)

(** ** Cleaned names *)

Lemma lower_ascii_clean (c : ascii) :
  c <> "$"%char -> c <> "."%char -> clean_ascii (PyStr.lower_ascii c).
Proof.
  destruct c as [[] [] [] [] [] [] [] []]; intros H1 H2;
    try (exfalso; apply H1; reflexivity);
    try (exfalso; apply H2; reflexivity);
    (split; [discriminate | split; [discriminate | reflexivity]]).
Qed.

Lemma clean_column_name_cons (c : ascii) (rest : string) :
  clean_column_name (String c rest)
  = if Ascii.eqb c "$" then clean_column_name rest
    else if Ascii.eqb c "." then String "_" (clean_column_name rest)
    else String (PyStr.lower_ascii c) (clean_column_name rest).
Proof.
  unfold clean_column_name. cbn [PyStr.replace].
  destruct (Ascii.eqb c "$") eqn:Hd; [reflexivity|].
  cbn [PyStr.replace].
  destruct (Ascii.eqb c ".") eqn:Hp; reflexivity.
Qed.

Lemma clean_ascii_keeps (c : ascii) (s : string) :
  clean_ascii c ->
  clean_column_name (String c s) = String c (clean_column_name s).
Proof.
  intros [Hd [Hp Hl]]. rewrite clean_column_name_cons.
  apply Ascii.eqb_neq in Hd, Hp. now rewrite Hd, Hp, Hl.
Qed.

(** X1: a cleaned column name holds no [$], no [.] and no capital
    letter. *)
Theorem clean_column_name_chars_clean (name : string) :
  Forall clean_ascii (chars (clean_column_name name)).
Proof.
  induction name as [|c rest IH]; [constructor|].
  rewrite clean_column_name_cons.
  destruct (Ascii.eqb_spec c "$") as [|Hd]; [exact IH|].
  destruct (Ascii.eqb_spec c ".") as [|Hp].
  - constructor; [|exact IH].
    split; [discriminate | split; [discriminate | reflexivity]].
  - constructor; [|exact IH]. now apply lower_ascii_clean.
Qed.

Lemma clean_chars_fixed (s : string) :
  Forall clean_ascii (chars s) -> clean_column_name s = s.
Proof.
  induction s as [|c s IH]; [reflexivity|].
  intros H. inversion H as [|? ? Hc Hs]; subst.
  rewrite clean_ascii_keeps by exact Hc. now rewrite IH.
Qed.

(** X2: cleaning a name that is already cleaned changes nothing. *)
Theorem clean_column_name_idempotent (name : string) :
  clean_column_name (clean_column_name name) = clean_column_name name.
Proof.
  apply clean_chars_fixed, clean_column_name_chars_clean.
Qed.



(** ** The storage type, precisely *)

Lemma max_from_non_null_best (best : string) (xs : list string) :
  best <> "NULL" -> max_from null_last best xs = best.
Proof.
  intros Hb. induction xs as [|x xs IH]; [reflexivity|].
  cbn [max_from].
  destruct (null_last best <? null_last x)%nat eqn:Hlt; [|exact IH].
  apply null_last_lt in Hlt. destruct Hlt as [Hlt _]. contradiction.
Qed.

Lemma max_from_null_prefix (nulls : list string) (t : string)
  (rest : list string) :
  Forall (fun x => x = "NULL") nulls -> t <> "NULL" ->
  max_from null_last "NULL" (nulls ++ t :: rest)%list = t.
Proof.
  intros Hn Ht. induction Hn as [|x nulls Hx _ IH]; cbn [app max_from].
  - assert ((null_last "NULL" <? null_last t)%nat = true) as ->
      by (apply null_last_lt; now split).
    now apply max_from_non_null_best.
  - subst x. exact IH.
Qed.

(** X4: the storage type of a column is the first type other than
    ["NULL"] in the order in which its type-set is iterated. *)
Theorem storage_type_first_non_null
  (nulls : list string) (t : string) (rest : list string) :
  Forall (fun x => x = "NULL") nulls -> t <> "NULL" ->
  storage_type (nulls ++ t :: rest)%list = Ok t.
Proof.
  intros Hn Ht. unfold storage_type, py_max.
  destruct Hn as [|x nulls Hx Hn]; cbn [app].
  - now rewrite max_from_non_null_best.
  - subst x. now rewrite max_from_null_prefix.
Qed.

Lemma storage_type_first_non_null_witness :
  storage_type (["NULL"] ++ "INTEGER" :: ["VARCHAR(255)"])%list
  = Ok "INTEGER".
Proof.
  apply (storage_type_first_non_null ["NULL"] "INTEGER" ["VARCHAR(255)"]).
  - constructor; [reflexivity | constructor].
  - discriminate.
Defined.



(** ** The DDL of every analyzed model *)

(** X6: [generate_ddl] returns for every model that [analyze_structure]
    returns: no type-set of such a model is empty, so that [max] never
    raises. *)
Theorem generate_ddl_total_on_analysis
  (self : modeler) (data : json) (st : structure) (self' : modeler) :
  analyze_structure self data = Ok (st, self') ->
  all_typed st /\ exists ddl, generate_ddl st = Ok ddl.
Proof.
  intros H. pose proof (analyze_structure_typed _ _ _ _ H) as Ht.
  split; [exact Ht|].
  destruct (ddl_statements_ok _ Ht) as [stmts Hs].
  unfold generate_ddl. rewrite Hs. cbn [bind]. eauto.
Qed.

Lemma generate_ddl_total_on_analysis_witness :
  all_typed (fst brands_model)
  /\ exists ddl, generate_ddl (fst brands_model) = Ok ddl.
Proof.
  apply (generate_ddl_total_on_analysis (new "brands") brands_population
           (fst brands_model) (snd brands_model)).
  vm_compute. reflexivity.
Defined.

Lemma prefix_create_table name cols :
  String.prefix "CREATE TABLE " (create_table name cols) = true.
Proof.
  unfold create_table. cbn.
  match goal with |- String.prefix "" ?s = true => now destruct s end.
Qed.

Lemma prefix_create_index_table name cols :
  String.prefix "CREATE INDEX " (create_table name cols) = false.
Proof. unfold create_table. cbn. reflexivity. Qed.

Lemma dict_has_exception (name : string) :
  dict_has name exception_tables
  = (String.eqb name "missing_brands" || String.eqb name "missing_users").
Proof.
  unfold dict_has, exception_tables. cbn [dict_get].
  rewrite (String.eqb_sym "missing_brands" name).
  rewrite (String.eqb_sym "missing_users" name).
  destruct (String.eqb name "missing_brands"); [reflexivity|].
  destruct (String.eqb name "missing_users"); reflexivity.
Qed.

Lemma table_statements_shape name t ss :
  table_statements (name, t) = Ok ss ->
  List.length (filter (String.prefix "CREATE TABLE ") ss) = 1
  /\ List.length (filter (String.prefix "CREATE INDEX ") ss)
     = (if dict_has name exception_tables then 1 else 0)
  /\ List.length ss = 1 + (if dict_has name exception_tables then 1 else 0).
Proof.
  unfold table_statements.
  destruct (table_columns name t) as [cols|]; cbn [bind]; [|discriminate].
  intros H; inversion H; subst; clear H.
  rewrite dict_has_exception. cbn [filter].
  rewrite prefix_create_table, prefix_create_index_table.
  destruct (String.eqb_spec name "missing_brands") as [->|Hb];
    [repeat split|].
  destruct (String.eqb_spec name "missing_users") as [->|Hu];
    repeat split.
Qed.

(** X7: the DDL holds exactly one [CREATE TABLE] statement for each table
    of the model, and one [CREATE INDEX] statement for each table named
    [missing_brands] or [missing_users], and nothing else. *)
Theorem ddl_statements_shape (st : structure) (stmts : list string) :
  ddl_statements st = Ok stmts ->
  List.length (filter (String.prefix "CREATE TABLE ") stmts)
  = List.length st
  /\ List.length (filter (String.prefix "CREATE INDEX ") stmts)
     = List.length (filter (fun e => dict_has (fst e) exception_tables) st)
  /\ List.length stmts
     = List.length st
       + List.length (filter (fun e => dict_has (fst e) exception_tables) st).
Proof.
  revert stmts. induction st as [|[name t] st IH]; intros stmts;
    cbn [ddl_statements].
  - intros H; inversion H; subst. repeat split.
  - destruct (table_statements (name, t)) as [ss|] eqn:Hss; cbn [bind];
      [|discriminate].
    destruct (ddl_statements st) as [rest|]; cbn [bind]; [|discriminate].
    destruct (IH rest eq_refl) as [IH1 [IH2 IH3]].
    destruct (table_statements_shape _ _ _ Hss) as [S1 [S2 S3]].
    intros H; inversion H; subst; clear H.
    rewrite !filter_app, !length_app, S1, S2, S3, IH1, IH2, IH3.
    cbn [filter fst List.length].
    destruct (dict_has name exception_tables); cbn [List.length];
      repeat split; lia.
Qed.

Lemma ddl_statements_shape_witness :
  exists stmts,
    ddl_statements (fst brands_model) = Ok stmts
    /\ List.length (filter (String.prefix "CREATE TABLE ") stmts)
       = List.length (fst brands_model)
    /\ List.length (filter (String.prefix "CREATE INDEX ") stmts)
       = List.length (filter (fun e => dict_has (fst e) exception_tables)
                        (fst brands_model))
    /\ List.length stmts
       = List.length (fst brands_model)
         + List.length (filter (fun e => dict_has (fst e) exception_tables)
                          (fst brands_model)).
Proof.
  destruct (ddl_statements (fst brands_model)) as [stmts|] eqn:E;
    [|vm_compute in E; discriminate].
  exists stmts. split; [reflexivity|].
  apply (ddl_statements_shape (fst brands_model) stmts). exact E.
Defined.

(** ** What the analysis records *)

(** A relation between the model before and after that the updates made
    by the analysis satisfy is satisfied by the whole analysis. *)
Section Updates.
Variable R : structure -> structure -> Prop.
Hypothesis R_refl : forall st, R st st.
Hypothesis R_trans : forall a b c, R a b -> R b c -> R a c.
Hypothesis R_column :
  forall name col ty st st',
    column_update name col ty ->
    add_column name col ty st = Ok st' -> R st st'.
Hypothesis R_relationship :
  forall name rel st st', add_relationship name rel st = Ok st' -> R st st'.
Hypothesis R_categories :
  forall st, R st (dict_set "categories" categories_table st).

Lemma analyze_field_updates recurse table_name key value st st' :
  (forall j path a b, sampled j value -> recurse j path a = Ok b -> R a b) ->
  analyze_field recurse table_name (key, value) st = Ok st' -> R st st'.
Proof.
  intros Hrec. unfold analyze_field.
  assert (forall name rel s s', add_relationship name rel s = Ok s' ->
                                R s s') as Hrel by eauto.
  destruct (is_userid _ _) eqn:E1.
  { destruct (add_column _ _ _ st) as [s1|] eqn:H1; cbn [bind];
      [|discriminate].
    destruct (add_relationship _ _ s1) as [s2|] eqn:H2; cbn [bind];
      [|discriminate].
    intros H3. apply R_trans with s1.
    - eapply R_column; [|exact H1]. now apply update_userid.
    - apply R_trans with s2; eauto. }
  destruct (is_brandcode _ _) eqn:E2.
  { destruct (add_column _ _ _ st) as [s1|] eqn:H1; cbn [bind];
      [|discriminate].
    destruct (add_relationship _ _ s1) as [s2|] eqn:H2; cbn [bind];
      [|discriminate].
    intros H3. apply R_trans with s1.
    - eapply R_column; [|exact H1]. now apply update_brandcode.
    - apply R_trans with s2; eauto. }
  destruct (is_category _ _) eqn:E3.
  { intros H.
    apply R_trans with (dict_set "categories" categories_table st); eauto. }
  destruct (is_categorycode _ _) eqn:E4.
  { intros H; inversion H; subst; auto. }
  destruct (is_cpg _) eqn:E5.
  { intros H; inversion H; subst; auto. }
  assert (special_cased (clean_column_name key) table_name = false) as Hs
    by (unfold special_cased; now rewrite E1, E2, E3, E4, E5).
  assert (forall s, classified value = true ->
            add_column table_name (clean_column_name key)
              (infer_data_type value (clean_column_name key)) st = Ok s ->
            R st s) as Hgen.
  { intros s Hc H. eapply R_column; [|exact H].
    now apply update_classified with value. }
  destruct value as [| | | | |l|d]; try (intros H; now apply Hgen).
  - destruct l as [|first tl]; [intros H; now apply Hgen|].
    destruct first; try (intros H; now apply Hgen).
    match goal with
    | |- context [if ?c then _ else _] => destruct c
    end.
    + destruct (add_relationship _ _ st) as [s1|] eqn:H1; cbn [bind];
        [|discriminate].
      intros H. apply R_trans with s1; [eauto|].
      eapply Hrec; [|exact H]. right. eauto.
    + cbn [bind]. intros H. eapply Hrec; [|exact H]. right. eauto.
  - destruct (dict_has "$date" d || dict_has "$oid" d) eqn:Ew.
    + intros H. apply Hgen; [exact Ew | exact H].
    + destruct (negb _).
      * intros H. eapply Hrec; [|exact H]. now left.
      * intros H; inversion H; subst; auto.
Qed.

Lemma analyze_fields_updates recurse table_name fields :
  Forall (fun field =>
            forall j path a b, sampled j (snd field) ->
                               recurse j path a = Ok b -> R a b) fields ->
  forall st st',
    analyze_fields recurse table_name fields st = Ok st' -> R st st'.
Proof.
  induction 1 as [|[key value] fields Hf _ IH]; intros st st';
    cbn [analyze_fields].
  - intros H; inversion H; subst; auto.
  - destruct (analyze_field recurse table_name (key, value) st)
      as [s1|] eqn:H1; cbn [bind]; [|discriminate].
    intros H2. eapply R_trans.
    + eapply analyze_field_updates; [exact Hf | exact H1].
    + eapply IH; exact H2.
Qed.

Lemma analyze_recursive_updates self item :
  forall path st st',
    analyze_recursive self item path st = Ok st' -> R st st'.
Proof.
  pose (Q := fun j => forall path st st',
               analyze_recursive self j path st = Ok st' -> R st st').
  assert (forall j, Q j /\ forall first tl, j = JList (first :: tl) -> Q first)
    as Hall.
  { induction j as [| | | | |l Hl|kvs Hkvs] using json_nested_ind;
      try solve [split; [intros path st st' H; inversion H; subst; auto
                        | intros first tl H; discriminate]].
    - split; [intros path st st' H; inversion H; subst; auto|].
      intros first tl H. inversion H; subst.
      inversion Hl; subst. tauto.
    - split; [|intros first tl H; discriminate].
      intros path st st'. cbn [analyze_recursive].
      apply analyze_fields_updates.
      eapply Forall_impl; [|exact Hkvs].
      intros [key value] [HQ Hfirst] j p a b Hs Hr. simpl in *.
      destruct Hs as [->|[tl ->]].
      + eapply HQ. exact Hr.
      + eapply Hfirst; [reflexivity | exact Hr]. }
  apply Hall.
Qed.

Lemma analyze_items_updates self items :
  forall st st', analyze_items self items st = Ok st' -> R st st'.
Proof.
  induction items as [|item items IH]; intros st st'; cbn [analyze_items].
  - intros H; inversion H; subst; auto.
  - destruct (analyze_recursive self item "" st) as [s1|] eqn:H1;
      cbn [bind]; [|discriminate].
    intros H2. eapply R_trans.
    + eapply analyze_recursive_updates. exact H1.
    + eapply IH. exact H2.
Qed.

Lemma analyze_documents_updates self data st :
  analyze_documents self data = Ok st -> R [] st.
Proof.
  unfold analyze_documents.
  destruct data; try apply analyze_recursive_updates.
  apply analyze_items_updates.
Qed.
End Updates.

Lemma literal_column (cols : list (string * list string)) col tys x :
  dict_get col cols = Some tys -> In x tys ->
  In (col, x) (flat_map (fun c => map (pair (fst c)) (snd c)) cols).
Proof.
  intros Hget Hin. apply dict_get_in in Hget.
  apply in_flat_map. exists (col, tys). split; [exact Hget|].
  simpl. now apply in_map.
Qed.

(** A property of recorded types that holds for every update of the
    analysis and for the columns of the three literal tables holds for
    every analyzed model. *)
Lemma analyze_structure_all_columns
  (ok : string -> string -> string -> Prop) :
  (forall name col ty, column_update name col ty -> ok name col ty) ->
  (forall name t col tys ty,
     In (name, t) (("categories", categories_table) :: exception_tables) ->
     dict_get col (columns t) = Some tys -> In ty tys -> ok name col ty) ->
  forall self data st self',
    analyze_structure self data = Ok (st, self') -> all_columns ok st.
Proof.
  intros Hupd Hlit self data st self'.
  unfold analyze_structure.
  destruct (analyze_documents self data) as [s1|] eqn:H1; cbn [bind];
    [|discriminate].
  assert (all_columns ok s1) as Hs1.
  { assert (all_columns ok []) as Hnil
      by (intros name col ty [t [tys [H _]]]; discriminate).
    revert Hnil.
    apply (analyze_documents_updates
             (fun a b => all_columns ok a -> all_columns ok b))
      with (self := self) (data := data); auto.
    - intros name col ty a b Hu H Ha n c x Hx.
      destruct (add_column_inv _ _ _ _ _ _ _ _ H Hx) as [[-> [-> ->]]|Hx'];
        auto.
    - intros name rel a b H Ha n c x Hx.
      apply Ha. eapply add_relationship_inv; eauto.
    - intros a Ha n c x Hx.
      destruct (dict_set_inv _ _ _ _ _ _ Hx) as [[-> [tys [Hc Hin]]]|Hx'];
        [|auto].
      eapply Hlit; [left; reflexivity | exact Hc | exact Hin]. }
  assert (all_columns ok (add_exception_tables s1)) as Hs2.
  { unfold add_exception_tables, exception_tables. simpl.
    intros n c x Hx.
    destruct (dict_set_inv _ _ _ _ _ _ Hx) as [[-> [tys [Hc Hin]]]|Hx'].
    - eapply Hlit; [right; right; left; reflexivity | exact Hc | exact Hin].
    - destruct (dict_set_inv _ _ _ _ _ _ Hx') as [[-> [tys [Hc Hin]]]|Hx''].
      + eapply Hlit; [right; left; reflexivity | exact Hc | exact Hin].
      + auto. }
  destruct (negb (exception_tables_added self));
    intros H; inversion H; subst; auto.
Qed.

Lemma literal_tables_columns name t col tys ty :
  In (name, t) (("categories", categories_table) :: exception_tables) ->
  dict_get col (columns t) = Some tys -> In ty tys ->
  In (name, col, ty)
    [("categories", "category", "VARCHAR(255)");
     ("categories", "categorycode", "VARCHAR(255)");
     ("missing_brands", "missing_brands_id", "SERIAL PRIMARY KEY");
     ("missing_brands", "brandcode", "VARCHAR(255) UNIQUE");
     ("missing_brands", "occurrence_count", "INTEGER");
     ("missing_brands", "first_seen", "TIMESTAMP");
     ("missing_brands", "last_seen", "TIMESTAMP");
     ("missing_users", "missing_users_id", "SERIAL PRIMARY KEY");
     ("missing_users", "user_id", "VARCHAR(24) UNIQUE");
     ("missing_users", "occurrence_count", "INTEGER");
     ("missing_users", "first_seen", "TIMESTAMP");
     ("missing_users", "last_seen", "TIMESTAMP")].
Proof.
  intros Hin Hget Hty.
  pose proof (literal_column _ _ _ _ Hget Hty) as H.
  simpl in Hin.
  destruct Hin as [E|[E|[E|[]]]]; inversion E; subst; simpl in H;
    repeat (destruct H as [H|H];
            [inversion H; subst; simpl; tauto|]);
    destruct H.
Qed.

Lemma column_exists_has st name t col tys :
  all_typed st -> dict_get name st = Some t ->
  dict_get col (columns t) = Some tys ->
  exists ty, column_has st name col ty.
Proof.
  intros Ht Hget Hcol.
  unfold all_typed in Ht. rewrite Forall_forall in Ht.
  pose proof (Ht _ (dict_get_in _ _ _ Hget)) as Hc.
  unfold typed_columns in Hc. rewrite Forall_forall in Hc.
  pose proof (Hc _ (dict_get_in _ _ _ Hcol)) as Hne. simpl in Hne.
  destruct tys as [|ty tys]; [contradiction|].
  exists ty, t, (ty :: tys). repeat split; auto. now left.
Qed.

Lemma is_userid_true col name :
  is_userid col name = true -> col = "userid" /\ name = "receipts".
Proof.
  unfold is_userid. intros H. apply andb_true_iff in H.
  destruct H as [H1 H2]. apply String.eqb_eq in H1, H2. auto.
Qed.

Lemma is_brandcode_true col name :
  is_brandcode col name = true ->
  col = "brandcode" /\ name = "rewardsreceiptitemlist".
Proof.
  unfold is_brandcode. intros H. apply andb_true_iff in H.
  destruct H as [H1 H2]. apply String.eqb_eq in H1, H2. auto.
Qed.

Lemma special_cased_false col name :
  special_cased col name = false ->
  is_userid col name = false /\ is_brandcode col name = false
  /\ is_category col name = false /\ is_categorycode col name = false
  /\ is_cpg col = false.
Proof.
  unfold special_cased. intros Hs.
  repeat (apply orb_false_iff in Hs; destruct Hs as [Hs ?]). auto.
Qed.

(** X8: no table of an analyzed model has a column [cpg]: the linking
    field is dropped wherever it occurs and whatever it holds. *)
Theorem cpg_never_a_column
  (self : modeler) (data : json) (st : structure) (self' : modeler)
  (name : string) (t : table_info) :
  analyze_structure self data = Ok (st, self') ->
  dict_get name st = Some t ->
  dict_get "cpg" (columns t) = None.
Proof.
  intros Han Hget.
  destruct (dict_get "cpg" (columns t)) as [tys|] eqn:Hcol; [|reflexivity].
  exfalso.
  destruct (column_exists_has _ _ _ _ _
              (analyze_structure_typed _ _ _ _ Han) Hget Hcol) as [ty Hhas].
  assert (all_columns (fun _ col _ => col <> "cpg") st) as Hall;
    [|now apply (Hall name "cpg" ty Hhas)].
  eapply (analyze_structure_all_columns (fun _ col _ => col <> "cpg"));
    [ | | exact Han].
  - intros n c x [Hu _|Hb _|v Hs _ _].
    + apply is_userid_true in Hu. destruct Hu as [-> _]. discriminate.
    + apply is_brandcode_true in Hb. destruct Hb as [-> _]. discriminate.
    + apply special_cased_false in Hs. destruct Hs as [_ [_ [_ [_ Hs]]]].
      unfold is_cpg in Hs. now apply String.eqb_neq in Hs.
  - intros n t0 c tys0 x Hin Hc Hx.
    pose proof (literal_tables_columns _ _ _ _ _ Hin Hc Hx) as H.
    simpl in H.
    repeat (destruct H as [H|H]; [inversion H; subst; discriminate|]).
    destruct H.
Qed.

Lemma cpg_never_a_column_witness :
  exists t,
    dict_get "brands" (fst brand_with_cpg_model) = Some t
    /\ dict_get "cpg" (columns t) = None.
Proof.
  eexists. split; [reflexivity|].
  apply (cpg_never_a_column (new "brands") (JList [brand_with_cpg])
           (fst brand_with_cpg_model) (snd brand_with_cpg_model) "brands").
  - vm_compute. reflexivity.
  - reflexivity.
Defined.

(** X9: the table [brands] of an analyzed model has neither a column
    [category] nor a column [categorycode]: both are moved to the table
    [categories]. *)
Theorem brands_without_category_columns
  (self : modeler) (data : json) (st : structure) (self' : modeler)
  (t : table_info) :
  analyze_structure self data = Ok (st, self') ->
  dict_get "brands" st = Some t ->
  dict_get "category" (columns t) = None
  /\ dict_get "categorycode" (columns t) = None.
Proof.
  intros Han Hget.
  assert (all_columns
            (fun name col _ =>
               name = "brands" -> col <> "category" /\ col <> "categorycode")
            st) as Hall.
  { eapply analyze_structure_all_columns; [ | | exact Han].
    - intros n c x [Hu _|Hb _|v Hs _ _] ->.
      + apply is_userid_true in Hu. destruct Hu as [_ Hu]. discriminate.
      + apply is_brandcode_true in Hb. destruct Hb as [_ Hb]. discriminate.
      + apply special_cased_false in Hs.
        destruct Hs as [_ [_ [Hc [Hcc _]]]].
        unfold is_category, is_categorycode in *.
        rewrite andb_true_r in Hc, Hcc.
        apply String.eqb_neq in Hc, Hcc. auto.
    - intros n t0 c tys0 x Hin Hc Hx ->.
      pose proof (literal_tables_columns _ _ _ _ _ Hin Hc Hx) as H.
      simpl in H.
      repeat (destruct H as [H|H]; [inversion H|]).
      destruct H. }
  pose proof (analyze_structure_typed _ _ _ _ Han) as Ht.
  split.
  - destruct (dict_get "category" (columns t)) as [tys|] eqn:Hcol;
      [|reflexivity].
    destruct (column_exists_has _ _ _ _ _ Ht Hget Hcol) as [ty Hhas].
    destruct (Hall _ _ _ Hhas eq_refl) as [H _]. now contradiction H.
  - destruct (dict_get "categorycode" (columns t)) as [tys|] eqn:Hcol;
      [|reflexivity].
    destruct (column_exists_has _ _ _ _ _ Ht Hget Hcol) as [ty Hhas].
    destruct (Hall _ _ _ Hhas eq_refl) as [_ H]. now contradiction H.
Qed.

Lemma brands_without_category_columns_witness :
  exists t,
    dict_get "brands" (fst brand_with_cpg_model) = Some t
    /\ dict_get "category" (columns t) = None
    /\ dict_get "categorycode" (columns t) = None.
Proof.
  eexists. split; [reflexivity|].
  apply (brands_without_category_columns (new "brands")
           (JList [brand_with_cpg])
           (fst brand_with_cpg_model) (snd brand_with_cpg_model)).
  - vm_compute. reflexivity.
  - reflexivity.
Defined.

(** X10: in an analyzed model the column [userid] of [receipts] holds no
    type but [VARCHAR(24)], and the column [brandcode] of
    [rewardsreceiptitemlist] no type but [VARCHAR(255)], whatever values
    the documents carry in these fields. *)
Theorem foreign_key_columns_hard_wired
  (self : modeler) (data : json) (st : structure) (self' : modeler) :
  analyze_structure self data = Ok (st, self') ->
  (forall ty, column_has st "receipts" "userid" ty -> ty = "VARCHAR(24)")
  /\ (forall ty, column_has st "rewardsreceiptitemlist" "brandcode" ty ->
                 ty = "VARCHAR(255)").
Proof.
  intros Han.
  assert (all_columns
            (fun name col x =>
               (is_userid col name = true -> x = "VARCHAR(24)")
               /\ (is_brandcode col name = true -> x = "VARCHAR(255)"))
            st) as Hall.
  { eapply analyze_structure_all_columns; [ | | exact Han].
    - intros n c x [Hu ->|Hb ->|v Hs _ _].
      + split; [reflexivity|]. intros Hb.
        apply is_userid_true in Hu. apply is_brandcode_true in Hb.
        destruct Hu as [-> _], Hb as [Hb _]. discriminate.
      + split; [|reflexivity]. intros Hu.
        apply is_userid_true in Hu. apply is_brandcode_true in Hb.
        destruct Hu as [-> _], Hb as [Hb _]. discriminate.
      + apply special_cased_false in Hs. destruct Hs as [Hu [Hb _]].
        rewrite Hu, Hb. split; discriminate.
    - intros n t0 c tys0 x Hin Hc Hx.
      pose proof (literal_tables_columns _ _ _ _ _ Hin Hc Hx) as H.
      simpl in H.
      repeat (destruct H as [H|H];
              [inversion H; subst; split; discriminate|]).
      destruct H. }
  split; intros ty Hhas; apply (Hall _ _ _ Hhas); reflexivity.
Qed.

Lemma foreign_key_columns_hard_wired_witness :
  (forall ty, column_has (fst receipt_model) "receipts" "userid" ty ->
              ty = "VARCHAR(24)")
  /\ (forall ty,
        column_has (fst receipt_model) "rewardsreceiptitemlist" "brandcode"
          ty ->
        ty = "VARCHAR(255)").
Proof.
  apply (foreign_key_columns_hard_wired (new "receipts")
           (JList [receipt_document])
           (fst receipt_model) (snd receipt_model)).
  vm_compute. reflexivity.
Defined.

Lemma classified_type_known value col :
  classified value = true -> In (infer_data_type value col) known_types.
Proof.
  unfold known_types.
  destruct value as [| | | |s|l|d]; simpl; intros Hc; try tauto.
  - destruct (PyStr.contains "date" (PyStr.lower col)); [simpl; tauto|].
    destruct (PyStr.contains "price" (PyStr.lower col)
              || PyStr.contains "spent" (PyStr.lower col));
      [simpl; tauto|].
    destruct (255 <? String.length s)%nat; simpl; tauto.
  - destruct (dict_has "$date" d); [simpl; tauto|].
    simpl in Hc. rewrite Hc. simpl; tauto.
Qed.

(** X11: every storage type that an analyzed model holds is one of the
    twelve [known_types]; in particular ["NESTED"] is never recorded,
    since a mapping is either a date or identifier wrapper or a table of
    its own. *)
Theorem recorded_types_known
  (self : modeler) (data : json) (st : structure) (self' : modeler)
  (name col ty : string) :
  analyze_structure self data = Ok (st, self') ->
  column_has st name col ty ->
  In ty known_types /\ ty <> "NESTED".
Proof.
  intros Han Hhas.
  assert (all_columns (fun _ _ x => In x known_types) st) as Hall.
  { eapply analyze_structure_all_columns; [ | | exact Han].
    - intros n c x [_ ->|_ ->|v _ Hc ->].
      + simpl; tauto.
      + simpl; tauto.
      + now apply classified_type_known.
    - intros n t0 c tys0 x Hin Hc Hx.
      pose proof (literal_tables_columns _ _ _ _ _ Hin Hc Hx) as H.
      simpl in H.
      repeat (destruct H as [H|H]; [inversion H; subst; simpl; tauto|]).
      destruct H. }
  pose proof (Hall _ _ _ Hhas) as Hin. split; [exact Hin|].
  intros ->. simpl in Hin.
  repeat (destruct Hin as [Hin|Hin]; [discriminate|]). exact Hin.
Qed.

Lemma recorded_types_known_witness :
  In "TIMESTAMP" known_types /\ "TIMESTAMP" <> "NESTED".
Proof.
  apply (recorded_types_known (new "receipts") (JList [receipt_document])
           (fst receipt_model) (snd receipt_model)
           "receipts" "createdate" "TIMESTAMP").
  - vm_compute. reflexivity.
  - eexists; eexists. split; [reflexivity|]. split; [reflexivity|].
    now left.
Defined.

(** ** The model only grows *)

Lemma add_column_rel_mono n c ty st st' name rel :
  add_column n c ty st = Ok st' ->
  relationship_has st name rel -> relationship_has st' name rel.
Proof.
  unfold add_column. intros H [t0 [Hget Hin]].
  apply with_table_ok in H. destruct H as [t' [Hf [Hget' Hother]]].
  destruct (String.eqb_spec name n) as [->|Hne].
  - unfold table_or_fresh in Hf. rewrite Hget in Hf.
    apply add_type_ok in Hf. destruct Hf as [_ [_ [_ Hrel]]].
    exists t'. split; [exact Hget'|]. now rewrite Hrel.
  - exists t0. rewrite Hother by exact Hne. auto.
Qed.

Lemma add_relationship_rel_mono n r st st' name rel :
  add_relationship n r st = Ok st' ->
  relationship_has st name rel -> relationship_has st' name rel.
Proof.
  unfold add_relationship. intros H [t0 [Hget Hin]].
  apply with_table_ok in H. destruct H as [t' [Hf [Hget' Hother]]].
  destruct (String.eqb_spec name n) as [->|Hne].
  - unfold table_or_fresh in Hf. rewrite Hget in Hf.
    unfold add_rel in Hf. inversion Hf; subst; clear Hf.
    eexists. split; [exact Hget'|]. simpl. apply set_add_in. now right.
  - exists t0. rewrite Hother by exact Hne. auto.
Qed.

Lemma add_relationship_records n r st st' :
  add_relationship n r st = Ok st' -> relationship_has st' n r.
Proof.
  unfold add_relationship. intros H.
  apply with_table_ok in H. destruct H as [t' [Hf [Hget' _]]].
  unfold add_rel in Hf. inversion Hf; subst; clear Hf.
  eexists. split; [exact Hget'|]. simpl. apply set_add_in. now left.
Qed.

Lemma keeps_refl name st : keeps name st st.
Proof. split; [intros col ty H | intros rel H]; exact H. Qed.

Lemma keeps_trans name a b c :
  keeps name a b -> keeps name b c -> keeps name a c.
Proof.
  intros [G1 R1] [G2 R2]. split.
  - intros col ty H. apply G2, G1, H.
  - intros rel H. apply R2, R1, H.
Qed.

Lemma add_column_keeps name n c ty st st' :
  add_column n c ty st = Ok st' -> keeps name st st'.
Proof.
  intros H. split.
  - intros col x Hx. eapply add_column_mono; eauto.
  - intros rel Hr. eapply add_column_rel_mono; eauto.
Qed.

Lemma add_relationship_keeps name n r st st' :
  add_relationship n r st = Ok st' -> keeps name st st'.
Proof.
  intros H. split.
  - intros col x Hx. eapply add_relationship_mono; eauto.
  - intros rel Hr. eapply add_relationship_rel_mono; eauto.
Qed.

Lemma dict_set_keeps name n (v : table_info) st :
  name <> n -> keeps name st (dict_set n v st).
Proof.
  intros Hne. split.
  - intros col x Hx. now apply dict_set_mono.
  - intros rel [t0 [Hget Hin]]. exists t0.
    rewrite dict_get_set_other by exact Hne. auto.
Qed.

Lemma analyze_items_keeps self name items st st' :
  name <> "categories" ->
  analyze_items self items st = Ok st' -> keeps name st st'.
Proof.
  intros Hne. apply (analyze_items_preserves (keeps name)).
  - apply keeps_refl.
  - apply keeps_trans.
  - intros n c ty a b. apply add_column_keeps.
  - intros n r a b. apply add_relationship_keeps.
  - intros a. now apply dict_set_keeps.
Qed.

Lemma analyze_fields_keeps self name table_name fields st st' :
  name <> "categories" ->
  analyze_fields (analyze_recursive self) table_name fields st = Ok st' ->
  keeps name st st'.
Proof.
  intros Hne. apply (analyze_fields_preserves_all (keeps name)).
  - apply keeps_refl.
  - apply keeps_trans.
  - intros n c ty a b. apply add_column_keeps.
  - intros n r a b. apply add_relationship_keeps.
  - intros a. now apply dict_set_keeps.
Qed.

Lemma analyze_items_app self items more st :
  analyze_items self (items ++ more)%list st
  = (st' <- analyze_items self items st ;; analyze_items self more st').
Proof.
  revert st. induction items as [|item items IH]; intros st;
    cbn [app analyze_items]; [reflexivity|].
  destruct (analyze_recursive self item "" st); cbn [bind]; auto.
Qed.

(** X12: documents appended to a population take nothing away: every
    type and every relationship that the model of the shorter population
    records for a table other than [categories] is recorded in the model
    of the longer one. *)
Theorem model_grows_with_documents
  (self : modeler) (docs more : list json) (st1 st2 : structure)
  (name : string) :
  name <> "categories" ->
  analyze_documents self (JList docs) = Ok st1 ->
  analyze_documents self (JList (docs ++ more)) = Ok st2 ->
  (forall col ty, column_has st1 name col ty -> column_has st2 name col ty)
  /\ (forall rel,
        relationship_has st1 name rel -> relationship_has st2 name rel).
Proof.
  cbn [analyze_documents]. intros Hne H1 H2.
  rewrite analyze_items_app, H1 in H2. cbn [bind] in H2.
  exact (analyze_items_keeps _ _ _ _ _ Hne H2).
Qed.

(** X13: the items of a population that are not mappings contribute
    nothing: the analysis of the population is the analysis of its
    mappings. *)
Theorem non_mappings_ignored
  (self : modeler) (items : list json) (st : structure) :
  analyze_items self items st = analyze_items self (filter is_dict items) st.
Proof.
  revert st. induction items as [|item items IH]; intros st;
    [reflexivity|].
  destruct item; cbn [filter is_dict analyze_items analyze_recursive bind];
    try apply IH.
  destruct (analyze_fields _ _ _ _); cbn [bind]; auto.
Qed.

Lemma model_grows_with_documents_witness :
  (forall col ty,
     column_has first_user_model "users" col ty ->
     column_has both_users_model "users" col ty)
  /\ (forall rel,
        relationship_has first_user_model "users" rel ->
        relationship_has both_users_model "users" rel).
Proof.
  apply (model_grows_with_documents (new "users") [first_user] [second_user]
           first_user_model both_users_model "users").
  - discriminate.
  - vm_compute. reflexivity.
  - vm_compute. reflexivity.
Defined.

(** ** The user reference of a receipt *)

Lemma keeps_userid_recorded a b :
  keeps "receipts" a b -> userid_recorded a -> userid_recorded b.
Proof.
  intros [G R] [H1 [H2 H3]]. repeat split; auto.
Qed.

Lemma analyze_field_userid recurse key value st st' :
  clean_column_name key = "userid" ->
  analyze_field recurse "receipts" (key, value) st = Ok st' ->
  userid_recorded st'.
Proof.
  intros Hk. unfold analyze_field. rewrite Hk.
  cbn [is_userid String.eqb Ascii.eqb Bool.eqb andb].
  destruct (add_column "receipts" "userid" "VARCHAR(24)" st) as [s1|] eqn:H1;
    cbn [bind]; [|discriminate].
  destruct (add_relationship "receipts" _ s1) as [s2|] eqn:H2; cbn [bind];
    [|discriminate].
  intros H3.
  pose proof (add_relationship_keeps "receipts" _ _ _ _ H2) as K2.
  pose proof (add_relationship_keeps "receipts" _ _ _ _ H3) as K3.
  destruct K2 as [G2 R2], K3 as [G3 R3].
  split; [apply G3, G2; eapply add_column_records; exact H1|].
  split; [apply R3; eapply add_relationship_records; exact H2|].
  eapply add_relationship_records; exact H3.
Qed.

Lemma analyze_fields_userid self key value fields :
  clean_column_name key = "userid" ->
  In (key, value) fields ->
  forall st st',
    analyze_fields (analyze_recursive self) "receipts" fields st = Ok st' ->
    userid_recorded st'.
Proof.
  intros Hk. induction fields as [|field fields IH]; intros Hin st st';
    [destruct Hin|].
  cbn [analyze_fields].
  destruct (analyze_field (analyze_recursive self) "receipts" field st)
    as [s1|] eqn:H1; cbn [bind]; [|discriminate].
  intros H2. destruct Hin as [->|Hin].
  - apply analyze_field_userid in H1; [|exact Hk].
    eapply keeps_userid_recorded; [|exact H1].
    eapply analyze_fields_keeps; [discriminate | exact H2].
  - eapply IH; eauto.
Qed.

(** X14: when a receipt of the population has a field whose cleaned name
    is [userid], whatever its value, the model records [VARCHAR(24)] for
    the column [userid] of [receipts], the foreign key to [users._id] and
    the tracking by [missing_users]. *)
Theorem receipts_userid_recorded
  (self : modeler) (docs : list json) (fields : list (string * json))
  (key : string) (value : json) (st : structure) (self' : modeler) :
  current_file_stem self = "receipts" ->
  In (JDict fields) docs ->
  In (key, value) fields ->
  clean_column_name key = "userid" ->
  analyze_structure self (JList docs) = Ok (st, self') ->
  userid_recorded st.
Proof.
  intros Hstem Hdoc Hkey Hk Han.
  unfold analyze_structure in Han.
  destruct (analyze_documents self (JList docs)) as [s1|] eqn:H1;
    cbn [bind] in Han; [|discriminate].
  cbn [analyze_documents] in H1.
  assert (userid_recorded s1) as Hs1.
  { clear Han. revert H1. generalize (@nil (string * table_info)).
    induction docs as [|doc docs IH]; intros st0; [destruct Hdoc|].
    cbn [analyze_items].
    destruct (analyze_recursive self doc "" st0) as [s0|] eqn:H0;
      cbn [bind]; [|discriminate].
    intros H1. destruct Hdoc as [->|Hdoc].
    - cbn [analyze_recursive table_name_of] in H0. rewrite Hstem in H0.
      eapply keeps_userid_recorded.
      + eapply analyze_items_keeps; [discriminate | exact H1].
      + eapply analyze_fields_userid; eauto.
    - eapply IH; eauto. }
  destruct (negb (exception_tables_added self));
    inversion Han; subst; [|exact Hs1].
  eapply keeps_userid_recorded; [|exact Hs1].
  unfold add_exception_tables, exception_tables. simpl.
  eapply keeps_trans; apply dict_set_keeps; discriminate.
Qed.

Lemma receipts_userid_recorded_witness :
  userid_recorded (fst receipt_model).
Proof.
  apply (receipts_userid_recorded (new "receipts") [receipt_document]
           [("_id", JDict [("$oid", JStr "5ff1e1eb0a720f0523000575")]);
            ("bonusPointsEarned", JInt 500);
            ("createDate", JDict [("$date", JInt 1609687531000)]);
            ("pointsEarned", JStr "500.0");
            ("rewardsReceiptItemList",
             JList [JDict [("barcode", JStr "4011");
                           ("brandCode", JStr "X1");
                           ("finalPrice", JStr "26.00")]]);
            ("totalSpent", JStr "26.00");
            ("userId", JStr "5ff1e1eacfcf6c399c274ae6")]
           "userId" (JStr "5ff1e1eacfcf6c399c274ae6")
           (fst receipt_model) (snd receipt_model)).
  - reflexivity.
  - left. reflexivity.
  - simpl. tauto.
  - reflexivity.
  - vm_compute. reflexivity.
Defined.

(** ** A literal table rejects new columns *)

Lemma with_table_raise name f st t e :
  dict_get name st = Some t -> f t = Raise e ->
  with_table name f st = Raise e.
Proof.
  induction st as [|[k t0] st IH]; simpl; [discriminate|].
  destruct (String.eqb k name).
  - intros H Hf; inversion H; subst. now rewrite Hf.
  - intros H Hf. now rewrite (IH H Hf).
Qed.

(** X15: a field that is classified and belongs to a table whose columns
    are a plain [dict] (the literal [categories] table) makes the
    analysis raise [KeyError] when the table lacks the field's column. *)
Theorem plain_table_rejects_new_column
  (recurse : json -> string -> structure -> result structure)
  (table_name key : string) (value : json) (st : structure)
  (t : table_info) :
  dict_get table_name st = Some t ->
  columns_default t = false ->
  dict_get (clean_column_name key) (columns t) = None ->
  special_cased (clean_column_name key) table_name = false ->
  classified value = true ->
  analyze_field recurse table_name (key, value) st
  = Raise (KeyError (clean_column_name key)).
Proof.
  intros Hget Hplain Hcol Hs Hc.
  assert (forall ty, add_column table_name (clean_column_name key) ty st
                     = Raise (KeyError (clean_column_name key))) as Hraise.
  { intros ty. unfold add_column.
    apply with_table_raise with t; [exact Hget|].
    unfold add_type. now rewrite Hcol, Hplain. }
  apply special_cased_false in Hs.
  destruct Hs as [H1 [H2 [H3 [H4 H5]]]].
  unfold analyze_field. rewrite H1, H2, H3, H4, H5.
  destruct value as [| | | | |l|d]; try apply Hraise.
  - destruct l as [|first tl]; [apply Hraise|].
    destruct first; try apply Hraise. discriminate.
  - simpl in Hc. rewrite Hc. apply Hraise.
Qed.

Lemma plain_table_rejects_new_column_witness :
  analyze_field (analyze_recursive (new "brands")) "categories"
    ("name", JStr "Baking") model_with_categories
  = Raise (KeyError (clean_column_name "name")).
Proof.
  apply (plain_table_rejects_new_column (analyze_recursive (new "brands"))
           "categories" "name" (JStr "Baking") model_with_categories
           categories_table); reflexivity.
Defined.

(* ================================================================= *)
(** * Further properties of the loader *)

(** ** Unwrapping values *)

(** X16: [process_value] raises for one kind of value only, a mapping
    with the key [$date]: with [TypeError] when the entry is not a
    number, and with the exception of the division or of
    [datetime.fromtimestamp] when the entry is a count that the platform
    cannot convert; every other value is unwrapped or passed on. *)
Theorem process_value_raises_only_on_bad_date
  (db : store) (value : json) (e : exn) :
  process_value db value = Raise e <->
  exists d millis,
    value = JDict d
    /\ dict_get "$date" d = Some millis
    /\ match milliseconds millis with
       | Some (m, x) => datetime_error db m x = Some e
       | None => e = TypeError
       end.
Proof.
  split.
  - destruct value as [| | | | | |d]; try discriminate.
    unfold process_value, dict_has, process_timestamp, fromtimestamp.
    destruct (dict_get "$date" d) as [millis|] eqn:Hd.
    + intros H. exists d, millis.
      split; [reflexivity|]. split; [exact Hd|].
      destruct millis as [|b|n|m x|s|l|dv]; cbn [milliseconds];
        try (inversion H; reflexivity);
        match type of H with
        | match ?c with _ => _ end = _ =>
            destruct c eqn:Hc; inversion H; subst; reflexivity
        end.
    + destruct (dict_get "$oid" d); discriminate.
  - intros [d [millis [-> [Hd Hm]]]].
    unfold process_value, dict_has, process_timestamp, fromtimestamp.
    rewrite Hd.
    destruct millis; cbn [milliseconds] in Hm;
      try (now rewrite Hm); subst; reflexivity.
Qed.

Lemma process_value_raises_only_on_bad_date_witness :
  process_value empty_store (JDict [("$date", JInt 253402300800000)])
  = Raise ValueError
  /\ exists d millis,
       JDict [("$date", JInt 253402300800000)] = JDict d
       /\ dict_get "$date" d = Some millis
       /\ match milliseconds millis with
          | Some (m, x) => datetime_error empty_store m x = Some ValueError
          | None => ValueError = TypeError
          end.
Proof.
  split; [reflexivity|].
  apply (process_value_raises_only_on_bad_date empty_store
           (JDict [("$date", JInt 253402300800000)]) ValueError).
  reflexivity.
Defined.

(** ** What the insertion of a receipt changes *)

Lemma receipt_values_length db receipt user_id values :
  receipt_values db receipt user_id = Ok values -> List.length values = 14.
Proof.
  unfold receipt_values. intros H. split_sequence H.
  cbn [sequence] in H. inversion H; subst. reflexivity.
Qed.

Lemma processed_rules db1 db2 obj key :
  datetime_error db1 = datetime_error db2 ->
  processed db1 obj key = processed db2 obj key.
Proof.
  intros H. unfold processed, process_value, process_timestamp,
    fromtimestamp. now rewrite H.
Qed.

Lemma same_rules_trans a b c :
  same_rules a b -> same_rules b c -> same_rules a c.
Proof.
  intros [A1 [A2 [A3 A4]]] [B1 [B2 [B3 B4]]].
  repeat split; congruence.
Qed.

Lemma resolve_user_effect now receipt db db1 user_id :
  resolve_user now receipt db = Ok (db1, user_id) ->
  users db1 = users db /\ brands db1 = brands db
  /\ receipts db1 = receipts db
  /\ rewardsreceiptitemlist db1 = rewardsreceiptitemlist db
  /\ missing_brands db1 = missing_brands db
  /\ same_rules db db1
  /\ missing_users db1
     = match missing_user_of db receipt with
       | Some s => sightings 24 [now] s (missing_users db)
       | None => missing_users db
       end
  /\ user_id = stored_user db receipt.
Proof.
  unfold resolve_user, missing_user_of, stored_user.
  destruct (processed db receipt "userId") as [u|]; cbn [bind];
    [|discriminate].
  destruct u as [j|m x]; [|discriminate].
  destruct j as [|b|n|m x|s|l|d]; cbn [truthy];
    try (intros H; inversion H; subst; repeat split; reflexivity);
    try (match goal with
         | |- context [if ?c then _ else _] => destruct c
         end;
         try discriminate;
         intros H; inversion H; subst; repeat split; reflexivity).
  destruct (String.eqb s ""); cbn [negb andb orb].
  - intros H; inversion H; subst. repeat split.
  - destruct (binds db s) eqn:Hb; [|discriminate]. cbn [andb].
    destruct (existsb (String.eqb s) (users db)); cbn [negb].
    + intros H; inversion H; subst. repeat split.
    + intros H; inversion H; subst.
      destruct (track_missing_user_frame now s db)
        as [H1 [H2 [H3 [H4 [H5 H6]]]]]. cbn zeta in *.
      repeat split; auto; try apply H6.
      now apply track_missing_user_ledger.
Qed.

Lemma resolve_user_raise now receipt db e :
  resolve_user now receipt db = Raise e -> missing_user_of db receipt = None.
Proof.
  unfold resolve_user, missing_user_of.
  destruct (processed db receipt "userId") as [u|]; cbn [bind];
    [|reflexivity].
  destruct u as [j|m x]; [|reflexivity].
  destruct j as [|b|n|m x|s|l|d]; try reflexivity.
  cbn [truthy].
  destruct (String.eqb s ""); cbn [negb andb]; [reflexivity|].
  destruct (binds db s); cbn [andb]; [|reflexivity].
  destruct (existsb (String.eqb s) (users db)); discriminate.
Qed.

Lemma forallb_combine {A B : Type} (f : B -> bool) (keys : list A)
  (values : list B) :
  forallb f values = true ->
  forallb (fun cell => f (snd cell)) (combine keys values) = true.
Proof.
  revert values. induction keys as [|k keys IH]; intros values;
    [reflexivity|].
  destruct values as [|v values]; [reflexivity|].
  cbn [forallb combine snd]. intros H.
  apply andb_true_iff in H. destruct H as [Hv Hvs].
  now rewrite Hv, IH.
Qed.

Lemma insert_receipt_without_items_changes
  (now : Z) (receipt : json) (db : store) :
  let db' := fst (insert_receipt_without_items now receipt db) in
  users db' = users db
  /\ brands db' = brands db
  /\ rewardsreceiptitemlist db' = rewardsreceiptitemlist db
  /\ missing_brands db' = missing_brands db
  /\ same_rules db db'
  /\ missing_users db'
     = match missing_user_of db receipt with
       | Some s => sightings 24 [now] s (missing_users db)
       | None => missing_users db
       end
  /\ match snd (insert_receipt_without_items now receipt db) with
     | Some id =>
         receipts db' = (receipts db ++ [receipt_row db receipt])%list
         /\ List.length (receipt_row db receipt) = 14
         /\ forallb (fun cell => adaptable db (snd cell))
              (receipt_row db receipt) = true
         /\ exists c, admits_receipt db c (receipt_row db receipt) = Some id
     | None => receipts db' = receipts db
     end.
Proof.
  unfold insert_receipt_without_items.
  destruct (resolve_user now receipt db) as [[db1 user_id]|e] eqn:Hr.
  - destruct (resolve_user_effect _ _ _ _ _ Hr)
      as [H1 [H2 [H3 [H4 [H5 [HR [H7 ->]]]]]]].
    pose proof HR as [R1 [R2 [R3 R4]]].
    rewrite (receipt_values_rules db1 db receipt _ R1).
    unfold receipt_row.
    destruct (receipt_values db receipt (stored_user db receipt))
      as [values|] eqn:Hv; [|cbn [fst snd]; repeat split; auto].
    unfold insert_receipt_row.
    rewrite (adaptable_rules db1 db values R2).
    destruct (forallb (adaptable db) values) eqn:Had;
      [|cbn [fst snd]; repeat split; auto].
    rewrite R3.
    destruct (admits_receipt db db1 (combine receipt_columns values))
      as [id|] eqn:Hadm; [|cbn [fst snd]; repeat split; auto].
    cbn [fst snd content with_content users brands receipts
         rewardsreceiptitemlist missing_brands missing_users].
    split; [exact H1|]. split; [exact H2|]. split; [exact H4|].
    split; [exact H5|]. split; [exact HR|]. split; [exact H7|].
    split; [now rewrite H3|].
    split.
    { rewrite length_combine, (receipt_values_length _ _ _ _ Hv).
      reflexivity. }
    split; [now apply forallb_combine|].
    eauto.
  - apply resolve_user_raise in Hr. rewrite Hr.
    cbn [fst snd]. repeat split.
Qed.

Lemma tables_eta (c : tables) :
  c = {| users := users c; brands := brands c; receipts := receipts c;
         rewardsreceiptitemlist := rewardsreceiptitemlist c;
         missing_brands := missing_brands c;
         missing_users := missing_users c |}.
Proof. now destruct c. Qed.

Lemma resolve_user_ok now receipt db db1 user_id :
  resolve_user now receipt db = Ok (db1, user_id) ->
  exists v,
    processed db receipt "userId" = Ok v /\ user_resolves db v = true.
Proof.
  unfold resolve_user, user_resolves.
  destruct (processed db receipt "userId") as [u|]; cbn [bind];
    [|discriminate].
  intros H. exists u. split; [reflexivity|].
  destruct u as [j|m x]; [|discriminate].
  destruct j as [|b|n|m x|s|l|d]; cbn [truthy] in *; try reflexivity;
    try (match type of H with
         | (if ?c then _ else _) = _ => destruct c
         end; [discriminate | reflexivity]).
  destruct (String.eqb s ""); cbn [negb orb] in *; [reflexivity|].
  destruct (binds db s); [reflexivity | discriminate].
Qed.

Lemma resolve_user_not_storable now receipt db e :
  resolve_user now receipt db = Raise e -> receipt_storable db receipt = false.
Proof.
  unfold resolve_user, receipt_storable, user_resolves.
  destruct (processed db receipt "userId") as [u|]; cbn [bind];
    [|reflexivity].
  destruct u as [j|m x]; [|reflexivity].
  destruct j as [|b|n|m x|s|l|d]; cbn [truthy];
    try discriminate;
    try (match goal with
         | |- (if ?c then _ else _) = _ -> _ => destruct c
         end; [reflexivity | discriminate]).
  destruct (String.eqb s ""); cbn [negb orb]; [discriminate|].
  destruct (binds db s); [|reflexivity].
  destruct (existsb (String.eqb s) (users db)); discriminate.
Qed.

Lemma insert_receipt_without_items_returns
  (now : Z) (receipt : json) (db : store) :
  let r := insert_receipt_without_items now receipt db in
  snd r
  = (if receipt_storable db receipt
     then admits_receipt db
            (with_missing_users db (missing_users (fst r)))
            (receipt_row db receipt)
     else None)
  /\ (receipt_storable db receipt = true ->
      List.length (receipt_row db receipt) = 14
      /\ forallb (fun cell => adaptable db (snd cell))
           (receipt_row db receipt) = true).
Proof.
  cbn zeta. split.
  - unfold insert_receipt_without_items.
    destruct (resolve_user now receipt db) as [[db1 user_id]|e] eqn:Hr.
    + destruct (resolve_user_ok _ _ _ _ _ Hr) as [v [Hp Hres]].
      destruct (resolve_user_effect _ _ _ _ _ Hr)
        as [H1 [H2 [H3 [H4 [H5 [HR [H7 ->]]]]]]].
      pose proof HR as [R1 [R2 [R3 R4]]].
      assert (content db1 = with_missing_users db (missing_users db1))
        as Hcontent.
      { rewrite (tables_eta db1). unfold with_missing_users.
        cbn [users brands receipts rewardsreceiptitemlist missing_brands
             missing_users].
        now rewrite H1, H2, H3, H4, H5. }
      unfold receipt_storable, receipt_row. rewrite Hp, Hres. cbn [andb].
      rewrite (receipt_values_rules db1 db receipt _ R1).
      destruct (receipt_values db receipt (stored_user db receipt))
        as [values|] eqn:Hv; [|reflexivity].
      unfold insert_receipt_row.
      rewrite (adaptable_rules db1 db values R2).
      destruct (forallb (adaptable db) values) eqn:Had; [|reflexivity].
      rewrite R3, Hcontent.
      destruct (admits_receipt db
                  (with_missing_users db (missing_users db1))
                  (combine receipt_columns values)) as [id|] eqn:Hadm;
        unfold with_missing_users in *;
        cbn [fst snd content with_content missing_users];
        now rewrite Hadm.
    + rewrite (resolve_user_not_storable _ _ _ _ Hr). reflexivity.
  - unfold receipt_storable, receipt_row.
    destruct (processed db receipt "userId") as [v|]; [|discriminate].
    destruct (user_resolves db v); [|discriminate]. cbn [andb].
    destruct (receipt_values db receipt (stored_user db receipt))
      as [values|] eqn:Hv; [|discriminate].
    intros Had. split.
    + rewrite length_combine, (receipt_values_length _ _ _ _ Hv).
      reflexivity.
    + now apply forallb_combine.
Qed.

(** X17: [insert_receipt_without_items] touches nothing but the receipts
    and the ledger of users: [users], [brands], the line items and
    [missing_brands] are left as they are.  When the receipt names a
    user that the driver binds and [users] lacks, [missing_users] gets
    one sighting of it, also when the receipt itself is then not
    inserted; the sighting is recorded by the upsert, under the key cut
    to the width of the column when only spaces exceed it, and not at
    all when the key does not fit or the count would leave [INTEGER].
    The call returns what the store answers to the row of the receipt,
    of fourteen columns, when the lookup of the user raises nothing, the
    dates convert and the driver adapts every value, and [None]
    otherwise; [receipts] gains this row when an identifier is
    returned, and nothing when [None] is. *)
Theorem insert_receipt_without_items_effect
  (now : Z) (receipt : json) (db : store) :
  let r := insert_receipt_without_items now receipt db in
  let db' := fst r in
  users db' = users db
  /\ brands db' = brands db
  /\ rewardsreceiptitemlist db' = rewardsreceiptitemlist db
  /\ missing_brands db' = missing_brands db
  /\ same_rules db db'
  /\ missing_users db'
     = match missing_user_of db receipt with
       | Some s => sightings 24 [now] s (missing_users db)
       | None => missing_users db
       end
  /\ snd r
     = (if receipt_storable db receipt
        then admits_receipt db
               (with_missing_users db (missing_users db'))
               (receipt_row db receipt)
        else None)
  /\ receipts db'
     = (receipts db
        ++ match snd r with
           | Some _ => [receipt_row db receipt]
           | None => []
           end)%list
  /\ (receipt_storable db receipt = true ->
      List.length (receipt_row db receipt) = 14
      /\ forallb (fun cell => adaptable db (snd cell))
           (receipt_row db receipt) = true).
Proof.
  pose proof (insert_receipt_without_items_changes now receipt db) as E.
  pose proof (insert_receipt_without_items_returns now receipt db) as R.
  cbn zeta in *.
  destruct E as [E1 [E2 [E3 [E4 [ER [E5 E6]]]]]].
  destruct R as [R1 R2].
  repeat (split; [assumption|]).
  split; [|exact R2].
  destruct (snd (insert_receipt_without_items now receipt db)).
  - now destruct E6 as [-> _].
  - now rewrite app_nil_r.
Qed.

(** ** What the insertion of line items changes *)

Lemma item_values_dict d receipt_id :
  item_values (JDict d) (PJson (get_or_none d "brandCode")) receipt_id
  = Ok (map (fun key => PJson (get_or_none d key)) item_fields
        ++ [PJson (JInt receipt_id)])%list.
Proof. reflexivity. Qed.

Lemma forallb_map_eq {A B : Type} (f : B -> bool) (g : A -> B)
  (l : list A) :
  forallb f (map g l) = forallb (fun x => f (g x)) l.
Proof.
  induction l as [|x l IH]; cbn [map forallb]; [reflexivity|].
  now rewrite IH.
Qed.

Lemma forallb_false_in {A : Type} (f : A -> bool) (x : A) (l : list A) :
  In x l -> f x = false -> forallb f l = false.
Proof.
  intros Hin Hx. induction l as [|y l IH]; [destruct Hin|].
  cbn [forallb]. destruct Hin as [->|Hin].
  - now rewrite Hx.
  - rewrite (IH Hin). apply andb_false_r.
Qed.

Lemma item_values_adaptable db d receipt_id :
  forallb (adaptable db)
    (map (fun key => PJson (get_or_none d key)) item_fields
     ++ [PJson (JInt receipt_id)])%list
  = forallb (fun key => adaptable db (PJson (get_or_none d key)))
      item_fields.
Proof.
  rewrite forallb_app, forallb_map_eq. cbn [forallb adaptable adaptable_json].
  now rewrite !andb_true_r.
Qed.

Lemma item_row_dict d receipt_id :
  item_row receipt_id (JDict d)
  = combine item_columns
      (map (fun key => PJson (get_or_none d key)) item_fields
       ++ [PJson (JInt receipt_id)])%list.
Proof. reflexivity. Qed.

Lemma resolve_brand_effect now item db db1 brandcode :
  resolve_brand now item db = Ok (db1, brandcode) ->
  exists d,
    item = JDict d
    /\ brandcode = PJson (get_or_none d "brandCode")
    /\ item_accepted db item
       = forallb (fun key => adaptable db (PJson (get_or_none d key)))
           item_fields
    /\ users db1 = users db /\ brands db1 = brands db
    /\ receipts db1 = receipts db
    /\ rewardsreceiptitemlist db1 = rewardsreceiptitemlist db
    /\ missing_users db1 = missing_users db
    /\ same_rules db db1
    /\ missing_brands db1
       = match missing_brand_of db item with
         | Some s => sightings 255 [now] s (missing_brands db)
         | None => missing_brands db
         end.
Proof.
  unfold resolve_brand, missing_brand_of, item_accepted, plain, py_get.
  destruct item as [| | | | | |d]; try discriminate.
  cbn [bind]. fold (get_or_none d "brandCode"). unfold get_or_none at 1 2.
  destruct (dict_get "brandCode" d) as [v|] eqn:Hb.
  - destruct v as [|b|n|m x|s|l|dv]; cbn [truthy];
      try (intros H; inversion H; subst; exists d;
           repeat split; reflexivity);
      try (match goal with
           | |- context [if ?c then _ else _] => destruct c eqn:Hc
           end;
           try discriminate;
           intros H; inversion H; subst; exists d;
           cbn [negb andb]; repeat split; reflexivity).
    destruct (String.eqb s ""); cbn [negb andb].
    + intros H; inversion H; subst. exists d. repeat split.
    + destruct (binds db s) eqn:Hbind; [|discriminate]. cbn [andb].
      destruct (existsb (String.eqb s) (brands db)); cbn [negb].
      * intros H; inversion H; subst. exists d. repeat split.
      * intros H; inversion H; subst. exists d.
        destruct (track_missing_brand_frame now s db)
          as [H1 [H2 [H3 [H4 [H5 H6]]]]]. cbn zeta in *.
        repeat split; auto; try apply H6.
        now apply track_missing_brand_ledger.
  - cbn [truthy]. intros H; inversion H; subst. exists d. repeat split.
Qed.

Lemma resolve_brand_raise now item db e :
  resolve_brand now item db = Raise e ->
  item_accepted db item = false /\ missing_brand_of db item = None.
Proof.
  unfold resolve_brand, missing_brand_of, item_accepted, plain, py_get.
  destruct item as [| | | | | |d]; try (intros _; split; reflexivity).
  cbn [bind].
  destruct (dict_get "brandCode" d) as [v|] eqn:Hb; [|discriminate].
  destruct v as [|b|n|m x|s|l|dv]; cbn [truthy];
    try discriminate;
    try (match goal with
         | |- context [if ?c then _ else _] => destruct c eqn:Hc
         end;
         try discriminate; intros _; cbn [negb andb]; split; reflexivity).
  destruct (String.eqb s ""); cbn [negb andb]; [discriminate|].
  destruct (binds db s) eqn:Hbind.
  - destruct (existsb (String.eqb s) (brands db)); discriminate.
  - intros _. split; [|reflexivity].
    apply (forallb_false_in _ "brandCode").
    + unfold item_fields. simpl. tauto.
    + unfold get_or_none. rewrite Hb. exact Hbind.
Qed.

Lemma insert_receipt_item_effect now item receipt_id db :
  let db' := insert_receipt_item now item receipt_id db in
  users db' = users db
  /\ brands db' = brands db
  /\ receipts db' = receipts db
  /\ missing_users db' = missing_users db
  /\ same_rules db db'
  /\ missing_brands db'
     = match missing_brand_of db item with
       | Some s => sightings 255 [now] s (missing_brands db)
       | None => missing_brands db
       end
  /\ exists c,
       rewardsreceiptitemlist db'
       = (rewardsreceiptitemlist db
          ++ (if item_accepted db item
                 && admits_item db c (item_row receipt_id item)
              then [item_row receipt_id item] else []))%list.
Proof.
  assert (forall l : list row, l = (l ++ [])%list) as Hnil
    by (intros; now rewrite app_nil_r).
  unfold insert_receipt_item.
  destruct (resolve_brand now item db) as [[db1 brandcode]|e] eqn:Hr.
  - destruct (resolve_brand_effect _ _ _ _ _ Hr)
      as [d [-> [-> [Hacc [H1 [H2 [H3 [H4 [H5 [HR H7]]]]]]]]]].
    pose proof HR as [R1 [R2 [R3 R4]]].
    rewrite item_values_dict, Hacc, item_row_dict.
    unfold insert_item_row.
    rewrite (adaptable_rules db1 db _ R2), item_values_adaptable, R4.
    match goal with
    | |- context [if ?c then Some _ else None] => destruct c eqn:Hc
    end;
      cbn [content with_content users brands receipts
           rewardsreceiptitemlist missing_brands missing_users];
      (split; [exact H1|]); (split; [exact H2|]); (split; [exact H3|]);
      (split; [exact H5|]); (split; [exact HR|]); (split; [exact H7|]);
      exists db1; rewrite Hc, H4; [reflexivity | apply Hnil].
  - destruct (resolve_brand_raise _ _ _ _ Hr) as [-> ->].
    repeat split. exists db. cbn [andb]. apply Hnil.
Qed.

Lemma item_accepted_rules db1 db2 item :
  binds db1 = binds db2 ->
  item_accepted db1 item = item_accepted db2 item.
Proof.
  intros H. unfold item_accepted. destruct item; try reflexivity.
  f_equal. apply forallb_ext_eq. intros key. unfold adaptable.
  now rewrite H.
Qed.

Lemma filter_ext_eq {A : Type} (f g : A -> bool) (l : list A) :
  (forall x, f x = g x) -> filter f l = filter g l.
Proof.
  intros H. induction l as [|x l IH]; cbn [filter]; [reflexivity|].
  now rewrite H, IH.
Qed.

Lemma insert_items_from_changes
  (clock : nat -> Z) (items : list json) (receipt_id : Z) :
  forall (i : nat) (db : store),
    let db' := insert_items_from clock i items receipt_id db in
    (exists kept,
       Subsequence kept (filter (item_accepted db) items)
       /\ rewardsreceiptitemlist db'
          = (rewardsreceiptitemlist db
             ++ map (item_row receipt_id) kept)%list
       /\ (admits_every_item db ->
           kept = filter (item_accepted db) items))
    /\ users db' = users db
    /\ brands db' = brands db
    /\ receipts db' = receipts db
    /\ missing_users db' = missing_users db
    /\ same_rules db db'.
Proof.
  induction items as [|item items IH]; intros i db;
    cbn [insert_items_from filter].
  - split; [|repeat split].
    exists []. split; [constructor|]. split; [|reflexivity].
    cbn [map]. now rewrite app_nil_r.
  - destruct (insert_receipt_item_effect (clock i) item receipt_id db)
      as [E1 [E2 [E3 [E4 [ER [_ [c E7]]]]]]]. cbn zeta in *.
    set (db1 := insert_receipt_item (clock i) item receipt_id db) in *.
    destruct (IH (S i) db1) as [[kept [K1 [K2 K3]]] [H2 [H3 [H4 [H5 HR]]]]].
    pose proof ER as [R1 [R2 [R3 R4]]].
    assert (filter (item_accepted db1) items
            = filter (item_accepted db) items) as Hf
      by (apply filter_ext_eq; intros x; now apply item_accepted_rules).
    rewrite Hf in K1, K3.
    split.
    2:{ split; [congruence|]. split; [congruence|]. split; [congruence|].
        split; [congruence|]. eapply same_rules_trans; eauto. }
    destruct (item_accepted db item) eqn:Hacc; cbn [andb] in E7.
    + destruct (admits_item db c (item_row receipt_id item)) eqn:Hadm.
      * exists (item :: kept). split; [now constructor|].
        split.
        -- rewrite K2, E7. cbn [map]. now rewrite <- app_assoc.
        -- intros Hall. f_equal. apply K3.
           intros c0 r0. rewrite R4. apply Hall.
      * exists kept. split; [now constructor|].
        split.
        -- rewrite K2, E7. now rewrite app_nil_r.
        -- intros Hall. rewrite Hall in Hadm. discriminate.
    + exists kept. split; [exact K1|].
      split.
      * rewrite K2, E7. now rewrite app_nil_r.
      * intros Hall. apply K3. intros c0 r0. rewrite R4. apply Hall.
Qed.

(** X18: [insert_receipt_items] hands to the store, in the order of the
    list, the row of every item that is a mapping whose [brandCode] is
    absent, false or a string and whose values the driver can adapt, and
    skips every other item, as it skips the rows that the store refuses,
    without an effect on the items after it: the rows that the line
    items gain are rows of such items, in their order, and all of them
    when the store refuses none.  It leaves [users], [brands], the
    receipts and [missing_users] as they are. *)
Theorem insert_items_from_rows
  (clock : nat -> Z) (i : nat) (items : list json) (receipt_id : Z)
  (db : store) :
  let db' := insert_items_from clock i items receipt_id db in
  (exists kept,
     Subsequence kept (filter (item_accepted db) items)
     /\ rewardsreceiptitemlist db'
        = (rewardsreceiptitemlist db
           ++ map (item_row receipt_id) kept)%list
     /\ (admits_every_item db ->
         kept = filter (item_accepted db) items))
  /\ users db' = users db
  /\ brands db' = brands db
  /\ receipts db' = receipts db
  /\ missing_users db' = missing_users db
  /\ same_rules db db'.
Proof.
  exact (insert_items_from_changes clock items receipt_id i db).
Qed.

(** ** The ledger counts every reference to a missing key *)

Lemma count_of_sighting_other width now s key l :
  (forall k, stored_key width s = Ok k -> k <> key) ->
  count_of key (sightings width [now] s l) = count_of key l.
Proof.
  intros Hne. unfold sightings, count_of. cbn [fold_left]. unfold upsert.
  destruct (stored_key width s) as [k|]; cbn [bind]; [|reflexivity].
  specialize (Hne k eq_refl).
  destruct (dict_get k l) as [e|] eqn:Hs.
  - destruct (int_max <? occurrence_count e + 1)%Z; [reflexivity|].
    rewrite dict_get_set_other by congruence. reflexivity.
  - rewrite dict_get_app_other by congruence. reflexivity.
Qed.

Lemma count_of_sighting_same width now s key l :
  stored_key width s = Ok key ->
  (count_of key l + 1 <= int_max)%Z ->
  count_of key (sightings width [now] s l) = (count_of key l + 1)%Z.
Proof.
  intros Hk Hmax. unfold sightings, count_of in *. cbn [fold_left].
  unfold upsert. rewrite Hk. cbn [bind].
  destruct (dict_get key l) as [e|] eqn:Hs.
  - assert ((int_max <? occurrence_count e + 1)%Z = false) as ->
      by (apply Z.ltb_ge; lia).
    now rewrite dict_get_set_same.
  - now rewrite dict_get_app_new.
Qed.

(** The count of [key] after a sighting of [s] that is counted when
    [counted] holds. *)
Lemma count_of_sighting width now s key l :
  let counted := match stored_key width s with
                 | Ok k => String.eqb k key
                 | Raise _ => false
                 end in
  (count_of key l + (if counted then 1 else 0) <= int_max)%Z ->
  count_of key (sightings width [now] s l)
  = (count_of key l + (if counted then 1 else 0))%Z.
Proof.
  cbn zeta. destruct (stored_key width s) as [k|] eqn:Hk.
  - destruct (String.eqb_spec k key) as [->|Hne]; intros Hmax.
    + now apply count_of_sighting_same.
    + rewrite count_of_sighting_other; [lia|].
      intros k0 H0. congruence.
  - intros _. rewrite count_of_sighting_other; [lia|].
    intros k0 H0. congruence.
Qed.

Lemma missing_brand_of_rules (db1 db2 : store) item :
  brands db1 = brands db2 -> binds db1 = binds db2 ->
  missing_brand_of db1 item = missing_brand_of db2 item.
Proof. unfold missing_brand_of. now intros -> ->. Qed.

Lemma missing_user_of_rules (db1 db2 : store) receipt :
  users db1 = users db2 -> same_rules db2 db1 ->
  missing_user_of db1 receipt = missing_user_of db2 receipt.
Proof.
  unfold missing_user_of. intros -> [R1 [R2 _]].
  now rewrite (processed_rules db1 db2 _ _ R1), R2.
Qed.

(** X19: after [insert_receipt_items], the [occurrence_count] of a key
    of [missing_brands] has grown by the number of items of the receipt
    whose brand code the driver binds, [brands] lacks and the ledger
    stores under this key, that is the code itself when it fits the
    column, and the code cut to 255 characters when only spaces exceed
    them (as long as the count fits an [INTEGER]); items that are
    skipped for another reason are not counted, items whose row the
    store refuses are. *)
Theorem missing_brand_counted_per_item
  (clock : nat -> Z) (i : nat) (items : list json) (receipt_id : Z)
  (db : store) (key : string) :
  (count_of key (missing_brands db)
   + Z.of_nat (List.length (filter (is_missing_brand db key) items))
   <= int_max)%Z ->
  count_of key
    (missing_brands (insert_items_from clock i items receipt_id db))
  = (count_of key (missing_brands db)
     + Z.of_nat (List.length (filter (is_missing_brand db key) items)))%Z.
Proof.
  revert i db.
  induction items as [|item items IH]; intros i db Hmax;
    cbn [insert_items_from filter List.length].
  - cbn. lia.
  - destruct (insert_receipt_item_effect (clock i) item receipt_id db)
      as [_ [E2 [_ [_ [[_ [R2 _]] [E6 _]]]]]]. cbn zeta in E2, E6, R2.
    set (db1 := insert_receipt_item (clock i) item receipt_id db) in *.
    assert (filter (is_missing_brand db1 key) items
            = filter (is_missing_brand db key) items) as Hf.
    { apply filter_ext_eq. intros x. unfold is_missing_brand.
      now rewrite (missing_brand_of_rules db1 db x E2 R2). }
    cbn [filter] in Hmax.
    unfold is_missing_brand at 1. unfold is_missing_brand at 1 in Hmax.
    destruct (missing_brand_of db item) as [s|] eqn:Hm.
    + pose proof (count_of_sighting 255 (clock i) s key (missing_brands db))
        as Hc. cbn zeta in Hc.
      destruct (match stored_key 255 s with
                | Ok k => String.eqb k key
                | Raise _ => false
                end); cbn [List.length] in *;
        rewrite IH; rewrite Hf, E6, Hc; lia.
    + rewrite IH; rewrite Hf, E6; auto.
Qed.

Lemma missing_brand_counted_per_item_witness :
  count_of "X1"
    (missing_brands
       (insert_items_from (fun _ => 1612137600%Z) 0
          [JDict [("brandCode", JStr "X1")]; JStr "not an item";
           JDict [("brandCode", JStr "B1")];
           JDict [("barcode", JDict [("code", JStr "4011")]);
                  ("brandCode", JStr "X1")]]
          1 store_with_one_brand))
  = (count_of "X1" (missing_brands store_with_one_brand)
     + Z.of_nat
         (List.length
            (filter (is_missing_brand store_with_one_brand "X1")
               [JDict [("brandCode", JStr "X1")]; JStr "not an item";
                JDict [("brandCode", JStr "B1")];
                JDict [("barcode", JDict [("code", JStr "4011")]);
                       ("brandCode", JStr "X1")]])))%Z.
Proof.
  apply (missing_brand_counted_per_item (fun _ => 1612137600%Z) 0
           [JDict [("brandCode", JStr "X1")]; JStr "not an item";
            JDict [("brandCode", JStr "B1")];
            JDict [("barcode", JDict [("code", JStr "4011")]);
                   ("brandCode", JStr "X1")]]
           1 store_with_one_brand "X1").
  vm_compute. discriminate.
Defined.

(** ** The receipts of a run *)

Lemma stored_user_rules (db1 db2 : store) receipt :
  users db1 = users db2 -> datetime_error db1 = datetime_error db2 ->
  stored_user db1 receipt = stored_user db2 receipt.
Proof.
  unfold stored_user. intros -> R1.
  now rewrite (processed_rules db1 db2 _ _ R1).
Qed.

Lemma receipt_row_rules (db1 db2 : store) receipt :
  users db1 = users db2 -> datetime_error db1 = datetime_error db2 ->
  receipt_row db1 receipt = receipt_row db2 receipt.
Proof.
  unfold receipt_row. intros Hu R1.
  now rewrite (stored_user_rules db1 db2 _ Hu R1),
    (receipt_values_rules db1 db2 _ _ R1).
Qed.

Lemma receipt_storable_rules (db1 db2 : store) receipt :
  users db1 = users db2 -> same_rules db2 db1 ->
  receipt_storable db1 receipt = receipt_storable db2 receipt.
Proof.
  intros Hu [R1 [R2 _]]. unfold receipt_storable, user_resolves.
  rewrite (processed_rules db1 db2 _ _ R1),
    (stored_user_rules db1 db2 _ Hu R1).
  destruct (processed db2 receipt "userId") as [v|]; [|reflexivity].
  rewrite R2. f_equal.
  rewrite (receipt_values_rules db1 db2 _ _ R1).
  destruct (receipt_values db2 receipt (stored_user db2 receipt));
    [|reflexivity].
  now apply adaptable_rules.
Qed.

Lemma insert_receipts_changes clock receipts :
  forall i (db : store) acc skipped,
    let r := insert_receipts clock i receipts db acc skipped in
    let db' := fst (fst r) in
    (exists inserted : list (json * Z),
       inserted_receipts db receipts inserted
       /\ DatabaseIngester.receipts db'
          = (DatabaseIngester.receipts db
             ++ map (fun p => receipt_row db (fst p)) inserted)%list
       /\ snd (fst r)
          = (acc ++ filter (fun p => negb (Z.eqb (snd p) 0)) inserted)%list
       /\ (snd r
           + List.length (filter (fun p => negb (Z.eqb (snd p) 0)) inserted)
           = skipped + List.length receipts)%nat)
    /\ users db' = users db
    /\ brands db' = brands db
    /\ rewardsreceiptitemlist db' = rewardsreceiptitemlist db
    /\ missing_brands db' = missing_brands db
    /\ same_rules db db'.
Proof.
  induction receipts as [|receipt receipts IH]; intros i db acc skipped;
    cbn [insert_receipts].
  - cbn zeta. cbn [fst snd]. split; [|repeat split].
    exists []. cbn [map filter List.length].
    rewrite !app_nil_r.
    split; [|split; [reflexivity|split; [reflexivity|lia]]].
    split; [constructor|].
    split; [constructor | reflexivity].
  - pose proof (insert_receipt_without_items_changes (clock i) receipt db)
      as E.
    pose proof (insert_receipt_without_items_returns (clock i) receipt db)
      as [Hret _].
    cbn zeta in E, Hret.
    destruct (insert_receipt_without_items (clock i) receipt db)
      as [db1 rid]. cbn [fst snd] in E, Hret.
    destruct E as [E1 [E2 [E3 [E4 [ER [_ E6]]]]]].
    pose proof ER as [R1 [R2 [R3 R4]]].
    assert (forall x, receipt_row db1 x = receipt_row db x) as Hrow
      by (intros x; now apply receipt_row_rules).
    assert (forall x, receipt_storable db1 x = receipt_storable db x)
      as Hstor by (intros x; now apply receipt_storable_rules).
    assert (forall acc' skipped',
              let r := insert_receipts clock (S i) receipts db1 acc' skipped'
              in
              (exists inserted : list (json * Z),
                 inserted_receipts db receipts inserted
                 /\ DatabaseIngester.receipts (fst (fst r))
                    = (DatabaseIngester.receipts db1
                       ++ map (fun p => receipt_row db (fst p)) inserted)%list
                 /\ snd (fst r)
                    = (acc' ++ filter (fun p => negb (Z.eqb (snd p) 0))
                                 inserted)%list
                 /\ (snd r
                     + List.length
                         (filter (fun p => negb (Z.eqb (snd p) 0)) inserted)
                     = skipped' + List.length receipts)%nat)
              /\ users (fst (fst r)) = users db
              /\ brands (fst (fst r)) = brands db
              /\ rewardsreceiptitemlist (fst (fst r))
                 = rewardsreceiptitemlist db
              /\ missing_brands (fst (fst r)) = missing_brands db
              /\ same_rules db (fst (fst r))) as Hrest.
    { intros acc' skipped'.
      destruct (IH (S i) db1 acc' skipped')
        as [[inserted [[I1 [I5 I6]] [I2 [I3 I4]]]]
              [J1 [J2 [J3 [J4 JR]]]]].
      cbn zeta in *.
      split.
      2:{ split; [congruence|]. split; [congruence|]. split; [congruence|].
          split; [congruence|]. eapply same_rules_trans; eauto. }
      exists inserted.
      split.
      { split; [exact I1|].
        split.
        - eapply Forall_impl; [|exact I5].
          intros p [Hs [c Hc]]. split; [now rewrite <- Hstor|].
          exists c. now rewrite <- R3, <- Hrow.
        - intros Hall. rewrite I6.
          + apply filter_ext_eq. exact Hstor.
          + intros c x. rewrite R3. apply Hall. }
      split.
      { rewrite I2.
        rewrite (map_ext (fun p : json * Z => receipt_row db1 (fst p))
                   (fun p => receipt_row db (fst p)));
          [reflexivity | intros p; apply Hrow]. }
      split; [exact I3 | exact I4]. }
    cbn zeta in *.
    destruct rid as [id|].
    + destruct E6 as [Hrows _].
      assert (receipt_storable db receipt = true
              /\ exists c,
                   admits_receipt db c (receipt_row db receipt) = Some id)
        as Hadm.
      { destruct (receipt_storable db receipt); [|discriminate].
        split; [reflexivity|]. eauto. }
      assert (forall acc' skipped',
                acc' = (acc ++ (if negb (Z.eqb id 0) then [(receipt, id)]
                                else []))%list ->
                (skipped' + (if negb (Z.eqb id 0) then 1 else 0)
                 = S skipped)%nat ->
                let r := insert_receipts clock (S i) receipts db1 acc'
                           skipped' in
                exists inserted : list (json * Z),
                  inserted_receipts db (receipt :: receipts) inserted
                  /\ DatabaseIngester.receipts (fst (fst r))
                     = (DatabaseIngester.receipts db
                        ++ map (fun p => receipt_row db (fst p)) inserted)%list
                  /\ snd (fst r)
                     = (acc ++ filter (fun p => negb (Z.eqb (snd p) 0))
                                 inserted)%list
                  /\ (snd r
                      + List.length
                          (filter (fun p => negb (Z.eqb (snd p) 0)) inserted)
                      = skipped + S (List.length receipts))%nat) as Hcons.
      { intros acc' skipped' Hacc Hskip.
        destruct (Hrest acc' skipped')
          as [[inserted [[I1 [I5 I6]] [I2 [I3 I4]]]] _].
        cbn zeta in *.
        exists ((receipt, id) :: inserted).
        split.
        { split; [cbn [map fst]; now constructor|].
          split; [constructor; [exact Hadm | exact I5]|].
          intros Hall. cbn [map fst filter].
          destruct Hadm as [-> _]. f_equal. now apply I6. }
        split; [rewrite I2, Hrows; cbn [map fst]; now rewrite <- app_assoc|].
        cbn [filter snd].
        destruct (negb (Z.eqb id 0)).
        - split; [rewrite I3, Hacc; now rewrite <- app_assoc|].
          cbn [List.length]. lia.
        - split; [rewrite I3, Hacc; now rewrite app_nil_r|]. lia. }
      destruct (negb (Z.eqb id 0)) eqn:Hz.
      * split; [|apply (Hrest (acc ++ [(receipt, id)])%list skipped)].
        apply Hcons; [reflexivity | lia].
      * split; [|apply (Hrest acc (S skipped))].
        apply Hcons; [now rewrite app_nil_r | lia].
    + destruct (Hrest acc (S skipped))
        as [[inserted [[I1 [I5 I6]] [I2 [I3 I4]]]] Hframe].
      split; [|exact Hframe].
      exists inserted.
      split.
      { split; [now constructor|].
        split; [exact I5|].
        intros Hall. cbn [filter].
        destruct (receipt_storable db receipt); [|now apply I6].
        symmetry in Hret. now apply Hall in Hret. }
      split; [now rewrite I2, E6|].
      split; [exact I3|]. cbn [List.length]; lia.
Qed.

Lemma filter_all {A : Type} (f : A -> bool) (l : list A) :
  Forall (fun x => f x = true) l -> filter f l = l.
Proof.
  induction 1 as [|x l Hx _ IH]; cbn [filter]; [reflexivity|].
  now rewrite Hx, IH.
Qed.

(** X20: the third step of [main] accounts for every receipt.  The rows
    that [receipts] gains are the rows of some of the receipts, in
    their order: receipts for which the lookup of the user raises
    nothing, the dates convert and the driver adapts every value, each
    admitted by the store under the identifier that is returned for
    it, and all of these receipts when the store refuses none.  The
    receipts that are kept for the item step are the inserted ones
    whose identifier is not zero, each with its identifier, so that
    they are exactly the inserted ones when the store returns no
    identifier zero; kept and skipped receipts add up to the receipts
    of the run; and [users], [brands], the line items and
    [missing_brands] are left as they are. *)
Theorem insert_receipts_accounting
  (clock : nat -> Z) (receipts : list json) (db : store) :
  let r := insert_receipts clock 0 receipts db [] 0 in
  let db' := fst (fst r) in
  (exists inserted : list (json * Z),
     Subsequence (map fst inserted) receipts
     /\ DatabaseIngester.receipts db'
        = (DatabaseIngester.receipts db
           ++ map (fun p => receipt_row db (fst p)) inserted)%list
     /\ Forall (fun p => receipt_storable db (fst p) = true
                         /\ exists c,
                              admits_receipt db c (receipt_row db (fst p))
                              = Some (snd p)) inserted
     /\ ((forall c x, admits_receipt db c x <> None) ->
         map fst inserted = filter (receipt_storable db) receipts)
     /\ snd (fst r) = filter (fun p => negb (Z.eqb (snd p) 0)) inserted
     /\ ((forall c x, admits_receipt db c x <> Some 0%Z) ->
         snd (fst r) = inserted))
  /\ (List.length (snd (fst r)) + snd r = List.length receipts)%nat
  /\ users db' = users db
  /\ brands db' = brands db
  /\ rewardsreceiptitemlist db' = rewardsreceiptitemlist db
  /\ missing_brands db' = missing_brands db.
Proof.
  pose proof (insert_receipts_changes clock receipts 0 db [] 0) as E.
  cbn zeta in *.
  destruct E as [[inserted [[I1 [I5 I6]] [I2 [I3 I4]]]]
                   [J1 [J2 [J3 [J4 _]]]]].
  cbn [app] in I3.
  split; [|repeat split; auto; rewrite I3; lia].
  exists inserted. repeat split; auto.
  intros Hzero. rewrite I3. apply filter_all.
  eapply Forall_impl; [|exact I5].
  intros [x id] [_ [c Hc]]. cbn [fst snd] in *.
  destruct (Z.eqb_spec id 0) as [->|]; [|reflexivity].
  now apply Hzero in Hc.
Qed.

Lemma insert_receipts_ledger clock receipts key :
  forall i (db : store) acc skipped,
    (count_of key (missing_users db)
     + Z.of_nat (List.length (filter (is_missing_user db key) receipts))
     <= int_max)%Z ->
    count_of key
      (missing_users
         (fst (fst (insert_receipts clock i receipts db acc skipped))))
    = (count_of key (missing_users db)
       + Z.of_nat (List.length (filter (is_missing_user db key) receipts)))%Z.
Proof.
  induction receipts as [|receipt receipts IH]; intros i db acc skipped Hmax;
    cbn [insert_receipts filter List.length].
  - cbn. lia.
  - pose proof (insert_receipt_without_items_changes (clock i) receipt db)
      as E. cbn zeta in E.
    destruct (insert_receipt_without_items (clock i) receipt db)
      as [db1 rid]. cbn [fst snd] in E.
    destruct E as [E1 [_ [_ [_ [ER [E5 _]]]]]].
    assert (filter (is_missing_user db1 key) receipts
            = filter (is_missing_user db key) receipts) as Hf.
    { apply filter_ext_eq. intros x. unfold is_missing_user.
      now rewrite (missing_user_of_rules db1 db x E1 ER). }
    assert (forall acc' skipped',
              count_of key
                (missing_users
                   (fst (fst (insert_receipts clock (S i) receipts db1
                                acc' skipped'))))
              = (count_of key (missing_users db)
                 + Z.of_nat
                     (List.length
                        (filter (is_missing_user db key)
                           (receipt :: receipts))))%Z) as Hall.
    { intros acc' skipped'. cbn [filter] in *.
      unfold is_missing_user at 1. unfold is_missing_user at 1 in Hmax.
      destruct (missing_user_of db receipt) as [s|] eqn:Hm.
      - pose proof (count_of_sighting 24 (clock i) s key (missing_users db))
          as Hc. cbn zeta in Hc.
        destruct (match stored_key 24 s with
                  | Ok k => String.eqb k key
                  | Raise _ => false
                  end); cbn [List.length] in *;
          rewrite IH; rewrite Hf, E5, Hc; lia.
      - rewrite IH; rewrite Hf, E5; auto. }
    destruct rid as [id|]; [destruct (negb (Z.eqb id 0))|]; apply Hall.
Qed.

(** X21: after the third step of [main], the [occurrence_count] of a key
    of [missing_users] has grown by the number of receipts of the run
    whose user the driver binds, [users] lacks and the ledger stores
    under this key, that is the identifier itself when it fits the
    column, and the identifier cut to 24 characters when only spaces
    exceed them, whether the receipt is inserted or not (as long as the
    count fits an [INTEGER]). *)
Theorem missing_user_counted_per_receipt
  (clock : nat -> Z) (receipts : list json) (db : store) (key : string) :
  (count_of key (missing_users db)
   + Z.of_nat (List.length (filter (is_missing_user db key) receipts))
   <= int_max)%Z ->
  count_of key
    (missing_users (fst (fst (insert_receipts clock 0 receipts db [] 0))))
  = (count_of key (missing_users db)
     + Z.of_nat (List.length (filter (is_missing_user db key) receipts)))%Z.
Proof.
  intros Hmax. now apply insert_receipts_ledger.
Qed.

Lemma missing_user_counted_per_receipt_witness :
  count_of "5ff1e1eacfcf6c399c274ae6"
    (missing_users
       (fst (fst (insert_receipts (fun _ => 1612137600%Z) 0
                    [receipt_of_unknown_user; plain_user_receipt;
                     receipt_with_padded_user; receipt_with_bad_date]
                    store_with_one_brand [] 0))))
  = (count_of "5ff1e1eacfcf6c399c274ae6"
       (missing_users store_with_one_brand)
     + Z.of_nat
         (List.length
            (filter (is_missing_user store_with_one_brand
                       "5ff1e1eacfcf6c399c274ae6")
               [receipt_of_unknown_user; plain_user_receipt;
                receipt_with_padded_user; receipt_with_bad_date])))%Z.
Proof.
  apply (missing_user_counted_per_receipt (fun _ => 1612137600%Z)
           [receipt_of_unknown_user; plain_user_receipt;
            receipt_with_padded_user; receipt_with_bad_date]
           store_with_one_brand "5ff1e1eacfcf6c399c274ae6").
  vm_compute. discriminate.
Defined.

(** ** The receipts of known users *)





(** ** The items that cannot be iterated *)

(** X23: [insert_receipt_items] raises only before its loop: with
    [AttributeError] for a receipt that is not a mapping, and with
    [TypeError] for a receipt whose [rewardsReceiptItemList] is null, a
    boolean or a number; no item of the list can make it raise. *)
Theorem insert_receipt_items_raises_before_loop
  (clock : nat -> Z) (receipt : json) (receipt_id : Z) (db : store)
  (e : exn) :
  insert_receipt_items clock receipt receipt_id db = Raise e ->
  (is_dict receipt = false /\ e = AttributeError)
  \/ exists d v,
       receipt = JDict d
       /\ dict_get "rewardsReceiptItemList" d = Some v
       /\ not_iterable v = true
       /\ e = TypeError.
Proof.
  unfold insert_receipt_items, items_of.
  destruct receipt as [| | | | | |d]; cbn [bind];
    try (intros H; inversion H; subst; left; split; reflexivity).
  destruct (dict_get "rewardsReceiptItemList" d) as [v|] eqn:Hv;
    cbn [bind]; [|discriminate].
  destruct v; cbn [bind]; try discriminate;
    intros H; inversion H; subst; right;
    eexists; eexists; repeat split; eauto.
Qed.

Lemma insert_receipt_items_raises_before_loop_witness :
  (is_dict (JDict [("rewardsReceiptItemList", JNull)]) = false
   /\ TypeError = AttributeError)
  \/ exists d v,
       JDict [("rewardsReceiptItemList", JNull)] = JDict d
       /\ dict_get "rewardsReceiptItemList" d = Some v
       /\ not_iterable v = true
       /\ TypeError = TypeError.
Proof.
  apply (insert_receipt_items_raises_before_loop (fun _ => 0%Z)
           (JDict [("rewardsReceiptItemList", JNull)]) 1 empty_store
           TypeError).
  reflexivity.
Defined.

(** ** The items of a run *)

Lemma rows_of_receipt_rules (db1 db2 : store) entry :
  binds db1 = binds db2 ->
  rows_of_receipt db1 entry = rows_of_receipt db2 entry.
Proof.
  intros H. unfold rows_of_receipt. destruct (items_of (fst entry));
    [|reflexivity].
  f_equal. apply filter_ext_eq. intros x. now apply item_accepted_rules.
Qed.

(** X24: when the fourth step of [main] returns against a store that
    refuses no row of a line item, the line items hold, in the order of
    the receipts, the rows of the accepted items of every receipt under
    the identifier of that receipt, and [users], [brands], the receipts
    and [missing_users] are as they were. *)
Theorem insert_all_items_rows
  (clock : nat -> nat -> Z) (j : nat) (receipts_with_ids : list (json * Z))
  (db db' : store) :
  admits_every_item db ->
  insert_all_items clock j receipts_with_ids db = Ok db' ->
  rewardsreceiptitemlist db'
  = (rewardsreceiptitemlist db
     ++ flat_map (rows_of_receipt db) receipts_with_ids)%list
  /\ users db' = users db
  /\ brands db' = brands db
  /\ DatabaseIngester.receipts db' = DatabaseIngester.receipts db
  /\ missing_users db' = missing_users db.
Proof.
  revert j db.
  induction receipts_with_ids as [|[receipt receipt_id] rest IH];
    intros j db Hall; cbn [insert_all_items flat_map].
  - intros H; inversion H; subst. rewrite app_nil_r. repeat split.
  - unfold insert_receipt_items, rows_of_receipt at 1. cbn [fst snd].
    destruct (items_of receipt) as [items|]; cbn [bind]; [|discriminate].
    destruct (insert_items_from_changes (clock j) items receipt_id 0 db)
      as [[kept [_ [K2 K3]]] [E2 [E3 [E4 [E5 ER]]]]]. cbn zeta in *.
    pose proof ER as [R1 [R2 [R3 R4]]].
    rewrite (K3 Hall) in K2.
    intros H. apply IH in H.
    2:{ intros c r. rewrite R4. apply Hall. }
    destruct H as [H1 [H2 [H3 [H4 H5]]]].
    rewrite H1, H2, H3, H4, H5, K2, E2, E3, E4, E5.
    rewrite <- app_assoc. repeat split.
    f_equal. f_equal. apply flat_map_ext. intros entry.
    now apply rows_of_receipt_rules.
Qed.

Lemma insert_all_items_rows_witness :
  exists db',
    insert_all_items (fun _ _ => 1612137600%Z) 0 receipts_with_items
      store_with_one_brand = Ok db'
    /\ rewardsreceiptitemlist db'
       = (rewardsreceiptitemlist store_with_one_brand
          ++ flat_map (rows_of_receipt store_with_one_brand)
               receipts_with_items)%list
    /\ users db' = users store_with_one_brand
    /\ brands db' = brands store_with_one_brand
    /\ DatabaseIngester.receipts db'
       = DatabaseIngester.receipts store_with_one_brand
    /\ missing_users db' = missing_users store_with_one_brand.
Proof.
  eexists. split; [reflexivity|].
  apply (insert_all_items_rows (fun _ _ => 1612137600%Z) 0
           receipts_with_items store_with_one_brand).
  - intros c r. reflexivity.
  - reflexivity.
Defined.

(** ** Entries of the ledger stay *)

Lemma entry_kept_refl key l : entry_kept key l l.
Proof. intros e H. exists e. repeat split; auto. lia. Qed.

Lemma entry_kept_trans key a b c :
  entry_kept key a b -> entry_kept key b c -> entry_kept key a c.
Proof.
  intros Hab Hbc e H.
  destruct (Hab e H) as [e1 [H1 [F1 C1]]].
  destruct (Hbc e1 H1) as [e2 [H2 [F2 C2]]].
  exists e2. repeat split; auto; [congruence | lia].
Qed.

Lemma sighting_keeps_entry width now s key l :
  entry_kept key l (sightings width [now] s l).
Proof.
  intros e He. unfold sightings. cbn [fold_left]. unfold upsert.
  destruct (stored_key width s) as [k|]; cbn [bind];
    [|exists e; repeat split; auto; lia].
  destruct (dict_get k l) as [es|] eqn:Hs.
  - destruct (int_max <? occurrence_count es + 1)%Z;
      [exists e; repeat split; auto; lia|].
    destruct (String.eqb_spec key k) as [->|Hne].
    + rewrite dict_get_set_same. rewrite He in Hs. inversion Hs; subst.
      eexists. split; [reflexivity|]. cbn. split; [reflexivity | lia].
    + rewrite dict_get_set_other by exact Hne.
      exists e. repeat split; auto. lia.
  - destruct (String.eqb_spec key k) as [->|Hne]; [congruence|].
    rewrite dict_get_app_other by exact Hne.
    exists e. repeat split; auto. lia.
Qed.

Lemma insert_items_from_keeps_entries clock items receipt_id key :
  forall i (db : store),
    entry_kept key (missing_brands db)
      (missing_brands (insert_items_from clock i items receipt_id db)).
Proof.
  induction items as [|item items IH]; intros i db;
    cbn [insert_items_from]; [apply entry_kept_refl|].
  eapply entry_kept_trans; [|apply IH].
  destruct (insert_receipt_item_effect (clock i) item receipt_id db)
    as [_ [_ [_ [_ [_ [E6 _]]]]]]. cbn zeta in E6. rewrite E6.
  destruct (missing_brand_of db item);
    [apply sighting_keeps_entry | apply entry_kept_refl].
Qed.

Lemma insert_receipts_keeps_entries clock receipts key :
  forall i (db : store) acc skipped,
    entry_kept key (missing_users db)
      (missing_users
         (fst (fst (insert_receipts clock i receipts db acc skipped)))).
Proof.
  induction receipts as [|receipt receipts IH]; intros i db acc skipped;
    cbn [insert_receipts]; [apply entry_kept_refl|].
  pose proof (insert_receipt_without_items_changes (clock i) receipt db) as E.
  cbn zeta in E.
  destruct (insert_receipt_without_items (clock i) receipt db) as [db1 rid].
  cbn [fst snd] in E. destruct E as [_ [_ [_ [_ [_ [E5 _]]]]]].
  assert (entry_kept key (missing_users db) (missing_users db1)) as Hstep.
  { rewrite E5. destruct (missing_user_of db receipt);
      [apply sighting_keeps_entry | apply entry_kept_refl]. }
  destruct rid as [id|]; [destruct (negb (Z.eqb id 0))|];
    (eapply entry_kept_trans; [exact Hstep | apply IH]).
Qed.

(** X25: the loader never removes an entry of a ledger, never lowers its
    [occurrence_count] and never changes its [first_seen]: this holds
    for the brands over the items of a receipt and for the users over
    the receipts of a run, without any condition on the keys. *)
Theorem ledger_entries_kept
  (clock : nat -> Z) (items receipts : list json) (receipt_id : Z)
  (db : store) (key : string) :
  entry_kept key (missing_brands db)
    (missing_brands (insert_items_from clock 0 items receipt_id db))
  /\ entry_kept key (missing_users db)
       (missing_users
          (fst (fst (insert_receipts clock 0 receipts db [] 0)))).
Proof.
  split.
  - apply insert_items_from_keeps_entries.
  - apply insert_receipts_keeps_entries.
Qed.
